(** * decide-test-mcp: decision-table parser and test-code generator

    A shallow embedding of [DecisionTableParser] (src/parsers/decision-table-parser.ts)
    and [TestCodeGenerator] (src/generators/test-code-generator.ts), followed by
    the properties of the two engines; then of [ApiAgent] and [WebAgent]
    (src/agents), with theirs.

    Conventions.
    - A JavaScript string is a Rocq [string]: the bytes of its UTF-8 encoding.
      Every character class the two engines test for (quote, newline, comma,
      hyphen, underscore, [a-z0-9], [\w]) is ASCII, so a byte-wise model agrees
      with the UTF-16 one on them.
    - A plain JavaScript object used as a record or a map is an association
      list in insertion order, [Object_entries] giving the enumeration order.
    - What belongs to the platform and not to the repository (file system,
      [Papa.parse], [JSON.parse], [marked.lexer], [JSON.stringify],
      number formatting, [path.join]) is a field of a platform record; so
      are [fetch] and the regular expressions built at run time, for the API
      agent, and the browser of Playwright, for the web agent. *)

From Stdlib Require Import String Ascii List Bool Arith NArith ZArith Lia.
From Stdlib Require Import DecimalString DecimalNat Permutation.
Import ListNotations.

Local Open Scope list_scope.
Local Open Scope nat_scope.
Local Open Scope string_scope.

(* ================================================================== *)
(** * JavaScript strings *)
(* ================================================================== *)

Definition LF : ascii := Ascii.ascii_of_nat 10.
Definition quote : ascii := "'"%char.
Definition backslash : ascii := Ascii.ascii_of_nat 92.

Definition code (c : ascii) : nat := Ascii.nat_of_ascii c.

Definition in_range (lo hi : nat) (c : ascii) : bool :=
  ((lo <=? code c) && (code c <=? hi))%nat.

Definition is_digit (c : ascii) : bool := in_range 48 57 c.
Definition is_upper (c : ascii) : bool := in_range 65 90 c.
Definition is_lower (c : ascii) : bool := in_range 97 122 c.

(** [\w] of a regular expression without the [u] flag. *)
Definition is_word (c : ascii) : bool :=
  is_digit c || is_upper c || is_lower c || Ascii.eqb c "_".

Definition lower_char (c : ascii) : ascii :=
  if is_upper c then Ascii.ascii_of_nat (code c + 32) else c.

Definition upper_char (c : ascii) : ascii :=
  if is_lower c then Ascii.ascii_of_nat (code c - 32) else c.

Fixpoint map_string (f : ascii -> ascii) (s : string) : string :=
  match s with
  | EmptyString => EmptyString
  | String c r => String (f c) (map_string f r)
  end.

(** [String.prototype.toLowerCase] on ASCII text, where it is exact: the
    letters A to Z are lowered and nothing else changes. The bytes of a code
    point outside ASCII are kept as they are, whereas the platform lowers
    the letters of other alphabets too; the Unicode case mapping is not part
    of this model. What is proved of the case of a cell is therefore stated
    of ASCII text ([ascii_text] below); the keys and words the engines
    compare a lower-cased text with are all ASCII. *)
Definition toLowerCase (s : string) : string := map_string lower_char s.

Fixpoint string_rev (s : string) : string :=
  match s with
  | EmptyString => EmptyString
  | String c r => string_rev r ++ String c EmptyString
  end.

(** ** White space ([WhiteSpace] and [LineTerminator] of ECMAScript)

    TAB, LF, VT, FF, CR and SP are one byte; U+00A0 is two bytes (C2 A0);
    U+1680, U+2000..U+200A, U+2028, U+2029, U+202F, U+205F, U+3000 and U+FEFF
    are three bytes each. *)

Definition is_ws1 (a : ascii) : bool :=
  in_range 9 13 a || (code a =? 32)%nat.

Definition is_ws2 (a b : ascii) : bool :=
  ((code a =? 194) && (code b =? 160))%nat.

Definition is_ws3 (a b c : ascii) : bool :=
  let x := code a in let y := code b in let z := code c in
  (((x =? 225) && (y =? 154) && (z =? 128))
   || ((x =? 226) && (y =? 128) &&
         (((128 <=? z) && (z <=? 138)) || (z =? 168) || (z =? 169) || (z =? 175)))
   || ((x =? 226) && (y =? 129) && (z =? 159))
   || ((x =? 227) && (y =? 128) && (z =? 128))
   || ((x =? 239) && (y =? 187) && (z =? 191)))%nat.

Fixpoint trimStart (s : string) : string :=
  match s with
  | EmptyString => s
  | String a s1 =>
      if is_ws1 a then trimStart s1
      else match s1 with
           | EmptyString => s
           | String b s2 =>
               if is_ws2 a b then trimStart s2
               else match s2 with
                    | EmptyString => s
                    | String c s3 => if is_ws3 a b c then trimStart s3 else s
                    end
           end
  end.

(** The same scan on the reversed string, the bytes of a character arriving
    last first. *)
Fixpoint trimStart_rev (s : string) : string :=
  match s with
  | EmptyString => s
  | String a s1 =>
      if is_ws1 a then trimStart_rev s1
      else match s1 with
           | EmptyString => s
           | String b s2 =>
               if is_ws2 b a then trimStart_rev s2
               else match s2 with
                    | EmptyString => s
                    | String c s3 => if is_ws3 c b a then trimStart_rev s3 else s
                    end
           end
  end.

Definition trimEnd (s : string) : string := string_rev (trimStart_rev (string_rev s)).

Definition trim (s : string) : string := trimEnd (trimStart s).

(** ** split, join, replace, padStart *)

(** [s.split(sep)] for a one-character separator. *)
Fixpoint split_on (sep : ascii) (s : string) : list string :=
  match s with
  | EmptyString => [EmptyString]
  | String c r =>
      if Ascii.eqb c sep then EmptyString :: split_on sep r
      else match split_on sep r with
           | h :: t => String c h :: t
           | [] => [String c EmptyString]
           end
  end.

(** [xs.join(sep)] *)
Fixpoint join (sep : string) (xs : list string) : string :=
  match xs with
  | [] => EmptyString
  | [x] => x
  | x :: rest => x ++ sep ++ join sep rest
  end.

(** [s.replace(/c/g, rep)] for a one-character pattern. *)
Fixpoint replace_char (c : ascii) (rep : string) (s : string) : string :=
  match s with
  | EmptyString => EmptyString
  | String a r =>
      if Ascii.eqb a c then rep ++ replace_char c rep r
      else String a (replace_char c rep r)
  end.

Fixpoint repeat_char (c : ascii) (n : nat) : string :=
  match n with
  | O => EmptyString
  | S k => String c (repeat_char c k)
  end.

(** [s.padStart(n, c)] for a one-character filler. *)
Definition padStart (n : nat) (c : ascii) (s : string) : string :=
  repeat_char c (n - String.length s) ++ s.

(** [String(n)] for a non-negative integer [n]. *)
Definition string_of_nat (n : nat) : string :=
  NilEmpty.string_of_uint (Nat.to_uint n).

(** A string is truthy when it is not empty. *)
Definition nonempty (s : string) : bool :=
  match s with EmptyString => false | _ => true end.

(** [a || b] on strings. *)
Definition str_or (a b : string) : string := if nonempty a then a else b.

Fixpoint ends_with_rev (suffix_rev s_rev : string) : option string :=
  match suffix_rev, s_rev with
  | EmptyString, _ => Some s_rev
  | String a p, String b r => if Ascii.eqb a b then ends_with_rev p r else None
  | String _ _, EmptyString => None
  end.

(** [s.replace(/suffix$/, '')] for a literal suffix. *)
Definition strip_suffix (suffix s : string) : string :=
  match ends_with_rev (string_rev suffix) (string_rev s) with
  | Some r => string_rev r
  | None => s
  end.

(* ================================================================== *)
(** * JavaScript numbers and values *)
(* ================================================================== *)

(** A number is held by the decimal it denotes: [Finite neg m e] stands for
    (-1)^neg * m * 10^e. The rounding of that real to the nearest IEEE double
    is left to the platform. *)
Inductive JsNumber : Type :=
  | Finite (negative : bool) (mantissa : N) (exponent : Z)
  | Infinite (negative : bool)
  | NaN.

Definition isNaN (n : JsNumber) : bool :=
  match n with NaN => true | _ => false end.

Definition digit_of (base : N) (c : ascii) : option N :=
  let x := N.of_nat (code c) in
  let v := (if in_range 48 57 c then Some (x - 48)
            else if in_range 97 102 c then Some (x - 87)
            else if in_range 65 70 c then Some (x - 55)
            else None)%N in
  match v with
  | Some d => if (d <? base)%N then Some d else None
  | None => None
  end.

(** Reads the longest prefix of digits in [base], continuing the value [acc];
    answers the value, the number of digits read and the rest. *)
Fixpoint read_digits (base : N) (s : string) (acc : N) (count : nat)
  : N * nat * string :=
  match s with
  | EmptyString => (acc, count, s)
  | String c r =>
      match digit_of base c with
      | Some d => read_digits base r (acc * base + d)%N (S count)
      | None => (acc, count, s)
      end
  end.

(** [0x], [0o] and [0b] literals: digits to the end, at least one. *)
Definition radix_literal (base : N) (s : string) : JsNumber :=
  match read_digits base s 0%N 0 with
  | (v, S _, EmptyString) => Finite false v 0
  | _ => NaN
  end.

(** [ExponentPart], or nothing, to the end of the string. *)
Definition exponent_part (neg : bool) (m : N) (e : Z) (s : string) : JsNumber :=
  match s with
  | EmptyString => Finite neg m e
  | String c r =>
      if Ascii.eqb c "e" || Ascii.eqb c "E" then
        let '(sign, digits) :=
          match r with
          | String "+" r' => (1%Z, r')
          | String "-" r' => ((-1)%Z, r')
          | _ => (1%Z, r)
          end in
        match read_digits 10 digits 0%N 0 with
        | (v, S _, EmptyString) => Finite neg m (e + sign * Z.of_N v)
        | _ => NaN
        end
      else NaN
  end.

(** [StrUnsignedDecimalLiteral] *)
Definition unsigned_decimal (neg : bool) (s : string) : JsNumber :=
  if String.eqb s "Infinity" then Infinite neg
  else
    match read_digits 10 s 0%N 0 with
    | (ip, ni, String "." r) =>
        match read_digits 10 r ip 0 with
        | (m, nf, rest) =>
            match ni + nf with
            | O => NaN
            | S _ => exponent_part neg m (- Z.of_nat nf) rest
            end
        end
    | (ip, S _, rest) => exponent_part neg ip 0 rest
    | (_, O, _) => NaN
    end.

Definition one_of (c : ascii) (a b : ascii) : bool := Ascii.eqb c a || Ascii.eqb c b.

(** The base a [0x], [0o] or [0b] prefix announces, and what follows it. *)
Definition radix_prefix (t : string) : option (N * string) :=
  match t with
  | String a (String b r) =>
      if Ascii.eqb a "0" then
        if one_of b "x" "X" then Some (16%N, r)
        else if one_of b "o" "O" then Some (8%N, r)
        else if one_of b "b" "B" then Some (2%N, r)
        else None
      else None
  | _ => None
  end.

(** [Number(s)]: the StringToNumber conversion of ECMAScript. White space
    around the literal is dropped, the empty literal is zero, a radix prefix
    takes no sign. *)
Definition StringToNumber (s : string) : JsNumber :=
  match trim s with
  | EmptyString => Finite false 0 0
  | String a r as t =>
      match radix_prefix t with
      | Some (base, digits) => radix_literal base digits
      | None =>
          if Ascii.eqb a "+" then unsigned_decimal false r
          else if Ascii.eqb a "-" then unsigned_decimal true r
          else unsigned_decimal false t
      end
  end.

#[local] Set Warnings "-register-all".
Inductive JsVal : Type :=
  | VUndefined
  | VNull
  | VBool (b : bool)
  | VNumber (n : JsNumber)
  | VString (s : string)
  | VArray (items : list JsVal)
  | VObject (props : list (string * JsVal)).

(** ToBoolean *)
Definition truthy (v : JsVal) : bool :=
  match v with
  | VUndefined | VNull => false
  | VBool b => b
  | VNumber (Finite _ m _) => negb (N.eqb m 0)
  | VNumber (Infinite _) => true
  | VNumber NaN => false
  | VString s => nonempty s
  | VArray _ | VObject _ => true
  end.

(** [a || b] *)
Definition js_or (a b : JsVal) : JsVal := if truthy a then a else b.

(** What a program throws: the constructor of the error and its message. *)
Inductive ErrorKind : Type := PlainError | TypeError | SyntaxError | SystemError.

Record Exn : Type := Throw { kind : ErrorKind; message : string }.

Inductive Result (A : Type) : Type :=
  | Ok (a : A)
  | Raise (e : Exn).
Arguments Ok {A} a.
Arguments Raise {A} e.

Definition bind {A B : Type} (r : Result A) (k : A -> Result B) : Result B :=
  match r with
  | Ok a => k a
  | Raise e => Raise e
  end.

Notation "x <- r ;; k" := (bind r (fun x => k))
  (at level 61, r at next level, right associativity).

(* ================================================================== *)
(** * Plain objects *)
(* ================================================================== *)

(** [array.push(x)] *)
Definition push {A : Type} (l : list A) (x : A) : list A := (l ++ [x])%list.

(** An object literal [{}] with string keys: its own properties in the order
    they were created, keys pairwise distinct. *)
Definition JsObject (A : Type) : Type := list (string * A).

Fixpoint own {A : Type} (o : JsObject A) (k : string) : option A :=
  match o with
  | [] => None
  | (k', v) :: rest => if String.eqb k' k then Some v else own rest k
  end.

(** The properties every plain object inherits from [Object.prototype]. *)
Definition Object_prototype_keys : list string :=
  [ "constructor"; "__defineGetter__"; "__defineSetter__"; "hasOwnProperty";
    "__lookupGetter__"; "__lookupSetter__"; "isPrototypeOf";
    "propertyIsEnumerable"; "toString"; "valueOf"; "__proto__";
    "toLocaleString" ].

Definition inherited (k : string) : bool :=
  existsb (String.eqb k) Object_prototype_keys.

Fixpoint overwrite {A : Type} (o : JsObject A) (k : string) (v : A) : JsObject A :=
  match o with
  | [] => []
  | (k', v') :: rest =>
      if String.eqb k' k then (k', v) :: rest else (k', v') :: overwrite rest k v
  end.

(** [o[k] = v]: an own property keeps its place, a new one goes last, and the
    [__proto__] accessor creates no own property. *)
Definition obj_set {A : Type} (o : JsObject A) (k : string) (v : A) : JsObject A :=
  if String.eqb k "__proto__" then o
  else match own o k with
       | Some _ => overwrite o k v
       | None => push o (k, v)
       end.

Definition string_of_N (n : N) : string :=
  NilEmpty.string_of_uint (N.to_uint n).

(** An array index: the canonical decimal of an integer below 2^32 - 1. *)
Definition array_index (k : string) : option N :=
  match read_digits 10 k 0%N 0 with
  | (n, S _, EmptyString) =>
      if String.eqb (string_of_N n) k && (n <? 4294967295)%N then Some n else None
  | _ => None
  end.

Fixpoint insert_by_index {A : Type} (i : N) (x : A) (l : list (N * A)) : list (N * A) :=
  match l with
  | [] => [(i, x)]
  | (j, y) :: rest =>
      if (i <? j)%N then (i, x) :: l else (j, y) :: insert_by_index i x rest
  end.

Fixpoint index_props {A : Type} (o : JsObject A) : list (N * (string * A)) :=
  match o with
  | [] => []
  | (k, v) :: rest =>
      match array_index k with
      | Some i => insert_by_index i (k, v) (index_props rest)
      | None => index_props rest
      end
  end.

Definition named_props {A : Type} (o : JsObject A) : JsObject A :=
  filter (fun kv => match array_index (fst kv) with Some _ => false | None => true end) o.

(** [Object.entries(o)]: array indices in ascending order, then the other
    keys in creation order (OrdinaryOwnPropertyKeys). *)
Definition Object_entries {A : Type} (o : JsObject A) : list (string * A) :=
  (map snd (index_props o) ++ named_props o)%list.

Definition Object_keys {A : Type} (o : JsObject A) : list string :=
  map fst (Object_entries o).

Fixpoint chars_from (i : nat) (s : string) : list (string * JsVal) :=
  match s with
  | EmptyString => []
  | String c r => (string_of_nat i, VString (String c EmptyString)) :: chars_from (S i) r
  end.

Fixpoint items_from (i : nat) (l : list JsVal) : list (string * JsVal) :=
  match l with
  | [] => []
  | v :: r => (string_of_nat i, v) :: items_from (S i) r
  end.

(** [Object.entries(v)] for any value: [null] and [undefined] have no
    properties to list and throw; a string lists its characters (exact on
    ASCII text, one entry per byte here), an array its items. *)
Definition entries_of (v : JsVal) : Result (list (string * JsVal)) :=
  match v with
  | VUndefined | VNull =>
      Raise (Throw TypeError "Cannot convert undefined or null to object")
  | VBool _ | VNumber _ => Ok []
  | VString s => Ok (chars_from 0 s)
  | VArray l => Ok (items_from 0 l)
  | VObject o => Ok (Object_entries o)
  end.

(** [v.k] for a key [k] that no built-in prototype defines, which is the case
    of every key the parser reads: [undefined] unless [v] is an object owning
    [k]; reading a property of [null] or [undefined] throws. *)
Definition get (v : JsVal) (k : string) : Result JsVal :=
  match v with
  | VUndefined =>
      Raise (Throw TypeError ("Cannot read properties of undefined (reading '" ++ k ++ "')"))
  | VNull =>
      Raise (Throw TypeError ("Cannot read properties of null (reading '" ++ k ++ "')"))
  | VObject o => Ok (match own o k with Some x => x | None => VUndefined end)
  | _ => Ok VUndefined
  end.

Section Conversions.

(** [Number.prototype.toString], given by the platform. *)
Variable number_to_string : JsNumber -> string.

(** ToString, as a template literal and [String(v)] apply it. *)
Fixpoint ToString (v : JsVal) : string :=
  match v with
  | VUndefined => "undefined"
  | VNull => "null"
  | VBool true => "true"
  | VBool false => "false"
  | VNumber n => number_to_string n
  | VString s => s
  | VArray l =>
      join ","
        (map (fun x => match x with
                       | VUndefined | VNull => EmptyString
                       | _ => ToString x
                       end) l)
  | VObject _ => "[object Object]"
  end.

End Conversions.

(* ================================================================== *)
(** * Data model (src/types/index.ts) *)
(* ================================================================== *)

Inductive DecisionTableFormat : Type := csv | json | markdown.

(** [TestCase]. [description] and [tags] are optional in the type. *)
Record TestCase : Type := {
  tc_id : string;
  tc_name : string;
  tc_description : option string;
  tc_conditions : JsObject JsVal;
  tc_actions : list string;
  tc_expected_results : list string;
  tc_priority : string;
  tc_tags : option (list string)
}.

Record Metadata : Type := {
  md_source : string;
  md_format : DecisionTableFormat;
  md_row_count : option nat
}.

Record DecisionTable : Type := {
  feature : string;
  description : option string;
  test_cases : list TestCase;
  metadata : Metadata
}.

(** A row of the CSV reader or of a Markdown table: header to cell text. *)
Definition Row : Type := JsObject string.

(** The block tokens of [marked.lexer] the parser looks at. *)
Inductive Token : Type :=
  | heading (depth : nat) (text : string)
  | paragraph (text : string)
  | table (header : list string) (rows : list (list string))
  | other_token (type : string).

(** What [parseJSON] builds from a document in the rules shape: every field
    is whatever value the document holds. *)
Record RuleCase : Type := {
  rc_id : JsVal;
  rc_name : JsVal;
  rc_description : JsVal;
  rc_conditions : JsVal;
  rc_actions : JsVal;
  rc_expected_results : JsVal;
  rc_priority : JsVal;
  rc_tags : JsVal
}.

Record RulesTable : Type := {
  rt_feature : JsVal;
  rt_description : JsVal;
  rt_test_cases : list RuleCase;
  rt_source : string;
  rt_format : DecisionTableFormat
}.

(** The value [parse] resolves to. *)
Inductive Parsed : Type :=
  | Assembled (t : DecisionTable)
  | AsIs (document : JsVal)
  | FromRules (t : RulesTable).

(* ================================================================== *)
(** * The platform *)
(* ================================================================== *)

Record Platform : Type := {
  (** [fs.readFile(path, 'utf-8')] *)
  readFile : string -> Result string;
  (** [Papa.parse(content, { header: true, skipEmptyLines: true })]: the rows
      handed to [complete], or the error handed to [error] *)
  Papa_parse : string -> Result (list Row);
  JSON_parse : string -> Result JsVal;
  marked_lexer : string -> list Token;
  path_extname : string -> string;
  path_basename : string -> string -> string;
  path_join : string -> string -> string;
  number_to_string : JsNumber -> string;
  (** [JSON.stringify(v, null, indent)] *)
  JSON_stringify : JsVal -> nat -> string;
  (** The file system a generation writes to. *)
  World : Type;
  (** [fs.mkdir(path, { recursive: true })] *)
  mkdir : World -> string -> World * option Exn;
  (** [fs.writeFile(path, content, 'utf-8')] *)
  writeFile : World -> string -> string -> World * option Exn
}.

(* ================================================================== *)
(** * DecisionTableParser *)
(* ================================================================== *)

(** [row[k]] read through a truthiness test: an absent key and an empty cell
    both give way to the alternative. *)
Definition cell_or (row : Row) (k : string) (alternative : string) : string :=
  match own row k with
  | Some v => str_or v alternative
  | None => alternative
  end.

Definition specialColumns : list string :=
  [ "id"; "test id"; "test_id"; "name"; "test name"; "test_name";
    "description"; "action"; "actions"; "expected result"; "expected_result";
    "expected"; "priority"; "tags" ].

Definition is_special (k : string) : bool :=
  existsb (String.eqb k) specialColumns.

(** The separator of the template literal in [generateTestName], byte for
    byte as the source file holds it between its two spaces:
    C3 A2, E2 80 A0, E2 80 99. *)
Definition arrow : string :=
  " " ++ (String (ascii_of_nat 195) (String (ascii_of_nat 162)
           (String (ascii_of_nat 226) (String (ascii_of_nat 128) (String (ascii_of_nat 160)
           (String (ascii_of_nat 226) (String (ascii_of_nat 128) (String (ascii_of_nat 153)
            EmptyString)))))))) ++ " ".

(** [`TC${String(index + 1).padStart(3, '0')}`] *)
Definition auto_id (index : nat) : string :=
  "TC" ++ padStart 3 "0" (string_of_nat (index + 1)).

(** Parse a value to appropriate type *)
Definition parseValue (value : string) : JsVal :=
  if String.eqb value "true" then VBool true
  else if String.eqb value "false" then VBool false
  else if String.eqb value "null" then VNull
  else if String.eqb value "undefined" then VUndefined
  else if negb (isNaN (StringToNumber value)) && negb (String.eqb (trim value) "")
       then VNumber (StringToNumber value)
  else VString value.

(** [s.replace(/\b\w/g, (char) => char.toUpperCase())]: a word character is
    at a boundary when no word character precedes it. *)
Fixpoint capitalize_words (after_word : bool) (s : string) : string :=
  match s with
  | EmptyString => EmptyString
  | String c r =>
      String (if is_word c && negb after_word then upper_char c else c)
             (capitalize_words (is_word c) r)
  end.

Section Parser.

Variable P : Platform.

(** Generate test name from conditions and expected results.
    [summary] is the body once [Object.entries] has answered. *)
Definition summary (entries : list (string * JsVal)) : string :=
  join ", "
    (map (fun kv => fst kv ++ ": " ++ ToString (number_to_string P) (snd kv))
         (firstn 2 entries)).

Definition name_from (entries : list (string * JsVal)) (expected : JsVal) : string :=
  if truthy expected
  then summary entries ++ arrow ++ ToString (number_to_string P) expected
  else summary entries.

Definition generateTestName (conditions expected : JsVal) : Result string :=
  entries <- entries_of conditions ;;
  Ok (name_from entries expected).

(** Extract feature name from file path *)
Definition extractFeatureName (filePath : string) : string :=
  let fileName := path_basename P filePath (path_extname P filePath) in
  capitalize_words false
    (replace_char "-" " "
       (replace_char "_" " "
          (strip_suffix "-decision-table" fileName))).

(** Detect format from file extension *)
Definition detectFormat (filePath : string) : Result DecisionTableFormat :=
  let ext := toLowerCase (path_extname P filePath) in
  if String.eqb ext ".csv" then Ok csv
  else if String.eqb ext ".json" then Ok json
  else if String.eqb ext ".md" || String.eqb ext ".markdown" then Ok markdown
  else Raise (Throw PlainError ("Cannot detect format from extension: " ++ ext)).

Definition split_trim (s : string) : list string :=
  map trim (split_on "," s).

(** The row as [generateTestName] receives it: an object of strings. *)
Definition row_value (row : Row) : JsObject JsVal :=
  map (fun kv => (fst kv, VString (snd kv))) row.

Definition add_condition (row : Row) (conditions : JsObject JsVal) (key : string)
  : JsObject JsVal :=
  let normalizedKey := trim (toLowerCase key) in
  match own row key with
  | Some v =>
      if negb (is_special normalizedKey) && nonempty v
      then obj_set conditions key (parseValue v)
      else conditions
  | None => conditions
  end.

(** Convert a single row to a test case *)
Definition convertRowToTestCase (row : Row) (index : nat) : TestCase :=
  let id := cell_or row "id" (cell_or row "test id" (cell_or row "test_id" (auto_id index))) in
  let expectedResult :=
    cell_or row "expected result" (cell_or row "expected_result" (cell_or row "expected" "")) in
  let name :=
    cell_or row "name" (cell_or row "test name" (cell_or row "test_name"
      (name_from (Object_entries (row_value row)) (VString expectedResult)))) in
  let description := cell_or row "description" "" in
  let priority :=
    match own row "priority" with
    | Some p => str_or (toLowerCase p) "medium"
    | None => "medium"
    end in
  let tags :=
    match own row "tags" with
    | Some t => if nonempty t then split_trim t else []
    | None => []
    end in
  let actions := cell_or row "action" (cell_or row "actions" "") in
  let actionsList := filter nonempty (split_trim actions) in
  let expected :=
    cell_or row "expected result" (cell_or row "expected_result" (cell_or row "expected" "")) in
  let expectedList := filter nonempty (split_trim expected) in
  let conditions := fold_left (add_condition row) (Object_keys row) [] in
  {| tc_id := id;
     tc_name := name;
     tc_description := Some description;
     tc_conditions := conditions;
     tc_actions := actionsList;
     tc_expected_results := expectedList;
     tc_priority := priority;
     tc_tags := Some tags |}.

(** [rows.map((row, index) => f(row, index))], the index starting at [from]. *)
Fixpoint mapi_from {A B : Type} (f : A -> nat -> B) (from : nat) (l : list A) : list B :=
  match l with
  | [] => []
  | x :: r => f x from :: mapi_from f (S from) r
  end.

(** Convert CSV/Table rows to test cases *)
Definition convertRowsToTestCases (rows : list Row) : list TestCase :=
  mapi_from convertRowToTestCase 0 rows.

(** [headers.forEach((header, i) => rowData[header] = row[i]?.text || '')] *)
Fixpoint fill_row (headers : list string) (i : nat) (cells : list string) (rowData : Row)
  : Row :=
  match headers with
  | [] => rowData
  | header :: rest =>
      fill_row rest (S i) cells
        (obj_set rowData header
           (match nth_error cells i with Some text => text | None => EmptyString end))
  end.

(** Parse markdown table token into test cases *)
Definition parseMarkdownTable (header : list string) (rows : list (list string))
  : list TestCase :=
  let headers := map (fun h => trim (toLowerCase h)) header in
  mapi_from (fun cells index => convertRowToTestCase (fill_row headers 0 cells []) index)
    0 rows.

(** The three variables of the loop of [parseMarkdown]. *)
Record MdState : Type := {
  featureName : string;
  md_description : option string;
  testCases : list TestCase
}.

Definition md_step (st : MdState) (token : Token) : MdState :=
  match token with
  | heading depth text =>
      if (depth =? 1)%nat && negb (nonempty (featureName st))
      then {| featureName := text;
              md_description := md_description st;
              testCases := testCases st |}
      else st
  | paragraph text =>
      match md_description st with
      | Some (String _ _) => st
      | _ => {| featureName := featureName st;
                md_description := Some text;
                testCases := testCases st |}
      end
  | table header rows =>
      {| featureName := featureName st;
         md_description := md_description st;
         testCases := (testCases st ++ parseMarkdownTable header rows)%list |}
  | other_token _ => st
  end.

(** Parse Markdown format decision table *)
Definition parseMarkdown (content filePath : string) : DecisionTable :=
  let tokens := marked_lexer P content in
  let st := fold_left md_step tokens
              {| featureName := extractFeatureName filePath;
                 md_description := None;
                 testCases := [] |} in
  {| feature := featureName st;
     description := md_description st;
     test_cases := testCases st;
     metadata := {| md_source := filePath; md_format := markdown; md_row_count := None |} |}.

(** Parse CSV format decision table *)
Definition parseCSV (content filePath : string) : Result DecisionTable :=
  rows <- Papa_parse P content ;;
  Ok {| feature := extractFeatureName filePath;
        description := None;
        test_cases := convertRowsToTestCases rows;
        metadata := {| md_source := filePath;
                       md_format := csv;
                       md_row_count := Some (List.length rows) |} |}.

(** One call of the arrow function that [data.rules.map] applies. *)
Definition convertRule (rule : JsVal) (index : nat) : Result RuleCase :=
  id <- get rule "id" ;;
  name <- get rule "name" ;;
  name' <- (if truthy name then Ok name
            else conditions <- get rule "conditions" ;;
                 expected <- get rule "expected" ;;
                 generated <- generateTestName conditions expected ;;
                 Ok (VString generated)) ;;
  description <- get rule "description" ;;
  conditions <- get rule "conditions" ;;
  actions <- get rule "actions" ;;
  expected <- get rule "expected" ;;
  priority <- get rule "priority" ;;
  tags <- get rule "tags" ;;
  Ok {| rc_id := js_or id (VString (auto_id index));
        rc_name := name';
        rc_description := description;
        rc_conditions := conditions;
        rc_actions := js_or actions (VArray []);
        rc_expected_results := js_or expected (VArray []);
        rc_priority := js_or priority (VString "medium");
        rc_tags := js_or tags (VArray []) |}.

Fixpoint convertRules (rules : list JsVal) (index : nat) : Result (list RuleCase) :=
  match rules with
  | [] => Ok []
  | rule :: rest =>
      tc <- convertRule rule index ;;
      tcs <- convertRules rest (S index) ;;
      Ok (tc :: tcs)
  end.

Definition invalid_json_message : string :=
  "Invalid JSON format. Expected " ++ String (ascii_of_nat 34) "feature"
    ++ String (ascii_of_nat 34) " and " ++ String (ascii_of_nat 34) "test_cases"
    ++ String (ascii_of_nat 34) " or " ++ String (ascii_of_nat 34) "rules"
    ++ String (ascii_of_nat 34) "".

(** Parse JSON format decision table *)
Definition parseJSON (content filePath : string) : Result Parsed :=
  data <- JSON_parse P content ;;
  feature1 <- get data "feature" ;;
  shape1 <- (if truthy feature1 then get data "test_cases" else Ok feature1) ;;
  if truthy shape1 then Ok (AsIs data)
  else
    feature2 <- get data "feature" ;;
    shape2 <- (if truthy feature2 then get data "rules" else Ok feature2) ;;
    if truthy shape2 then
      match shape2 with
      | VArray rules =>
          testCases <- convertRules rules 0 ;;
          dataDescription <- get data "description" ;;
          Ok (FromRules {| rt_feature := feature2;
                           rt_description := dataDescription;
                           rt_test_cases := testCases;
                           rt_source := filePath;
                           rt_format := json |})
      | _ => Raise (Throw TypeError "data.rules.map is not a function")
      end
    else Raise (Throw PlainError invalid_json_message).

(** Parse decision table from file *)
Definition parse (tablePath : string) (format : option DecisionTableFormat)
  : Result Parsed :=
  fileContent <- readFile P tablePath ;;
  detectedFormat <- (match format with
                     | Some f => Ok f
                     | None => detectFormat tablePath
                     end) ;;
  match detectedFormat with
  | csv => t <- parseCSV fileContent tablePath ;; Ok (Assembled t)
  | json => parseJSON fileContent tablePath
  | markdown => Ok (Assembled (parseMarkdown fileContent tablePath))
  end.

End Parser.

(* ================================================================== *)
(** * TestCodeGenerator: data *)
(* ================================================================== *)

Record WebStep : Type := {
  action : string;
  selector : option string;
  target : option string;
  value : JsVal;
  ws_description : string
}.

Record ApiStep : Type := {
  method : string;
  endpoint : string;
  headers : option (JsObject string);
  body : JsVal;
  expected_status : option JsNumber;
  expected_body : JsVal;
  as_description : string;
  save_response : option string
}.

Inductive Step : Type :=
  | web_step (s : WebStep)
  | api_step (s : ApiStep).

Inductive StepsType : Type := web | api_type.

Record TestSteps : Type := {
  test_case_id : string;
  type : StepsType;
  steps : list Step
}.

Inductive TestFramework : Type := playwright | api | both.

Inductive Language : Type := typescript | javascript.

Inductive Style : Type := standard | page_object | screenplay.

Record TestCodeGenerationRequest : Type := {
  req_test_cases : list TestCase;
  req_steps : list TestSteps;
  req_framework : TestFramework;
  output_path : string;
  language : option Language;
  style : option Style
}.

Record GeneratedFile : Type := {
  path : string;
  content : string;
  test_count : nat;
  gf_framework : TestFramework
}.

Record TestCodeGenerationResult : Type := {
  files_generated : list GeneratedFile;
  total_tests : nat;
  success : bool;
  errors : option (list string)
}.

(** A test case joined with its steps: [{ testCase, steps }]. *)
Definition Joined : Type := (TestCase * TestSteps)%type.

(** [`${x}`] for an optional string. *)
Definition shown (x : option string) : string :=
  match x with Some s => s | None => "undefined" end.

(** [(steps.steps as WebStep[])]: the cast changes nothing at run time, so a
    step of the other variant answers [undefined] for every field it lacks.
    An [action] that is [undefined] falls to the [default] branch and is
    printed as the text undefined, as the string of that name is. *)
Definition as_WebStep (s : Step) : WebStep :=
  match s with
  | web_step w => w
  | api_step a =>
      {| action := "undefined"; selector := None; target := None;
         value := VUndefined; ws_description := as_description a |}
  end.

(** What the API renderer reads from a step: each field, or [None] where the
    object has no such field. *)
Record ApiView : Type := {
  v_method : option string;
  v_endpoint : option string;
  v_headers : option (JsObject string);
  v_body : JsVal;
  v_expected_status : option JsNumber;
  v_expected_body : JsVal;
  v_description : string;
  v_save_response : option string
}.

Definition as_ApiStep (s : Step) : ApiView :=
  match s with
  | api_step a =>
      {| v_method := Some (method a); v_endpoint := Some (endpoint a);
         v_headers := headers a; v_body := body a;
         v_expected_status := expected_status a;
         v_expected_body := expected_body a;
         v_description := as_description a;
         v_save_response := save_response a |}
  | web_step w =>
      {| v_method := None; v_endpoint := None; v_headers := None;
         v_body := VUndefined; v_expected_status := None;
         v_expected_body := VUndefined;
         v_description := ws_description w;
         v_save_response := None |}
  end.

Definition nl : string := String LF EmptyString.

(** Escape string for code generation:
    each single quote becomes a backslash and the quote, then each line feed
    becomes a backslash and the letter n. *)
Definition escapeString (str : string) : string :=
  replace_char LF (String backslash "n")
    (replace_char quote (String backslash (String quote EmptyString)) str).

Definition is_lower_alnum (c : ascii) : bool := is_lower c || is_digit c.

(** [s.replace(/[^a-z0-9]+/g, '-')] *)
Fixpoint collapse_runs (in_run : bool) (s : string) : string :=
  match s with
  | EmptyString => EmptyString
  | String c r =>
      if is_lower_alnum c then String c (collapse_runs false r)
      else if in_run then collapse_runs true r
      else String "-" (collapse_runs true r)
  end.

Definition drop_leading_hyphen (s : string) : string :=
  match s with
  | String "-" r => r
  | _ => s
  end.

(** [s.replace(/^-|-$/g, '')] *)
Definition strip_hyphens (s : string) : string :=
  string_rev (drop_leading_hyphen (string_rev (drop_leading_hyphen s))).

(** Sanitize file name *)
Definition sanitizeFileName (name : string) : string :=
  strip_hyphens (collapse_runs false (toLowerCase name)).

(** [steps.find((s) => s.test_case_id === id)] *)
Definition find_steps (all : list TestSteps) (id : string) : option TestSteps :=
  find (fun s => String.eqb (test_case_id s) id) all.

(** [testCase.tags?.[0] || 'general'] *)
Definition group_name (tc : TestCase) : string :=
  match tc_tags tc with
  | Some (t :: _) => str_or t "general"
  | _ => "general"
  end.

(** The body of the loop of [groupTestCases]. A group name that
    [Object.prototype] defines reads as a value that is truthy and has no
    [push]. *)
Definition group_step (all : list TestSteps) (groups : JsObject (list Joined))
    (testCase : TestCase) : Result (JsObject (list Joined)) :=
  match find_steps all (tc_id testCase) with
  | None => Ok groups
  | Some testSteps =>
      let groupName := group_name testCase in
      match own groups groupName with
      | Some bucket =>
          Ok (overwrite groups groupName (push bucket (testCase, testSteps)))
      | None =>
          if inherited groupName
          then Raise (Throw TypeError "groups[groupName].push is not a function")
          else Ok (obj_set groups groupName [(testCase, testSteps)])
      end
  end.

(** Group test cases by feature or logical grouping *)
Fixpoint group_loop (all : list TestSteps) (testCases : list TestCase)
    (groups : JsObject (list Joined)) : Result (JsObject (list Joined)) :=
  match testCases with
  | [] => Ok groups
  | testCase :: rest =>
      groups' <- group_step all groups testCase ;;
      group_loop all rest groups'
  end.

Definition groupTestCases (testCases : list TestCase) (all : list TestSteps)
  : Result (JsObject (list Joined)) :=
  group_loop all testCases [].

(* ================================================================== *)
(** * TestCodeGenerator: rendering and writing *)
(* ================================================================== *)

Section Generator.

Variable P : Platform.

Let str (v : JsVal) : string := ToString (number_to_string P) v.

(** Generate a single Playwright step *)
Definition generatePlaywrightStep (step : WebStep) (index : nat) : string :=
  let comment := "// " ++ ws_description step in
  let line (statement : string) := comment ++ nl ++ "    " ++ statement in
  let sel := shown (selector step) in
  let act := action step in
  if String.eqb act "navigate" then
    line ("await page.goto('" ++ shown (target step) ++ "');")
  else if String.eqb act "click" then
    line ("await page.click('" ++ sel ++ "');")
  else if String.eqb act "fill" then
    line ("await page.fill('" ++ sel ++ "', '" ++ escapeString (str (value step)) ++ "');")
  else if String.eqb act "select" then
    line ("await page.selectOption('" ++ sel ++ "', '"
            ++ escapeString (str (value step)) ++ "');")
  else if String.eqb act "check" then
    line ("await page.check('" ++ sel ++ "');")
  else if String.eqb act "uncheck" then
    line ("await page.uncheck('" ++ sel ++ "');")
  else if String.eqb act "wait" then
    match selector step with
    | Some (String _ _) =>
        line ("await page.waitForSelector('" ++ sel ++ "', { state: 'visible' });")
    | _ =>
        if truthy (value step)
        then line ("await page.waitForTimeout(" ++ str (value step) ++ ");")
        else line "await page.waitForLoadState('domcontentloaded');"
    end
  else if String.eqb act "assert" then
    match value step with
    | VUndefined =>
        line ("await expect(page.locator('" ++ sel ++ "')).toBeVisible();")
    | v =>
        line ("await expect(page.locator('" ++ sel ++ "')).toContainText('"
                ++ escapeString (str v) ++ "');")
    end
  else if String.eqb act "screenshot" then
    line ("await page.screenshot({ path: 'screenshots/step-"
            ++ string_of_nat (index + 1) ++ ".png' });")
  else
    line ("// TODO: Implement " ++ act).

(** [testCase.description || testCase.name] *)
Definition case_comment (testCase : TestCase) : string :=
  match tc_description testCase with
  | Some d => str_or d (tc_name testCase)
  | None => tc_name testCase
  end.

(** Generate a single Playwright test case *)
Definition generatePlaywrightTestCase (test : Joined) : string :=
  let '(testCase, steps_) := test in
  let testName := escapeString (tc_name testCase) in
  let testSteps :=
    join (nl ++ "    ")
      (mapi_from (fun step index => generatePlaywrightStep (as_WebStep step) index)
         0 (steps steps_)) in
  "  test('" ++ testName ++ "', async ({ page }) => {" ++ nl
    ++ "    // " ++ case_comment testCase ++ nl
    ++ testSteps ++ nl
    ++ "  });".

Definition imports : string :=
  "import { test, expect } from '@playwright/test';" ++ nl ++ nl.

(** Generate Playwright test code *)
Definition generatePlaywrightTest (groupName : string) (tests : list Joined)
    (_language : Language) : string :=
  let testSuite :=
    "test.describe('" ++ escapeString groupName ++ "', () => {" ++ nl
      ++ join (nl ++ nl) (map generatePlaywrightTestCase tests) ++ nl
      ++ "});" ++ nl in
  imports ++ testSuite.

Definition indent_lines (pad : string) (s : string) : string :=
  replace_char LF (nl ++ pad) s.

Definition headers_value (h : JsObject string) : JsVal :=
  VObject (map (fun kv => (fst kv, VString (snd kv))) h).

(** Generate a single API step *)
Definition generateApiStep (step : ApiView) : string :=
  let comment := "// " ++ v_description step in
  let requestOptions0 := "{" ++ nl ++ "      method: '" ++ shown (v_method step) ++ "'," in
  let requestOptions1 :=
    match v_headers step with
    | Some (_ :: _ as h) =>
        requestOptions0 ++ nl ++ "      headers: "
          ++ indent_lines "      " (JSON_stringify P (headers_value h) 6) ++ ","
    | _ => requestOptions0
    end in
  let requestOptions2 :=
    if truthy (v_body step)
    then requestOptions1 ++ nl ++ "      data: "
           ++ indent_lines "      " (JSON_stringify P (v_body step) 6) ++ ","
    else requestOptions1 in
  let requestOptions := requestOptions2 ++ nl ++ "    }" in
  let status :=
    match v_expected_status step with
    | Some n => if truthy (VNumber n) then number_to_string P n else "200"
    | None => "200"
    end in
  let code0 :=
    comment ++ nl
      ++ "    const response = await request.fetch('" ++ shown (v_endpoint step) ++ "', "
      ++ requestOptions ++ ");" ++ nl
      ++ "    expect(response.status()).toBe(" ++ status ++ ");" in
  let code1 :=
    match v_save_response step with
    | Some (String _ _ as name) =>
        code0 ++ nl ++ "    const " ++ name ++ " = await response.json();"
          ++ nl ++ "    savedResponses['" ++ name ++ "'] = " ++ name ++ ";"
    | _ => code0
    end in
  if truthy (v_expected_body step)
  then code1 ++ nl ++ "    const body = await response.json();"
         ++ nl ++ "    expect(body).toMatchObject("
         ++ indent_lines "    " (JSON_stringify P (v_expected_body step) 2) ++ ");"
  else code1.

(** Generate a single API test case *)
Definition generateApiTestCase (test : Joined) : string :=
  let '(testCase, steps_) := test in
  let testName := escapeString (tc_name testCase) in
  let testSteps :=
    join (nl ++ nl ++ "    ")
      (map (fun step => generateApiStep (as_ApiStep step)) (steps steps_)) in
  "  test('" ++ testName ++ "', async ({ request }) => {" ++ nl
    ++ "    // " ++ case_comment testCase ++ nl
    ++ "    " ++ testSteps ++ nl
    ++ "  });".

Definition setupCode : string :=
  "let savedResponses: Record<string, any> = {};" ++ nl ++ nl.

(** Generate API test code *)
Definition generateApiTest (groupName : string) (tests : list Joined)
    (_language : Language) : string :=
  let testSuite :=
    "test.describe('" ++ escapeString groupName ++ " API', () => {" ++ nl
      ++ join (nl ++ nl) (map generateApiTestCase tests) ++ nl
      ++ "});" ++ nl in
  imports ++ setupCode ++ testSuite.

Definition render (groupName : string) (tests : list Joined)
    (framework : TestFramework) (lang : Language) : string :=
  match framework with
  | playwright | both => generatePlaywrightTest groupName tests lang
  | api => generateApiTest groupName tests lang
  end.

Definition file_name (groupName : string) (lang : Language) : string :=
  sanitizeFileName groupName ++ ".spec."
    ++ match lang with typescript => "ts" | javascript => "js" end.

(** Generate a test file *)
Definition generateTestFile (w : World P) (groupName : string) (tests : list Joined)
    (framework : TestFramework) (lang : Language) (_style : Style)
    (outputPath : string) : World P * Result GeneratedFile :=
  let content := render groupName tests framework lang in
  let filePath := path_join P outputPath (file_name groupName lang) in
  match writeFile P w filePath content with
  | (w', Some e) => (w', Raise e)
  | (w', None) =>
      (w', Ok {| path := filePath;
                 content := content;
                 test_count := List.length tests;
                 gf_framework := framework |})
  end.

(** The state of the loop over the groups: the world and the two arrays. *)
Record LoopState : Type := {
  world : World P;
  generatedFiles : list GeneratedFile;
  errors_ : list string
}.

Definition language_or_default (request : TestCodeGenerationRequest) : Language :=
  match language request with Some l => l | None => typescript end.

Definition style_or_default (request : TestCodeGenerationRequest) : Style :=
  match style request with Some s => s | None => standard end.

Definition generate_step (request : TestCodeGenerationRequest) (st : LoopState)
    (entry : string * list Joined) : LoopState :=
  let '(groupName, tests) := entry in
  match generateTestFile (world st) groupName tests (req_framework request)
          (language_or_default request) (style_or_default request)
          (output_path request) with
  | (w', Ok file) =>
      {| world := w';
         generatedFiles := push (generatedFiles st) file;
         errors_ := errors_ st |}
  | (w', Raise e) =>
      {| world := w';
         generatedFiles := generatedFiles st;
         errors_ := push (errors_ st)
                      ("Failed to generate " ++ groupName ++ ": " ++ message e) |}
  end.

(** The result of the outer [catch]. *)
Definition failed (e : Exn) : TestCodeGenerationResult :=
  {| files_generated := [];
     total_tests := 0;
     success := false;
     errors := Some [message e] |}.

(** Generate test code *)
Definition generate (w : World P) (request : TestCodeGenerationRequest)
  : World P * TestCodeGenerationResult :=
  match mkdir P w (output_path request) with
  | (w1, Some e) => (w1, failed e)
  | (w1, None) =>
      match groupTestCases (req_test_cases request) (req_steps request) with
      | Raise e => (w1, failed e)
      | Ok groupedTests =>
          let st := fold_left (generate_step request) (Object_entries groupedTests)
                      {| world := w1; generatedFiles := []; errors_ := [] |} in
          (world st,
           {| files_generated := generatedFiles st;
              total_tests := List.length (req_test_cases request);
              success := match errors_ st with [] => true | _ => false end;
              errors := match errors_ st with [] => None | es => Some es end |})
      end
  end.

End Generator.

(* ================================================================== *)
(** * A platform to run examples on *)
(* ================================================================== *)

(** POSIX [path] on paths that are already normalised, a file system that
    holds one document under every path and refuses a given list of
    directories and files, and readers that answer with values fixed
    beforehand. *)

Fixpoint drop_slashes (s : string) : string :=
  match s with
  | String "/" r => drop_slashes r
  | _ => s
  end.

Fixpoint until_slash (s : string) : string :=
  match s with
  | EmptyString => EmptyString
  | String c r => if Ascii.eqb c "/" then EmptyString else String c (until_slash r)
  end.

(** The last segment of a path, trailing slashes apart. *)
Definition posix_name (p : string) : string :=
  string_rev (until_slash (drop_slashes (string_rev p))).

(** Splits a reversed name at its last dot: the extension and, still
    reversed, what precedes it. *)
Fixpoint split_last_dot (rev_name taken : string) : option (string * string) :=
  match rev_name with
  | EmptyString => None
  | String c r =>
      if Ascii.eqb c "." then Some (String c taken, r)
      else split_last_dot r (String c taken)
  end.

Definition posix_extname (p : string) : string :=
  let name := posix_name p in
  match split_last_dot (string_rev name) EmptyString with
  | Some (ext, String _ _) => if String.eqb name ".." then EmptyString else ext
  | _ => EmptyString
  end.

Definition posix_basename (p suffix : string) : string :=
  let name := posix_name p in
  if nonempty suffix && (String.length suffix <=? String.length p)%nat then
    if String.eqb suffix p then EmptyString
    else match ends_with_rev (string_rev suffix) (string_rev name) with
         | Some (String _ _ as r) => string_rev r
         | _ => name
         end
  else name.

Definition posix_join (dir file : string) : string :=
  match dir with
  | EmptyString => file
  | _ => string_rev (drop_slashes (string_rev dir)) ++ "/" ++ file
  end.

(** [Number.prototype.toString] on the integers written without exponent;
    any other number is shown by its mantissa and exponent. *)
Definition plain_number_to_string (n : JsNumber) : string :=
  match n with
  | Finite neg m e =>
      (if neg && negb (N.eqb m 0) then "-" else "")
        ++ string_of_N m
        ++ (if Z.eqb e 0 then ""
            else "e" ++ (if Z.ltb e 0 then "-" else "+") ++ string_of_N (Z.abs_N e))
  | Infinite neg => if neg then "-Infinity" else "Infinity"
  | NaN => "NaN"
  end.

Definition denied (refused : list string) (p : string) : bool :=
  existsb (String.eqb p) refused.

Definition EACCES (operation p : string) : Exn :=
  Throw SystemError ("EACCES: permission denied, " ++ operation ++ " '" ++ p ++ "'").

(** The world is the list of the files written so far, as path and content. *)
Definition example_platform (fileContent : string) (rows : Result (list Row))
    (document : Result JsVal) (tokens : list Token) (refused : list string)
  : Platform :=
  {| readFile := fun _ => Ok fileContent;
     Papa_parse := fun _ => rows;
     JSON_parse := fun _ => document;
     marked_lexer := fun _ => tokens;
     path_extname := posix_extname;
     path_basename := posix_basename;
     path_join := posix_join;
     number_to_string := plain_number_to_string;
     JSON_stringify := fun _ _ => "{}";
     World := list (string * string);
     mkdir := fun w p =>
       (w, if denied refused p then Some (EACCES "mkdir" p) else None);
     writeFile := fun w p text =>
       if denied refused p then (w, Some (EACCES "open" p))
       else (push w (p, text), None) |}.

(* ================================================================== *)
(** * Definitions the properties are stated with *)
(* ================================================================== *)

(** What [escapeString] writes for one character. *)
Definition escaped_char (c : ascii) : string :=
  if Ascii.eqb c quote then String backslash (String quote EmptyString)
  else if Ascii.eqb c LF then String backslash "n"
  else String c EmptyString.

Fixpoint escape_each (s : string) : string :=
  match s with
  | EmptyString => EmptyString
  | String c r => escaped_char c ++ escape_each r
  end.

Fixpoint occurs (c : ascii) (s : string) : bool :=
  match s with
  | EmptyString => false
  | String a r => Ascii.eqb a c || occurs c r
  end.

(** The click statement as it would read if every text the renderer embeds
    went through [escapeString]. *)
Definition click_all_escaped (step : WebStep) : string :=
  "// " ++ escapeString (ws_description step) ++ nl
    ++ "    await page.click('" ++ escapeString (shown (selector step)) ++ "');".

Definition has_upper (s : string) : bool :=
  (fix go (s : string) : bool :=
     match s with
     | EmptyString => false
     | String c r => is_upper c || go r
     end) s.

(** The platform of the examples that read no file. *)
Definition bare_platform : Platform :=
  example_platform "" (Ok []) (Ok VNull) [] [].

(** A click step whose selector holds single quotes and whose description
    holds single quotes and a line feed. *)
Definition click_save : WebStep :=
  {| action := "click";
     selector := Some "[name='q']";
     target := None;
     value := VUndefined;
     ws_description := "Click 'Save'" ++ nl ++ "twice" |}.

Definition fill_quote : WebStep :=
  {| action := "fill"; selector := Some "#note"; target := None;
     value := VString "it's"; ws_description := "Type" |}.

(** The four words [parseValue] turns into a constant. *)
Definition keyword (s : string) : bool :=
  String.eqb s "true" || String.eqb s "false" || String.eqb s "null"
  || String.eqb s "undefined".

(** A string parses fully as a number when it is a numeric literal of
    ECMAScript, white space around it allowed, and is not blank. *)
Definition numeric (s : string) : bool :=
  negb (isNaN (StringToNumber s)) && negb (String.eqb (trim s) "").

Fixpoint all_digits (s : string) : bool :=
  match s with
  | EmptyString => true
  | String c r => is_digit c && all_digits r
  end.


(** The text of the first level-1 heading of a token stream. *)
Fixpoint first_h1 (tokens : list Token) : option string :=
  match tokens with
  | [] => None
  | heading 1 text :: _ => Some text
  | _ :: rest => first_h1 rest
  end.

(** The text of the first level-1 heading whose text is not empty. *)
Fixpoint first_titled_h1 (tokens : list Token) : option string :=
  match tokens with
  | [] => None
  | heading 1 (String _ _ as text) :: _ => Some text
  | _ :: rest => first_titled_h1 rest
  end.

(** The document of the Markdown test of the repository
    (tests/parsers/decision-table-parser.test.ts), as block tokens. *)
Definition login_tokens : list Token :=
  [ heading 1 "Login Feature";
    other_token "space";
    paragraph "User login functionality";
    other_token "space";
    table ["ID"; "Name"; "Email"; "Expected"]
          [ ["TC001"; "Valid Login"; "test@example.com"; "Dashboard"];
            ["TC002"; "Invalid"; "invalid@test.com"; "Error"] ] ].

Definition markdown_platform (tokens : list Token) : Platform :=
  example_platform "" (Ok []) (Ok VNull) tokens [].

(** A cell that is absent or empty. *)
Definition blank (row : Row) (k : string) : bool :=
  negb (nonempty (cell_or row k EmptyString)).







Definition id_first_row : Row :=
  [("id", "TC9"); ("email", "a@b.c"); ("role", "admin")].

Definition is_index (k : string) : bool :=
  match array_index k with Some _ => true | None => false end.


(** Reads a decimal numeral back. *)
Definition read_back (s : string) : option nat :=
  option_map Nat.of_uint (NilEmpty.uint_of_string s).


Definition three_rows : list Row :=
  [ [("status", "active"); ("expected", "Dashboard")];
    [("status", "inactive"); ("expected", "Error")];
    [("id", "LOGIN-3"); ("status", "locked"); ("expected", "Error")] ].

Definition csv_platform (rows : list Row) : Platform :=
  example_platform "" (Ok rows) (Ok VNull) [] [].

(** [v.k] when the read cannot throw. *)
Definition prop (v : JsVal) (k : string) : JsVal :=
  match v with
  | VObject o => match own o k with Some x => x | None => VUndefined end
  | _ => VUndefined
  end.

(** Neither [null] nor [undefined]. *)
Definition defined (v : JsVal) : bool :=
  match v with VNull | VUndefined => false | _ => true end.

Definition has_shape_a (data : JsVal) : bool :=
  truthy (prop data "feature") && truthy (prop data "test_cases").

Definition has_shape_b (data : JsVal) : bool :=
  truthy (prop data "feature") && truthy (prop data "rules").

(** A rule the mapping goes through: a value that is not [null], with a name
    or with conditions to make a name from. *)
Definition convertible (rule : JsVal) : bool :=
  defined rule && (truthy (prop rule "name") || defined (prop rule "conditions")).

Fixpoint starts_with (p s : string) : bool :=
  match p, s with
  | EmptyString, _ => true
  | String a p', String b s' => Ascii.eqb a b && starts_with p' s'
  | String _ _, EmptyString => false
  end.

(** [s.includes(p)] *)
Fixpoint includes (p s : string) : bool :=
  starts_with p s
  || match s with
     | EmptyString => false
     | String _ r => includes p r
     end.

Definition json_platform (document : JsVal) : Platform :=
  example_platform "" (Ok []) (Ok document) [] [].

(** The document of Scenario B. *)
Definition payment_rules : JsVal :=
  VObject
    [ ("feature", VString "Payment Processing");
      ("rules",
       VArray
         [ VObject
             [ ("id", VString "PAY001");
               ("conditions", VObject [("amount", VNumber (Finite false 100 0))]);
               ("expected", VArray [VString "Payment successful"]) ] ]) ].

(** A document with both fields of the first shape, the feature empty. *)
Definition empty_feature : JsVal :=
  VObject [ ("feature", VString ""); ("test_cases", VArray []) ].

(** The test case has steps: some [TestSteps] carries its id. *)
Definition matched (all : list TestSteps) (tc : TestCase) : bool :=
  match find_steps all (tc_id tc) with Some _ => true | None => false end.

(** The request without the test cases that have no steps. *)
Definition without_unmatched (request : TestCodeGenerationRequest)
  : TestCodeGenerationRequest :=
  {| req_test_cases := filter (matched (req_steps request)) (req_test_cases request);
     req_steps := req_steps request;
     req_framework := req_framework request;
     output_path := output_path request;
     language := language request;
     style := style request |}.



(** The attempts of a generation, group by group in the order of the loop:
    each is the name of the group and the file, or what [generateTestFile]
    threw. *)
Fixpoint attempts (P : Platform) (request : TestCodeGenerationRequest) (w : World P)
    (entries : list (string * list Joined)) : list (string * Result GeneratedFile) :=
  match entries with
  | [] => []
  | (groupName, tests) :: rest =>
      let '(w', r) :=
        generateTestFile P w groupName tests (req_framework request)
          (language_or_default request) (style_or_default request)
          (output_path request) in
      (groupName, r) :: attempts P request w' rest
  end.

Definition files_of (trace : list (string * Result GeneratedFile)) : list GeneratedFile :=
  flat_map (fun a => match snd a with Ok f => [f] | Raise _ => [] end) trace.

Definition errors_of (trace : list (string * Result GeneratedFile)) : list string :=
  flat_map (fun a => match snd a with
                     | Ok _ => []
                     | Raise e => ["Failed to generate " ++ fst a ++ ": " ++ message e]
                     end) trace.

(** The file is the rendering of one of the groups. *)
Definition from_group (P : Platform) (request : TestCodeGenerationRequest)
    (groups : list (string * list Joined)) (f : GeneratedFile) : Prop :=
  exists groupName tests,
    In (groupName, tests) groups
    /\ content f = render P groupName tests (req_framework request)
                     (language_or_default request)
    /\ test_count f = List.length tests
    /\ path f = path_join P (output_path request)
                  (file_name groupName (language_or_default request))
    /\ gf_framework f = req_framework request.

(** Every test case of every group stands next to the steps found for it. *)
Definition joined_by_id (all : list TestSteps) (groups : JsObject (list Joined)) : Prop :=
  forall groupName tests tc st,
    In (groupName, tests) groups -> In (tc, st) tests ->
    find_steps all (tc_id tc) = Some st.

Definition web_case (id name tag : string) : TestCase :=
  {| tc_id := id; tc_name := name; tc_description := None; tc_conditions := [];
     tc_actions := []; tc_expected_results := []; tc_priority := "medium";
     tc_tags := Some [tag] |}.

Definition visit_steps (id : string) : TestSteps :=
  {| test_case_id := id;
     type := web;
     steps := [ web_step {| action := "navigate"; selector := None;
                            target := Some "http://localhost:3000";
                            value := VUndefined; ws_description := "Nav" |} ] |}.

(** Two groups, a and b, and a third test case, TC003, without steps. *)
Definition two_groups (framework : TestFramework) : TestCodeGenerationRequest :=
  {| req_test_cases := [ web_case "TC001" "First" "a"; web_case "TC002" "Second" "b";
                         web_case "TC003" "Third" "a" ];
     req_steps := [ visit_steps "TC001"; visit_steps "TC002" ];
     req_framework := framework;
     output_path := "out";
     language := None;
     style := None |}.

(** A file system that refuses the given paths. *)
Definition refusing (refused : list string) : Platform :=
  example_platform "" (Ok []) (Ok VNull) [] refused.

(** The cell becomes a condition: its column is not a structural one, the
    cell is not empty and the key is not the [__proto__] accessor. *)
Definition kept_as_condition (k cell : string) : bool :=
  negb (is_special (trim (toLowerCase k))) && nonempty cell
  && negb (String.eqb k "__proto__").

Definition has_key (k : string) (keys : list string) : bool :=
  existsb (String.eqb k) keys.

Fixpoint count_char (c : ascii) (s : string) : nat :=
  match s with
  | EmptyString => 0
  | String a r => (if Ascii.eqb a c then 1 else 0) + count_char c r
  end.

(** The text of the first paragraph whose text is not empty. *)
Fixpoint first_text_paragraph (tokens : list Token) : option string :=
  match tokens with
  | [] => None
  | paragraph (String _ _ as text) :: _ => Some text
  | _ :: rest => first_text_paragraph rest
  end.

Fixpoint has_paragraph (tokens : list Token) : bool :=
  match tokens with
  | [] => false
  | paragraph _ :: _ => true
  | _ :: rest => has_paragraph rest
  end.

(** The headers of a Markdown table as the parser keys the cells. *)
Definition table_keys (header : list string) : list string :=
  map (fun h => trim (toLowerCase h)) header.

(** [row[i]?.text || ''] *)
Definition cell_at (cells : list string) (i : nat) : string :=
  match nth_error cells i with Some text => text | None => EmptyString end.

(** The four extensions [detectFormat] knows. *)
Definition known_extension (ext : string) : bool :=
  String.eqb ext ".csv" || String.eqb ext ".json" || String.eqb ext ".md"
  || String.eqb ext ".markdown".

(** The digits of an automatic id. *)
Definition id_digits (index : nat) : string :=
  padStart 3 "0" (string_of_nat (index + 1)).

(** The characters of a file-name slug: [a-z0-9] and the hyphen. *)
Definition slug_char (c : ascii) : bool := is_lower_alnum c || Ascii.eqb c "-".

Fixpoint all_slug (s : string) : bool :=
  match s with
  | EmptyString => true
  | String c r => slug_char c && all_slug r
  end.

(** The string without its last character when that is a hyphen. *)
Fixpoint drop_last_hyphen (s : string) : string :=
  match s with
  | EmptyString => EmptyString
  | String a EmptyString => if Ascii.eqb a "-" then EmptyString else s
  | String a r => String a (drop_last_hyphen r)
  end.

Fixpoint ends_with_hyphen (s : string) : bool :=
  match s with
  | EmptyString => false
  | String a EmptyString => Ascii.eqb a "-"
  | String _ r => ends_with_hyphen r
  end.

(** The test cases of a group, each with its steps, in the order of the
    request. *)
Definition bucket_of (all : list TestSteps) (testCases : list TestCase) (g : string)
  : list Joined :=
  flat_map (fun tc =>
              match find_steps all (tc_id tc) with
              | Some st => if String.eqb (group_name tc) g then [(tc, st)] else []
              | None => []
              end) testCases.

(** A bucket put after what a group already holds. *)
Definition extend_bucket (held : option (list Joined)) (more : list Joined)
  : option (list Joined) :=
  match held, more with
  | None, [] => None
  | None, _ => Some more
  | Some b, _ => Some (b ++ more)%list
  end.

(** The names in the order of their first occurrence, after those already
    seen. *)
Definition first_seen_after (seen names : list string) : list string :=
  fold_left (fun ks n => if has_key n ks then ks else push ks n) names seen.

(** The group names of the test cases that have steps, in request order. *)
Definition group_names (all : list TestSteps) (testCases : list TestCase) : list string :=
  map group_name (filter (matched all) testCases).

(** A test case that has steps and a group name that [Object.prototype]
    defines. *)
Definition unplaceable (all : list TestSteps) (tc : TestCase) : bool :=
  matched all tc && inherited (group_name tc).

(** No own key of the object is a property of [Object.prototype]. *)
Definition own_keys_plain {A : Type} (o : JsObject A) : Prop :=
  forall k v, own o k = Some v -> inherited k = false.

Definition bucket_sizes (groups : JsObject (list Joined)) : nat :=
  list_sum (map (fun entry => List.length (snd entry)) groups).

(** The file [generateTestFile] gives for a group once it is written. *)
Definition file_for (P : Platform) (request : TestCodeGenerationRequest)
    (entry : string * list Joined) : GeneratedFile :=
  {| path := path_join P (output_path request)
               (file_name (fst entry) (language_or_default request));
     content := render P (fst entry) (snd entry) (req_framework request)
                  (language_or_default request);
     test_count := List.length (snd entry);
     gf_framework := req_framework request |}.

(** The request of the repository's test of test cases with missing steps. *)
Definition no_steps_request : TestCodeGenerationRequest :=
  {| req_test_cases := [web_case "TC001" "Test" "smoke"];
     req_steps := [];
     req_framework := playwright;
     output_path := "out";
     language := None;
     style := None |}.


(** The status the API renderer asserts. *)
Definition asserted_status (P : Platform) (step : ApiView) : string :=
  match v_expected_status step with
  | Some n => if truthy (VNumber n) then number_to_string P n else "200"
  | None => "200"
  end.

Definition create_trip : ApiStep :=
  {| method := "POST"; endpoint := "/trips"; headers := None; body := VUndefined;
     expected_status := Some (Finite false 201 0); expected_body := VUndefined;
     as_description := "Create trip"; save_response := Some "trip" |}.

(** The three parts an API step ends with. *)
Definition status_line (P : Platform) (step : ApiView) : string :=
  "expect(response.status()).toBe(" ++ asserted_status P step ++ ");".

Definition save_lines (step : ApiView) : string :=
  match v_save_response step with
  | Some (String _ _ as name) =>
      nl ++ "    const " ++ name ++ " = await response.json();"
        ++ nl ++ "    savedResponses['" ++ name ++ "'] = " ++ name ++ ";"
  | _ => EmptyString
  end.

Definition body_check (P : Platform) (step : ApiView) : string :=
  if truthy (v_expected_body step)
  then nl ++ "    const body = await response.json();"
         ++ nl ++ "    expect(body).toMatchObject("
         ++ indent_lines "    " (JSON_stringify P (v_expected_body step) 2) ++ ");"
  else EmptyString.

(* ================================================================== *)
(** * The agents: data (src/types/index.ts) *)
(* ================================================================== *)

Inductive AuthType : Type := bearer | basic | cookie | none.

Record Auth : Type := {
  auth_type : AuthType;
  credentials : option (JsObject string)
}.

(** [ExplorationResult], for the steps of either agent. The duration is a
    difference of two readings of the clock and is left out. *)
Record ExplorationResult (S : Type) : Type := {
  er_test_case_id : string;
  er_steps : list S;
  er_success : bool;
  er_error : option string;
  er_screenshots : option (list string)
}.
Arguments er_test_case_id {S} _.
Arguments er_steps {S} _.
Arguments er_success {S} _.
Arguments er_error {S} _.
Arguments er_screenshots {S} _.

(** [ApiExplorationRequest & { steps: ApiStep[] }], without the two limits
    the agent never reads. *)
Record ApiExplorationRequest : Type := {
  base_url : string;
  ae_test_case : TestCase;
  ae_objective : string;
  ae_auth : option Auth;
  ae_steps : list ApiStep
}.

(** What [fetch] is called with, and what it resolves to. *)
Record Request : Type := {
  url : string;
  rq_method : string;
  rq_headers : JsObject JsVal;
  rq_body : option string
}.

Record Response : Type := {
  status : JsNumber;
  (** [response.json()] *)
  response_json : Result JsVal
}.

(** The requests made so far, with [savedResponses]. *)
Record Session : Type := {
  sent : list Request;
  savedResponses : JsObject JsVal
}.

(** What the agents need beyond the platform of the engines. *)
Record Server : Type := {
  (** [text.replace(new RegExp(source, 'g'), replacement)]; the constructor
      throws on a source that is no pattern *)
  RegExp_replace : string -> string -> string -> Result string;
  (** [fetch(url, init)], given the requests that came before *)
  fetch : list Request -> Request -> Result Response
}.

(** [o[k] = v] by definition of the property, as a spread does it. *)
Definition define {A : Type} (o : JsObject A) (k : string) (v : A) : JsObject A :=
  match own o k with
  | Some _ => overwrite o k v
  | None => push o (k, v)
  end.

(** [{ ...v }]: the own enumerable properties of [v] in their order. *)
Definition spread (v : JsVal) : list (string * JsVal) :=
  match v with
  | VObject o => Object_entries o
  | VArray l => items_from 0 l
  | VString s => chars_from 0 s
  | _ => []
  end.

(** One list picked out of another, in order. *)
Inductive subsequence {A : Type} : list A -> list A -> Prop :=
  | sub_nil : subsequence [] []
  | sub_skip (x : A) (l m : list A) : subsequence l m -> subsequence l (x :: m)
  | sub_keep (x : A) (l m : list A) : subsequence l m -> subsequence (x :: l) (x :: m).

(* ================================================================== *)
(** * ApiAgent (src/agents/api-agent.ts) *)
(* ================================================================== *)

Module ApiAgent.

(** [\b]: a word character on exactly one side. *)
Definition word_boundary (before : option ascii) (rest : string) : bool :=
  xorb (match before with Some c => is_word c | None => false end)
       (match rest with String c _ => is_word c | EmptyString => false end).

(** A literal under the [i] flag, matched at the head of [s]: the text it
    took and what follows. Two characters agree when their upper-case forms
    do; a byte outside ASCII is its own upper-case form. *)
Fixpoint literal (w s : string) : option (string * string) :=
  match w, s with
  | EmptyString, _ => Some (EmptyString, s)
  | String a w', String b s' =>
      if Ascii.eqb (upper_char a) (upper_char b)
      then match literal w' s' with
           | Some (taken, rest) => Some (String b taken, rest)
           | None => None
           end
      else None
  | String _ _, EmptyString => None
  end.

Fixpoint last_char (s : string) : option ascii :=
  match s with
  | EmptyString => None
  | String c EmptyString => Some c
  | String _ r => last_char r
  end.

(** [s?\b] after the group: the [s] is taken if it is there, and given back
    when no boundary follows it. *)
Definition plural_and_boundary (taken rest : string) : bool :=
  match rest with
  | String c r =>
      (Ascii.eqb (upper_char c) "S" && word_boundary (Some c) r)
      || word_boundary (last_char taken) rest
  | EmptyString => word_boundary (last_char taken) rest
  end.

Definition resource_words : list string :=
  [ "trip"; "user"; "activity"; "budget"; "comment"; "collaboration" ].

(** [(trip|user|...)s?\b] at the head of [s]: the alternatives in their
    order, the next one when the rest of the pattern fails. The text of the
    group is returned. *)
Fixpoint alternatives (ws : list string) (s : string) : option string :=
  match ws with
  | [] => None
  | w :: others =>
      match literal w s with
      | Some (taken, rest) =>
          if plural_and_boundary taken rest then Some taken
          else alternatives others s
      | None => alternatives others s
      end
  end.

(** [objective.match(/\b(trip|...)s?\b/i)]: the leftmost position where the
    pattern matches, [before] being the character in front of [s]. *)
Fixpoint first_match (before : option ascii) (s : string) : option string :=
  match (if word_boundary before s then alternatives resource_words s else None) with
  | Some taken => Some taken
  | None =>
      match s with
      | EmptyString => None
      | String c r => first_match (Some c) r
      end
  end.

(** Extract resource name from objective *)
Definition extractResourceName (objective : string) : string :=
  match first_match None objective with
  | Some taken => toLowerCase taken ++ "s"
  | None => "resources"
  end.

(** [auth && auth.type !== 'none'] *)
Definition auth_required (auth : option Auth) : bool :=
  match auth with
  | Some a => match auth_type a with none => false | _ => true end
  | None => false
  end.

(** [...(auth && auth.type === 'bearer' ? { 'Authorization': ... } : {})] *)
Definition authorization (auth : option Auth) : JsObject string :=
  match auth with
  | Some a =>
      match auth_type a with
      | bearer => [("Authorization", "Bearer {{authResponse.token}}")]
      | _ => []
      end
  | None => []
  end.

Definition login : ApiStep :=
  {| method := "POST";
     endpoint := "/api/auth/login";
     headers := Some [("Content-Type", "application/json")];
     body := VObject [("email", VString "test@example.com");
                      ("password", VString "password123")];
     expected_status := Some (Finite false 200 0);
     expected_body := VUndefined;
     as_description := "Login to get authentication token";
     save_response := Some "authResponse" |}.

(** [{ ...testCase.conditions }] *)
Definition conditions_copy (testCase : TestCase) : JsVal :=
  VObject (Object_entries (tc_conditions testCase)).

(** Generate example steps based on common patterns *)
Definition generateExampleSteps (testCase : TestCase) (objective : string)
    (auth : option Auth) : list ApiStep :=
  let objectiveLower := toLowerCase objective in
  let steps := if auth_required auth then [login] else [] in
  if includes "create" objectiveLower then
    let resourceName := extractResourceName objective in
    push steps
      {| method := "POST";
         endpoint := "/api/" ++ resourceName;
         headers := Some (("Content-Type", "application/json") :: authorization auth);
         body := conditions_copy testCase;
         expected_status := Some (Finite false 201 0);
         expected_body := VUndefined;
         as_description := "Create " ++ resourceName;
         save_response := Some ("created" ++ resourceName) |}
  else if includes "get" objectiveLower || includes "fetch" objectiveLower then
    let resourceName := extractResourceName objective in
    push steps
      {| method := "GET";
         endpoint := "/api/" ++ resourceName;
         headers := Some (authorization auth);
         body := VUndefined;
         expected_status := Some (Finite false 200 0);
         expected_body := VUndefined;
         as_description := "Get " ++ resourceName;
         save_response := None |}
  else if includes "update" objectiveLower then
    let resourceName := extractResourceName objective in
    push steps
      {| method := "PUT";
         endpoint := "/api/" ++ resourceName ++ "/{{id}}";
         headers := Some (("Content-Type", "application/json") :: authorization auth);
         body := conditions_copy testCase;
         expected_status := Some (Finite false 200 0);
         expected_body := VUndefined;
         as_description := "Update " ++ resourceName;
         save_response := None |}
  else if includes "delete" objectiveLower then
    let resourceName := extractResourceName objective in
    push steps
      {| method := "DELETE";
         endpoint := "/api/" ++ resourceName ++ "/{{id}}";
         headers := Some (authorization auth);
         body := VUndefined;
         expected_status := Some (Finite false 204 0);
         expected_body := VUndefined;
         as_description := "Delete " ++ resourceName;
         save_response := None |}
  else steps.

Section Validation.

Variable P : Platform.
Variable S : Server.

(** Replace {{variables}} in object with actual values *)
Definition replaceVariables (obj : JsVal) (variables : JsObject JsVal) : Result JsVal :=
  if negb (truthy obj) then Ok obj
  else
    replaced <-
      fold_left
        (fun text kv =>
           t <- text ;;
           RegExp_replace S ("\{\{" ++ fst kv ++ "\}\}") (JSON_stringify P (snd kv) 0) t)
        (Object_entries variables)
        (Ok (JSON_stringify P obj 0)) ;;
    JSON_parse P replaced.

(** [step.headers || {}] *)
Definition headers_or_empty (step : ApiStep) : JsVal :=
  VObject (match headers step with
           | Some h => map (fun kv => (fst kv, VString (snd kv))) h
           | None => []
           end).

Definition request_of (baseUrl : string) (step : ApiStep) (headers body : JsVal)
  : Request :=
  {| url := baseUrl ++ endpoint step;
     rq_method := method step;
     rq_headers :=
       fold_left (fun o kv => define o (fst kv) (snd kv)) (spread headers)
         [("Content-Type", VString "application/json")];
     rq_body := if truthy body then Some (JSON_stringify P body 0) else None |}.

Definition saved (st : Session) (name : string) (v : JsVal) : Session :=
  {| sent := sent st; savedResponses := obj_set (savedResponses st) name v |}.

(** [if (data[k]) savedResponses[k] = data[k]] *)
Definition keep_field (k : string) (st : Session) (responseData : JsVal)
  : Session * Result unit :=
  match get responseData k with
  | Raise e => (st, Raise e)
  | Ok v => (if truthy v then saved st k v else st, Ok tt)
  end.

(** The body of the [try] in the loop of [validateSteps]. A status other
    than the expected one is only written to the console. *)
Definition validate_step (baseUrl : string) (st : Session) (step : ApiStep)
  : Session * Result unit :=
  match replaceVariables (headers_or_empty step) (savedResponses st) with
  | Raise e => (st, Raise e)
  | Ok headers =>
      match replaceVariables (body step) (savedResponses st) with
      | Raise e => (st, Raise e)
      | Ok body =>
          let request := request_of baseUrl step headers body in
          let st1 := {| sent := push (sent st) request;
                        savedResponses := savedResponses st |} in
          match fetch S (sent st) request with
          | Raise e => (st1, Raise e)
          | Ok response =>
              match save_response step with
              | Some (String _ _ as name) =>
                  match response_json response with
                  | Raise e => (st1, Raise e)
                  | Ok responseData =>
                      match keep_field "token" (saved st1 name responseData) responseData with
                      | (st2, Raise e) => (st2, Raise e)
                      | (st2, Ok _) => keep_field "id" st2 responseData
                      end
                  end
              | _ => (st1, Ok tt)
              end
          end
      end
  end.

(** The loop of [validateSteps]: the [catch] writes the failure of a step to
    the console and the loop goes on. *)
Fixpoint validate_each (baseUrl : string) (steps : list ApiStep) (st : Session)
  : Session * Result unit :=
  match steps with
  | [] => (st, Ok tt)
  | step :: rest =>
      match validate_step baseUrl st step with
      | (st', Ok _) => validate_each baseUrl rest st'
      | (st', Raise _) => validate_each baseUrl rest st'
      end
  end.

(** [Object.assign(savedResponses, auth.credentials)] *)
Definition with_credentials (auth : option Auth) : JsObject JsVal :=
  match auth with
  | Some {| credentials := Some c |} =>
      fold_left (fun o kv => obj_set o (fst kv) (VString (snd kv))) (Object_entries c) []
  | _ => []
  end.

(** Validate steps by making actual API requests *)
Definition validateSteps (steps : list ApiStep) (baseUrl : string)
    (auth : option Auth) : Session * Result unit :=
  validate_each baseUrl steps {| sent := []; savedResponses := with_credentials auth |}.

(** Execute API test steps *)
Definition execute (request : ApiExplorationRequest)
  : Session * ExplorationResult ApiStep :=
  match validateSteps (ae_steps request) (base_url request) (ae_auth request) with
  | (st, Ok _) =>
      (st, {| er_test_case_id := tc_id (ae_test_case request);
              er_steps := ae_steps request;
              er_success := true;
              er_error := None;
              er_screenshots := None |})
  | (st, Raise e) =>
      (st, {| er_test_case_id := tc_id (ae_test_case request);
              er_steps := ae_steps request;
              er_success := false;
              er_error := Some (message e);
              er_screenshots := None |})
  end.

End Validation.

End ApiAgent.
(* ================================================================== *)
(** * WebAgent (src/agents/web-agent.ts) *)
(* ================================================================== *)

(** A [WebStep] with the two fields only the agent reads. *)
Record AgentStep : Type := {
  fields : WebStep;
  timeout : option JsNumber;
  screenshot_on_failure : option bool
}.

(** [WebExplorationRequest & { steps: WebStep[] }], without the two limits
    the agent never reads. *)
Record WebExplorationRequest : Type := {
  we_url : string;
  we_test_case : TestCase;
  we_objective : string;
  headless : option bool;
  screenshot_dir : option string;
  we_steps : list AgentStep
}.

(** Playwright and the file system as the agent calls them. A [Desk] is the
    state of the browser, of its page and of the disk; every call may change
    it and may throw. A locator is named by its selector. *)
Record Playwright : Type := {
  Desk : Type;
  (** [chromium.launch({ headless })] *)
  launch : Desk -> bool -> Desk * option Exn;
  (** [browser.newContext({ viewport: { width: 1280, height: 720 } })] *)
  newContext : Desk -> Desk * option Exn;
  newPage : Desk -> Desk * option Exn;
  context_close : Desk -> Desk * option Exn;
  browser_close : Desk -> Desk * option Exn;
  (** [page.goto(url, { timeout, waitUntil: 'domcontentloaded' })] *)
  goto : Desk -> string -> JsNumber -> Desk * option Exn;
  click : Desk -> string -> JsNumber -> Desk * option Exn;
  fill : Desk -> string -> string -> JsNumber -> Desk * option Exn;
  selectOption : Desk -> string -> string -> JsNumber -> Desk * option Exn;
  check : Desk -> string -> JsNumber -> Desk * option Exn;
  uncheck : Desk -> string -> JsNumber -> Desk * option Exn;
  (** [page.waitForSelector(selector, { timeout, state: 'visible' })] *)
  waitForSelector : Desk -> string -> JsNumber -> Desk * option Exn;
  waitForTimeout : Desk -> JsNumber -> Desk * option Exn;
  (** [page.waitForLoadState('domcontentloaded', { timeout })] *)
  waitForLoadState : Desk -> JsNumber -> Desk * option Exn;
  (** [page.locator(selector).first().isVisible()] *)
  isVisible : Desk -> string -> Desk * Result bool;
  (** [page.locator(selector).first().textContent()], [None] for [null] *)
  textContent : Desk -> string -> Desk * Result (option string);
  (** [page.screenshot({ path, fullPage })] *)
  screenshot : Desk -> string -> bool -> Desk * option Exn;
  (** [fs.mkdir(path, { recursive: true })] *)
  make_dir : Desk -> string -> Desk * option Exn;
  (** [fs.readdir(path)] *)
  readdir : Desk -> string -> Desk * Result (list string);
  (** [String(error)]: the name of the class of the error and its message *)
  error_text : Exn -> string
}.

(** The double quote, as a string of one character. *)
Definition dq : string := String (ascii_of_nat 34) EmptyString.

(** [s.endsWith(suffix)] *)
Definition endsWith (suffix s : string) : bool :=
  match ends_with_rev (string_rev suffix) (string_rev s) with
  | Some _ => true
  | None => false
  end.

(** [x || y] for an optional string: the string when it is there and not empty. *)
Definition given (x : option string) : option string :=
  match x with
  | Some (String _ _ as s) => Some s
  | _ => None
  end.

Module WebAgent.

Definition navigation (url : string) : WebStep :=
  {| action := "navigate"; selector := None; target := Some url;
     value := VUndefined; ws_description := "Navigate to " ++ url |}.

Definition login_steps : list WebStep :=
  [ {| action := "fill";
       selector := Some ("input[name=" ++ dq ++ "email" ++ dq ++ "], input[type="
                         ++ dq ++ "email" ++ dq ++ "]");
       target := None;
       value := VString "test@example.com";
       ws_description := "Fill email input" |};
    {| action := "fill";
       selector := Some ("input[name=" ++ dq ++ "password" ++ dq
                         ++ "], input[type=" ++ dq ++ "password" ++ dq ++ "]");
       target := None;
       value := VString "password123";
       ws_description := "Fill password input" |};
    {| action := "click";
       selector := Some ("button[type=" ++ dq ++ "submit" ++ dq
                         ++ "], button:has-text(" ++ dq ++ "Login" ++ dq ++ ")");
       target := None;
       value := VUndefined;
       ws_description := "Click login button" |};
    {| action := "wait";
       selector := Some ("h1, [data-testid=" ++ dq ++ "dashboard" ++ dq ++ "]");
       target := None;
       value := VUndefined;
       ws_description := "Wait for dashboard to load" |} ].

Definition create_steps : list WebStep :=
  [ {| action := "click";
       selector := Some ("button:has-text(" ++ dq ++ "Create" ++ dq
                         ++ "), a:has-text(" ++ dq ++ "Create" ++ dq ++ ")");
       target := None;
       value := VUndefined;
       ws_description := "Click create button" |};
    {| action := "wait";
       selector := Some ("form, [role=" ++ dq ++ "dialog" ++ dq ++ "]");
       target := None;
       value := VUndefined;
       ws_description := "Wait for form to appear" |} ].

Definition assertion (expected : string) : WebStep :=
  {| action := "assert"; selector := Some "body"; target := None;
     value := VString expected; ws_description := "Verify: " ++ expected |}.

(** Generate example steps based on common patterns *)
Definition generateExampleSteps (testCase : TestCase) (objective url : string)
  : list WebStep :=
  let steps := [navigation url] in
  let objectiveLower := toLowerCase objective in
  let steps :=
    if includes "login" objectiveLower then (steps ++ login_steps)%list
    else if includes "create" objectiveLower then (steps ++ create_steps)%list
    else steps in
  match tc_expected_results testCase with
  | first :: _ => push steps (assertion first)
  | [] => steps
  end.

Section Run.

Variable P : Platform.
Variable B : Playwright.

(** [Number(v)] *)
Definition ToNumber (v : JsVal) : JsNumber :=
  match v with
  | VUndefined => NaN
  | VNull => Finite false 0 0
  | VBool true => Finite false 1 0
  | VBool false => Finite false 0 0
  | VNumber n => n
  | VString s => StringToNumber s
  | VArray _ | VObject _ => StringToNumber (ToString (number_to_string P) v)
  end.

Definition thrown (text : string) : option Exn := Some (Throw PlainError text).

(** Execute a single test step *)
Definition executeStep (d : Desk B) (step : AgentStep) : Desk B * option Exn :=
  let timeout := match timeout step with Some t => t | None => Finite false 30000 0 end in
  let s := fields step in
  if String.eqb (action s) "navigate" then
    match given (target s) with
    | None => (d, thrown "Navigate action requires target URL")
    | Some url => goto B d url timeout
    end
  else if String.eqb (action s) "click" then
    match given (selector s) with
    | None => (d, thrown "Click action requires selector")
    | Some sel => click B d sel timeout
    end
  else if String.eqb (action s) "fill" then
    match given (selector s), value s with
    | None, _ | _, VUndefined => (d, thrown "Fill action requires selector and value")
    | Some sel, v => fill B d sel (ToString (number_to_string P) v) timeout
    end
  else if String.eqb (action s) "select" then
    match given (selector s), value s with
    | None, _ | _, VUndefined => (d, thrown "Select action requires selector and value")
    | Some sel, v => selectOption B d sel (ToString (number_to_string P) v) timeout
    end
  else if String.eqb (action s) "check" then
    match given (selector s) with
    | None => (d, thrown "Check action requires selector")
    | Some sel => check B d sel timeout
    end
  else if String.eqb (action s) "uncheck" then
    match given (selector s) with
    | None => (d, thrown "Uncheck action requires selector")
    | Some sel => uncheck B d sel timeout
    end
  else if String.eqb (action s) "wait" then
    match given (selector s) with
    | Some sel => waitForSelector B d sel timeout
    | None =>
        if truthy (value s) then waitForTimeout B d (ToNumber (value s))
        else waitForLoadState B d timeout
    end
  else if String.eqb (action s) "assert" then
    match given (selector s) with
    | None => (d, thrown "Assert action requires selector")
    | Some sel =>
        match isVisible B d sel with
        | (d1, Raise e) => (d1, Some e)
        | (d1, Ok false) => (d1, thrown ("Assertion failed: " ++ ws_description s))
        | (d1, Ok true) =>
            match value s with
            | VUndefined => (d1, None)
            | v =>
                let wanted := ToString (number_to_string P) v in
                match textContent B d1 sel with
                | (d2, Raise e) => (d2, Some e)
                | (d2, Ok text) =>
                    if match text with Some t => includes wanted t | None => false end
                    then (d2, None)
                    else (d2, thrown ("Assertion failed: Expected text to contain "
                                      ++ dq ++ wanted ++ dq ++ ", got " ++ dq
                                      ++ match text with Some t => t | None => "null" end
                                      ++ dq))
                end
            end
        end
    end
  else if String.eqb (action s) "screenshot" then (d, None)
  else (d, thrown ("Unknown action: " ++ action s)).

(** [fs.mkdir(dir, { recursive: true })], then a screenshot at [dir/name]. *)
Definition shoot (d : Desk B) (dir name : string) (fullPage : bool)
  : Desk B * option Exn :=
  match make_dir B d dir with
  | (d1, Some e) => (d1, Some e)
  | (d1, None) => screenshot B d1 (path_join P dir name) fullPage
  end.

(** The [try] of the loop: the step, then its screenshot. *)
Definition step_and_shot (d : Desk B) (i : nat) (step : AgentStep)
    (screenshotDir : option string) : Desk B * option Exn :=
  match executeStep d step with
  | (d1, Some e) => (d1, Some e)
  | (d1, None) =>
      match given screenshotDir with
      | Some dir => shoot d1 dir ("step-" ++ string_of_nat (i + 1) ++ ".png") false
      | None => (d1, None)
      end
  end.

(** The [catch] of the loop: the screenshot of the failure, then the error
    of the step wrapped. An error of that screenshot is the one thrown. *)
Definition step_failed (d : Desk B) (i : nat) (step : AgentStep)
    (screenshotDir : option string) (error : Exn) : Desk B * option Exn :=
  let wrapped :=
    thrown ("Step " ++ string_of_nat (i + 1) ++ " failed: "
            ++ str_or (ws_description (fields step)) "unknown" ++ nl
            ++ error_text B error) in
  match given screenshotDir, screenshot_on_failure step with
  | None, _ | _, Some false => (d, wrapped)
  | Some dir, _ =>
      match shoot d dir ("step-" ++ string_of_nat (i + 1) ++ "-error.png") true with
      | (d1, Some e) => (d1, Some e)
      | (d1, None) => (d1, wrapped)
      end
  end.

(** Execute test steps on the page, from the step of index [i] on. *)
Fixpoint executeSteps_from (i : nat) (d : Desk B) (steps : list AgentStep)
    (screenshotDir : option string) : Desk B * option Exn :=
  match steps with
  | [] => (d, None)
  | step :: rest =>
      match step_and_shot d i step screenshotDir with
      | (d1, None) => executeSteps_from (S i) d1 rest screenshotDir
      | (d1, Some error) => step_failed d1 i step screenshotDir error
      end
  end.

Definition executeSteps (d : Desk B) (steps : list AgentStep)
    (screenshotDir : option string) : Desk B * option Exn :=
  executeSteps_from 0 d steps screenshotDir.

(** [files.filter(f => f.endsWith('.png')).map(f => path.join(dir, f))] *)
Definition collect (d : Desk B) (screenshotDir : option string)
  : Desk B * Result (list string) :=
  match given screenshotDir with
  | None => (d, Ok [])
  | Some dir =>
      match readdir B d dir with
      | (d1, Raise e) => (d1, Raise e)
      | (d1, Ok files) =>
          (d1, Ok (map (path_join P dir) (filter (endsWith ".png") files)))
      end
  end.

(** The [try] of [execute]: the desk, whether [this.browser] is set, the
    screenshots gathered and the error thrown, if any. *)
Definition session (held : bool) (d : Desk B) (request : WebExplorationRequest)
  : Desk B * bool * list string * option Exn :=
  match launch B d (match headless request with Some h => h | None => true end) with
  | (d1, Some e) => (d1, held, [], Some e)
  | (d1, None) =>
  match newContext B d1 with
  | (d2, Some e) => (d2, true, [], Some e)
  | (d2, None) =>
  match newPage B d2 with
  | (d3, Some e) => (d3, true, [], Some e)
  | (d3, None) =>
  match executeSteps d3 (we_steps request) (screenshot_dir request) with
  | (d4, Some e) => (d4, true, [], Some e)
  | (d4, None) =>
  match collect d4 (screenshot_dir request) with
  | (d5, Raise e) => (d5, true, [], Some e)
  | (d5, Ok screenshots) =>
  match context_close B d5 with
  | (d6, Some e) => (d6, true, screenshots, Some e)
  | (d6, None) =>
  match browser_close B d6 with
  | (d7, Some e) => (d7, true, screenshots, Some e)
  | (d7, None) => (d7, false, screenshots, None)
  end end end end end end end.

Definition outcome (request : WebExplorationRequest) (error : option Exn)
    (screenshots : list string) : ExplorationResult AgentStep :=
  {| er_test_case_id := tc_id (we_test_case request);
     er_steps := we_steps request;
     er_success := match error with None => true | Some _ => false end;
     er_error := option_map message error;
     er_screenshots := Some screenshots |}.

(** Execute web test steps. [held] tells whether [this.browser] is set; the
    call returns a result or, when closing the browser fails in the [catch],
    throws. *)
Definition execute (held : bool) (d : Desk B) (request : WebExplorationRequest)
  : Desk B * bool * Result (ExplorationResult AgentStep) :=
  match session held d request with
  | (d1, held1, screenshots, None) => (d1, held1, Ok (outcome request None screenshots))
  | (d1, true, screenshots, Some error) =>
      match browser_close B d1 with
      | (d2, Some e) => (d2, true, Raise e)
      | (d2, None) => (d2, false, Ok (outcome request (Some error) screenshots))
      end
  | (d1, false, screenshots, Some error) =>
      (d1, false, Ok (outcome request (Some error) screenshots))
  end.

(** Cleanup resources *)
Definition cleanup (held : bool) (d : Desk B) : Desk B * bool * option Exn :=
  if held then
    match browser_close B d with
    | (d1, Some e) => (d1, true, Some e)
    | (d1, None) => (d1, false, None)
    end
  else (d, false, None).

End Run.

End WebAgent.
(** A test case without conditions, actions or expected results. *)
Definition no_conditions : TestCase :=
  {| tc_id := "TC001"; tc_name := "Budget"; tc_description := None;
     tc_conditions := []; tc_actions := []; tc_expected_results := [];
     tc_priority := "medium"; tc_tags := None |}.

(** Where a step is to be sent, and where a request went. *)
Definition address (baseUrl : string) (step : ApiStep) : string * string :=
  (baseUrl ++ endpoint step, method step).

Definition addressed (r : Request) : string * string := (url r, rq_method r).


(** A step as the guidance gives it: no timeout, no word on screenshots. *)
Definition plain (s : WebStep) : AgentStep :=
  {| fields := s; timeout := None; screenshot_on_failure := None |}.

(** A page on which the example steps meet no obstacle: navigation, clicks,
    fills, waits, screenshots and directories succeed, what is located is
    visible, and its text contains the first of the expected results. *)
Definition obliging (B : Playwright) (expected : list string) : Prop :=
  (forall d url t, snd (goto B d url t) = None)
  /\ (forall d sel t, snd (click B d sel t) = None)
  /\ (forall d sel v t, snd (fill B d sel v t) = None)
  /\ (forall d sel t, snd (waitForSelector B d sel t) = None)
  /\ (forall d sel, snd (isVisible B d sel) = Ok true)
  /\ (forall d sel, exists text,
         snd (textContent B d sel) = Ok (Some text)
         /\ Forall (fun e => includes e text = true) (firstn 1 expected))
  /\ (forall d dir, snd (make_dir B d dir) = None)
  /\ (forall d file fullPage, snd (screenshot B d file fullPage) = None).

(** A page that does what it is told and shows one text everywhere; its
    desk is the list of the calls made. Directories listed in [refused]
    cannot be made. *)
Definition quiet_page (shown_text : string) (refused : list string) : Playwright :=
  {| Desk := list string;
     launch := fun d _ => (push d "launch", None);
     newContext := fun d => (push d "newContext", None);
     newPage := fun d => (push d "newPage", None);
     context_close := fun d => (push d "context.close", None);
     browser_close := fun d => (push d "browser.close", None);
     goto := fun d url _ => (push d ("goto " ++ url), None);
     click := fun d sel _ => (push d ("click " ++ sel), None);
     fill := fun d sel v _ => (push d ("fill " ++ sel), None);
     selectOption := fun d sel v _ => (push d ("selectOption " ++ sel), None);
     check := fun d sel _ => (push d ("check " ++ sel), None);
     uncheck := fun d sel _ => (push d ("uncheck " ++ sel), None);
     waitForSelector := fun d sel _ => (push d ("waitForSelector " ++ sel), None);
     waitForTimeout := fun d _ => (push d "waitForTimeout", None);
     waitForLoadState := fun d _ => (push d "waitForLoadState", None);
     isVisible := fun d sel => (push d ("isVisible " ++ sel), Ok true);
     textContent := fun d sel => (push d ("textContent " ++ sel), Ok (Some shown_text));
     screenshot := fun d file _ => (push d ("screenshot " ++ file), None);
     make_dir := fun d dir =>
       if denied refused dir then (d, Some (EACCES "mkdir" dir))
       else (push d ("mkdir " ++ dir), None);
     readdir := fun d dir => (d, Ok []);
     error_text := fun e => "Error: " ++ message e |}.

(** A test case that expects a welcome. *)
Definition login_case : TestCase :=
  {| tc_id := "TC001"; tc_name := "Valid login"; tc_description := None;
     tc_conditions := []; tc_actions := ["Submit the form"];
     tc_expected_results := ["Welcome"];
     tc_priority := "high"; tc_tags := None |}.

(** A click that names no selector. *)
Definition click_nothing : AgentStep :=
  plain {| action := "click"; selector := None; target := None;
           value := VUndefined; ws_description := "Click save" |}.

(** The wrapped error of the step of index [i]. *)
Definition step_error (B : Playwright) (i : nat) (step : AgentStep) (error : Exn) : Exn :=
  Throw PlainError
    ("Step " ++ string_of_nat (i + 1) ++ " failed: "
     ++ str_or (ws_description (fields step)) "unknown" ++ nl ++ error_text B error).










(** The quiet page with a browser that cannot be closed. *)
Definition jammed_page : Playwright :=
  let q := quiet_page "Welcome" [] in
  {| Desk := Desk q;
     launch := launch q;
     newContext := newContext q;
     newPage := newPage q;
     context_close := context_close q;
     browser_close := fun d => (d, Some (Throw PlainError "Target closed"));
     goto := goto q;
     click := click q;
     fill := fill q;
     selectOption := selectOption q;
     check := check q;
     uncheck := uncheck q;
     waitForSelector := waitForSelector q;
     waitForTimeout := waitForTimeout q;
     waitForLoadState := waitForLoadState q;
     isVisible := isVisible q;
     textContent := textContent q;
     screenshot := screenshot q;
     make_dir := make_dir q;
     readdir := readdir q;
     error_text := error_text q |}.

(** A request whose only step is a click that names no selector. *)
Definition failing_request : WebExplorationRequest :=
  {| we_url := "http://localhost:3000";
     we_test_case := login_case;
     we_objective := "Login";
     headless := None;
     screenshot_dir := None;
     we_steps := [click_nothing] |}.

(* ================================================================== *)
(** * Strings: general facts *)
(* ================================================================== *)

Lemma append_nil_r (s : string) : s ++ "" = s.
Proof. induction s as [|c s IH]; simpl; [reflexivity | now rewrite IH]. Qed.

Lemma append_assoc (a b c : string) : (a ++ b) ++ c = a ++ (b ++ c).
Proof. induction a as [|x a IH]; simpl; [reflexivity | now rewrite IH]. Qed.


Lemma replace_char_app (c : ascii) (rep a b : string) :
  replace_char c rep (a ++ b) = replace_char c rep a ++ replace_char c rep b.
Proof.
  induction a as [|x a IH]; simpl; [reflexivity|].
  destruct (Ascii.eqb x c); rewrite IH; simpl.
  - now rewrite append_assoc.
  - reflexivity.
Qed.


Lemma nonempty_true_iff (s : string) : nonempty s = true <-> s <> "".
Proof. destruct s; simpl; split; congruence. Qed.

(* ================================================================== *)
(** * escapeString *)
(* ================================================================== *)

Lemma escapeString_cons (c : ascii) (s : string) :
  escapeString (String c s) = escaped_char c ++ escapeString s.
Proof.
  unfold escapeString, escaped_char. cbn [replace_char].
  destruct (Ascii.eqb c quote) eqn:Eq.
  - rewrite replace_char_app. reflexivity.
  - cbn [replace_char]. destruct (Ascii.eqb c LF); reflexivity.
Qed.

Lemma escapeString_each (s : string) : escapeString s = escape_each s.
Proof.
  induction s as [|c s IH]; [reflexivity|].
  rewrite escapeString_cons, IH. reflexivity.
Qed.

Lemma occurs_app (c : ascii) (a b : string) :
  occurs c (a ++ b) = occurs c a || occurs c b.
Proof.
  induction a as [|x a IH]; simpl; [reflexivity|].
  rewrite IH. now rewrite orb_assoc.
Qed.

Lemma escaped_char_no_LF (c : ascii) : occurs LF (escaped_char c) = false.
Proof.
  unfold escaped_char.
  destruct (Ascii.eqb c quote) eqn:E1; [reflexivity|].
  destruct (Ascii.eqb c LF) eqn:E2; [reflexivity|].
  simpl. now rewrite E2.
Qed.

Lemma escapeString_no_LF (s : string) : occurs LF (escapeString s) = false.
Proof.
  rewrite escapeString_each.
  induction s as [|c s IH]; [reflexivity|].
  simpl. now rewrite occurs_app, escaped_char_no_LF, IH.
Qed.

Lemma escapeString_plain (s : string) :
  occurs quote s = false -> occurs LF s = false -> escapeString s = s.
Proof.
  rewrite escapeString_each.
  induction s as [|c s IH]; simpl; [reflexivity|].
  intros Hq Hl. apply orb_false_iff in Hq as [Hq1 Hq2].
  apply orb_false_iff in Hl as [Hl1 Hl2].
  unfold escaped_char. rewrite Hq1, Hl1. simpl. now rewrite IH.
Qed.

Lemma toLowerCase_fixed (s : string) : has_upper s = false -> toLowerCase s = s.
Proof.
  unfold toLowerCase.
  induction s as [|c s IH]; simpl; [reflexivity|].
  intros H. apply orb_false_iff in H as [Hc Hs].
  unfold lower_char. rewrite Hc. f_equal. now apply IH.
Qed.

(** What [escapeString] does and where the Playwright renderer applies it.
    Each single quote becomes a backslash and the quote, each line feed a
    backslash and the letter n, every other character, the backslash
    included, stays as it is, and the result holds no line feed. The group
    name, the test name and the value of the fill, select and assert steps
    go through it. *)
Theorem escapeString_scope :
  (forall s, escapeString s = escape_each s)
  /\ (forall s, occurs LF (escapeString s) = false)
  /\ (forall s, occurs quote s = false -> occurs LF s = false -> escapeString s = s)
  /\ (forall P groupName tests lang,
        generatePlaywrightTest P groupName tests lang
        = imports ++ "test.describe('" ++ escapeString groupName ++ "', () => {" ++ nl
            ++ join (nl ++ nl) (map (generatePlaywrightTestCase P) tests) ++ nl
            ++ "});" ++ nl)
  /\ (forall P testCase testSteps, exists rest,
        generatePlaywrightTestCase P (testCase, testSteps)
        = "  test('" ++ escapeString (tc_name testCase) ++ "', async ({ page }) => {" ++ rest)
  /\ (forall P step index,
        action step = "fill" ->
        generatePlaywrightStep P step index
        = "// " ++ ws_description step ++ nl ++ "    await page.fill('"
            ++ shown (selector step) ++ "', '"
            ++ escapeString (ToString (number_to_string P) (value step)) ++ "');")
  /\ (forall P step index,
        action step = "select" ->
        generatePlaywrightStep P step index
        = "// " ++ ws_description step ++ nl ++ "    await page.selectOption('"
            ++ shown (selector step) ++ "', '"
            ++ escapeString (ToString (number_to_string P) (value step)) ++ "');")
  /\ (forall P step index,
        action step = "assert" -> value step <> VUndefined ->
        generatePlaywrightStep P step index
        = "// " ++ ws_description step ++ nl
            ++ "    await expect(page.locator('" ++ shown (selector step)
            ++ "')).toContainText('"
            ++ escapeString (ToString (number_to_string P) (value step)) ++ "');").
Proof.
  split; [exact escapeString_each|].
  split; [exact escapeString_no_LF|].
  split; [exact escapeString_plain|].
  split; [reflexivity|].
  split; [intros; eexists; unfold generatePlaywrightTestCase; reflexivity|].
  split; [|split].
  - intros P step index H. unfold generatePlaywrightStep. rewrite H.
    cbn -[escapeString ToString append nl shown]. now rewrite !append_assoc.
  - intros P step index H. unfold generatePlaywrightStep. rewrite H.
    cbn -[escapeString ToString append nl shown]. now rewrite !append_assoc.
  - intros P step index H Hv. unfold generatePlaywrightStep. rewrite H.
    cbn -[escapeString ToString append nl shown].
    destruct (value step); try congruence; now rewrite !append_assoc.
Qed.

Lemma escapeString_on_fill :
  action fill_quote = "fill"
  /\ generatePlaywrightStep bare_platform fill_quote 0
     = "// Type" ++ nl ++ "    await page.fill('#note', 'it"
         ++ String backslash "'s');".
Proof.
  split; [reflexivity|].
  destruct escapeString_scope as (_ & _ & _ & _ & _ & Hfill & _).
  rewrite (Hfill bare_platform fill_quote 0 eq_refl). reflexivity.
Defined.

(** C9 at a click step whose selector holds single quotes and whose
    description holds single quotes and a line feed: all of them reach the
    generated source as they are, where the value of a fill step and the test
    name are escaped. The comment ends at the line feed and the string
    literal of the selector at its first quote. *)
Lemma escaping_skips_selector_and_description :
  generatePlaywrightStep bare_platform click_save 0
  = "// Click 'Save'" ++ nl ++ "twice" ++ nl ++ "    await page.click('[name='q']');"
  /\ generatePlaywrightStep bare_platform click_save 0 <> click_all_escaped click_save
  /\ occurs LF (ws_description click_save) = true
  /\ escapeString (ws_description click_save)
     = "Click " ++ String backslash "'Save" ++ String backslash "'"
         ++ String backslash "ntwice".
Proof.
  split; [reflexivity|].
  split; [vm_compute; discriminate|].
  split; reflexivity.
Qed.

(* ================================================================== *)
(** * Condition values: StringToNumber on decimal numerals *)
(* ================================================================== *)

Ltac digit_cases a H :=
  destruct a as [[] [] [] [] [] [] [] []]; try discriminate H.

Lemma digit_not_ws1 (a : ascii) : is_digit a = true -> is_ws1 a = false.
Proof. intros H. digit_cases a H; reflexivity. Qed.

Lemma digit_not_ws2 (a b : ascii) :
  is_digit a = true -> is_ws2 a b = false /\ is_ws2 b a = false.
Proof.
  intros H. unfold is_ws2. digit_cases a H; cbn;
    rewrite ?andb_false_r; split; reflexivity.
Qed.

Lemma digit_not_ws3 (a b c : ascii) :
  is_digit a = true -> is_ws3 a b c = false /\ is_ws3 c b a = false.
Proof.
  intros H. unfold is_ws3. digit_cases a H; cbn;
    rewrite ?andb_false_r; split; reflexivity.
Qed.

Lemma digit_not_letter (a x : ascii) :
  is_digit a = true -> is_digit x = false -> Ascii.eqb a x = false.
Proof.
  intros Ha Hx. destruct (Ascii.eqb a x) eqn:E; [|reflexivity].
  apply Ascii.eqb_eq in E. subst. congruence.
Qed.

Lemma trimStart_unfold (s : string) :
  trimStart s
  = match s with
    | EmptyString => s
    | String a s1 =>
        if is_ws1 a then trimStart s1
        else match s1 with
             | EmptyString => s
             | String b s2 =>
                 if is_ws2 a b then trimStart s2
                 else match s2 with
                      | EmptyString => s
                      | String c s3 => if is_ws3 a b c then trimStart s3 else s
                      end
             end
    end.
Proof. destruct s; reflexivity. Qed.

Lemma trimStart_rev_unfold (s : string) :
  trimStart_rev s
  = match s with
    | EmptyString => s
    | String a s1 =>
        if is_ws1 a then trimStart_rev s1
        else match s1 with
             | EmptyString => s
             | String b s2 =>
                 if is_ws2 b a then trimStart_rev s2
                 else match s2 with
                      | EmptyString => s
                      | String c s3 => if is_ws3 c b a then trimStart_rev s3 else s
                      end
             end
    end.
Proof. destruct s; reflexivity. Qed.

Lemma trimStart_digit (a : ascii) (r : string) :
  is_digit a = true -> trimStart (String a r) = String a r.
Proof.
  intros H. rewrite trimStart_unfold, (digit_not_ws1 a H).
  destruct r as [|b r]; [reflexivity|].
  rewrite (proj1 (digit_not_ws2 a b H)).
  destruct r as [|c r]; [reflexivity|].
  now rewrite (proj1 (digit_not_ws3 a b c H)).
Qed.

Lemma trimStart_rev_digit (a : ascii) (r : string) :
  is_digit a = true -> trimStart_rev (String a r) = String a r.
Proof.
  intros H. rewrite trimStart_rev_unfold, (digit_not_ws1 a H).
  destruct r as [|b r]; [reflexivity|].
  rewrite (proj2 (digit_not_ws2 a b H)).
  destruct r as [|c r]; [reflexivity|].
  now rewrite (proj2 (digit_not_ws3 a b c H)).
Qed.

Lemma string_rev_app (a b : string) :
  string_rev (a ++ b) = string_rev b ++ string_rev a.
Proof.
  induction a as [|x a IH]; simpl.
  - now rewrite append_nil_r.
  - now rewrite IH, append_assoc.
Qed.

Lemma string_rev_involutive (s : string) : string_rev (string_rev s) = s.
Proof.
  induction s as [|c s IH]; simpl; [reflexivity|].
  rewrite string_rev_app, IH. reflexivity.
Qed.

Lemma all_digits_app (a b : string) :
  all_digits (a ++ b) = all_digits a && all_digits b.
Proof.
  induction a as [|x a IH]; simpl; [reflexivity|].
  now rewrite IH, andb_assoc.
Qed.

Lemma all_digits_rev (s : string) : all_digits (string_rev s) = all_digits s.
Proof.
  induction s as [|c s IH]; simpl; [reflexivity|].
  rewrite all_digits_app, IH. simpl. rewrite andb_true_r. apply andb_comm.
Qed.

Lemma trim_digits (s : string) : all_digits s = true -> trim s = s.
Proof.
  intros H. destruct s as [|a r]; [reflexivity|].
  unfold trim, trimEnd.
  pose proof H as H'. simpl in H'. apply andb_true_iff in H' as [Ha _].
  rewrite (trimStart_digit a r Ha).
  pose proof (all_digits_rev (String a r)) as Hr. rewrite H in Hr.
  destruct (string_rev (String a r)) as [|z t] eqn:E.
  - apply (f_equal string_rev) in E. rewrite string_rev_involutive in E.
    discriminate.
  - simpl in Hr. apply andb_true_iff in Hr as [Hz _].
    rewrite (trimStart_rev_digit z t Hz), <- E. apply string_rev_involutive.
Qed.

Lemma all_digits_uint (d : Decimal.uint) :
  all_digits (NilEmpty.string_of_uint d) = true.
Proof. induction d; simpl; auto. Qed.

Lemma read_digits_step (c : ascii) (r : string) (acc : N) (k : nat) (d : N) :
  digit_of 10 c = Some d ->
  read_digits 10 (String c r) acc k = read_digits 10 r (acc * 10 + d)%N (S k).
Proof. intros H. simpl. now rewrite H. Qed.

Ltac step_digit IH a c v :=
  rewrite (read_digits_step c _ _ _ (N.of_nat v) eq_refl);
  replace (N.of_nat a * 10 + N.of_nat v)%N with (N.of_nat (v + Nat.tail_mul 10 a))
    by (rewrite Nat.tail_mul_spec; lia);
  rewrite IH;
  match goal with
  | |- (_, ?x, _) = (_, ?y, _) => replace x with y by lia
  end; reflexivity.

Lemma read_digits_uint (d : Decimal.uint) (a k : nat) :
  read_digits 10 (NilEmpty.string_of_uint d) (N.of_nat a) k
  = (N.of_nat (Nat.of_uint_acc d a), k + Decimal.nb_digits d, EmptyString).
Proof.
  revert a k.
  induction d as [|d IH|d IH|d IH|d IH|d IH|d IH|d IH|d IH|d IH|d IH];
    intros a k; cbn [NilEmpty.string_of_uint Nat.of_uint_acc Decimal.nb_digits].
  - simpl. now rewrite Nat.add_0_r.
  - step_digit IH a "0"%char 0.
  - step_digit IH a "1"%char 1.
  - step_digit IH a "2"%char 2.
  - step_digit IH a "3"%char 3.
  - step_digit IH a "4"%char 4.
  - step_digit IH a "5"%char 5.
  - step_digit IH a "6"%char 6.
  - step_digit IH a "7"%char 7.
  - step_digit IH a "8"%char 8.
  - step_digit IH a "9"%char 9.
Qed.

Lemma to_uint_not_Nil (n : nat) : Nat.to_uint n <> Decimal.Nil.
Proof.
  intros E. pose proof (DecimalNat.Unsigned.of_to n) as H. rewrite E in H.
  cbn in H. subst n. discriminate E.
Qed.

Lemma digit_first_eqb (a b : ascii) (r r' : string) :
  is_digit a = true -> is_digit b = false ->
  String.eqb (String a r) (String b r') = false.
Proof. intros Ha Hb. simpl. now rewrite (digit_not_letter a b Ha Hb). Qed.

Lemma radix_prefix_digits (s : string) :
  all_digits s = true -> radix_prefix s = None.
Proof.
  destruct s as [|a [|b r]]; try reflexivity.
  simpl. intros H. apply andb_true_iff in H as [_ H].
  apply andb_true_iff in H as [Hb _].
  unfold one_of.
  rewrite !(digit_not_letter b _ Hb) by reflexivity.
  destruct (Ascii.eqb a "0"); reflexivity.
Qed.

Lemma StringToNumber_uint (d : Decimal.uint) :
  d <> Decimal.Nil ->
  StringToNumber (NilEmpty.string_of_uint d)
  = Finite false (N.of_nat (Nat.of_uint d)) 0.
Proof.
  intros Hd. unfold StringToNumber.
  rewrite (trim_digits _ (all_digits_uint d)).
  pose proof (all_digits_uint d) as Hall.
  pose proof (read_digits_uint d 0 0) as Hread.
  destruct (NilEmpty.string_of_uint d) as [|a r] eqn:E.
  - destruct d; try congruence; discriminate E.
  - rewrite (radix_prefix_digits _ Hall).
    pose proof Hall as Ha. simpl in Ha. apply andb_true_iff in Ha as [Ha _].
    rewrite !(digit_not_letter a _ Ha) by reflexivity.
    unfold unsigned_decimal.
    rewrite (digit_first_eqb a "I" r "nfinity" Ha) by reflexivity.
    change (N.of_nat 0) with 0%N in Hread. rewrite Hread.
    destruct d; try congruence; reflexivity.
Qed.

Lemma parseValue_nat (n : nat) :
  parseValue (string_of_nat n) = VNumber (Finite false (N.of_nat n) 0).
Proof.
  unfold parseValue, string_of_nat.
  pose proof (StringToNumber_uint (Nat.to_uint n) (to_uint_not_Nil n)) as Hnum.
  rewrite DecimalNat.Unsigned.of_to in Hnum.
  pose proof (all_digits_uint (Nat.to_uint n)) as Hall.
  pose proof (trim_digits _ Hall) as Htrim.
  destruct (NilEmpty.string_of_uint (Nat.to_uint n)) as [|a r] eqn:E.
  - exfalso. pose proof (to_uint_not_Nil n) as Hn.
    destruct (Nat.to_uint n); try congruence; discriminate E.
  - simpl in Hall. apply andb_true_iff in Hall as [Ha _].
    rewrite (digit_first_eqb a "t" r "rue" Ha) by reflexivity.
    rewrite (digit_first_eqb a "f" r "alse" Ha) by reflexivity.
    rewrite (digit_first_eqb a "n" r "ull" Ha) by reflexivity.
    rewrite (digit_first_eqb a "u" r "ndefined" Ha) by reflexivity.
    rewrite Htrim, Hnum. reflexivity.
Qed.

(** C6. [parseValue] turns the four words into their constants, a string
    that parses fully as a number into that number, the decimal numeral of
    every natural number included, and keeps every other string. *)
Theorem parseValue_coercion :
  parseValue "true" = VBool true
  /\ parseValue "false" = VBool false
  /\ parseValue "null" = VNull
  /\ parseValue "undefined" = VUndefined
  /\ parseValue "42" = VNumber (Finite false 42 0)
  /\ parseValue "99.99" = VNumber (Finite false 9999 (-2))
  /\ (forall n : nat, parseValue (string_of_nat n) = VNumber (Finite false (N.of_nat n) 0))
  /\ (forall s, keyword s = false -> numeric s = true ->
        parseValue s = VNumber (StringToNumber s) /\ StringToNumber s <> NaN)
  /\ (forall s, keyword s = false -> numeric s = false -> parseValue s = VString s).
Proof.
  repeat (split; [reflexivity|]).
  split; [exact parseValue_nat|].
  split; intros s Hk Hn; unfold keyword in Hk;
    apply orb_false_iff in Hk as [Hk H4]; apply orb_false_iff in Hk as [Hk H3];
    apply orb_false_iff in Hk as [H1 H2];
    unfold parseValue, numeric in *; rewrite H1, H2, H3, H4, Hn.
  - split; [reflexivity|].
    apply andb_true_iff in Hn as [Hn _]. intros E. rewrite E in Hn. discriminate.
  - reflexivity.
Qed.

Lemma parseValue_coercion_witness :
  parseValue " 7 " = VNumber (Finite false 7 0)
  /\ parseValue "12px" = VString "12px"
  /\ parseValue "   " = VString "   ".
Proof.
  destruct parseValue_coercion as (_ & _ & _ & _ & _ & _ & _ & Hnum & Hstr).
  split; [|split].
  - exact (proj1 (Hnum " 7 " eq_refl eq_refl)).
  - exact (Hstr "12px" eq_refl eq_refl).
  - exact (Hstr "   " eq_refl eq_refl).
Defined.

(* ================================================================== *)
(** * Markdown: the feature name *)
(* ================================================================== *)

Lemma md_loop_featureName (P : Platform) (tokens : list Token) (st : MdState) :
  featureName (fold_left (md_step P) tokens st)
  = if nonempty (featureName st) then featureName st
    else match first_titled_h1 tokens with
         | Some h => h
         | None => EmptyString
         end.
Proof.
  revert st. induction tokens as [|token rest IH]; intros st.
  - simpl. destruct (featureName st); reflexivity.
  - cbn [fold_left]. rewrite IH. clear IH.
    destruct token as [depth text|text|header rows|ty].
    + cbn [md_step first_titled_h1].
      destruct (nonempty (featureName st)) eqn:E.
      * rewrite andb_false_r. rewrite E. destruct depth as [|[|depth]]; reflexivity.
      * rewrite andb_true_r.
        destruct depth as [|[|depth]]; cbn [Nat.eqb featureName]; rewrite ?E; try reflexivity.
        destruct text as [|c text]; [|reflexivity].
        cbn [nonempty]. destruct (featureName st); [reflexivity | discriminate].
    + cbn [md_step first_titled_h1].
      destruct (md_description st) as [[|c d]|]; reflexivity.
    + reflexivity.
    + reflexivity.
Qed.

Lemma parse_markdown (P : Platform) (tablePath : string)
    (format : option DecisionTableFormat) (fileContent : string) :
  readFile P tablePath = Ok fileContent ->
  match format with Some f => Ok f | None => detectFormat P tablePath end = Ok markdown ->
  parse P tablePath format = Ok (Assembled (parseMarkdown P fileContent tablePath)).
Proof. intros Hr Hf. unfold parse. rewrite Hr. cbn [bind]. now rewrite Hf. Qed.

(** C1, as amended. A Markdown document keeps the feature name derived from
    the file name whenever that name is not empty; only when it is empty
    does the first level-1 heading with a text set the feature name. *)
Theorem markdown_feature_name (P : Platform) (tablePath : string)
    (format : option DecisionTableFormat) (fileContent : string) :
  readFile P tablePath = Ok fileContent ->
  match format with Some f => Ok f | None => detectFormat P tablePath end = Ok markdown ->
  exists t,
    parse P tablePath format = Ok (Assembled t)
    /\ feature t
       = if nonempty (extractFeatureName P tablePath)
         then extractFeatureName P tablePath
         else match first_titled_h1 (marked_lexer P fileContent) with
              | Some h => h
              | None => EmptyString
              end.
Proof.
  intros Hr Hf. exists (parseMarkdown P fileContent tablePath).
  split; [now apply parse_markdown|].
  unfold parseMarkdown. cbn [feature]. now rewrite md_loop_featureName.
Qed.

Lemma markdown_feature_name_witness :
  (exists t,
     parse (markdown_platform login_tokens) "specs/-decision-table.md" None
     = Ok (Assembled t)
     /\ feature t = "Login Feature")
  /\ (exists t,
        parse (markdown_platform login_tokens) "specs/checkout_flow.md" (Some markdown)
        = Ok (Assembled t)
        /\ feature t = "Checkout Flow").
Proof.
  split.
  - destruct (markdown_feature_name (markdown_platform login_tokens)
                "specs/-decision-table.md" None "" eq_refl eq_refl) as [t [H1 H2]].
    exists t. split; [exact H1 | exact H2].
  - destruct (markdown_feature_name (markdown_platform login_tokens)
                "specs/checkout_flow.md" (Some markdown) "" eq_refl eq_refl)
      as [t [H1 H2]].
    exists t. split; [exact H1 | exact H2].
Defined.

(** C1 as stated fails on the document of the repository's own test: the
    first level-1 heading reads Login Feature and the feature is Table. *)
Lemma heading_does_not_name_feature :
  first_h1 login_tokens = Some "Login Feature"
  /\ exists t,
       parse (markdown_platform login_tokens) "/tmp/decision-table-tests/table.md"
         (Some markdown) = Ok (Assembled t)
       /\ feature t = "Table"
       /\ feature t <> "Login Feature"
       /\ List.length (test_cases t) = 2.
Proof.
  split; [reflexivity|].
  eexists. split; [reflexivity|].
  split; [reflexivity|]. split; [vm_compute; discriminate | reflexivity].
Qed.

(* ================================================================== *)
(** * Plain objects: enumeration order *)
(* ================================================================== *)

Lemma insert_by_index_perm {A : Type} (i : N) (x : A) (l : list (N * A)) :
  Permutation (insert_by_index i x l) ((i, x) :: l).
Proof.
  induction l as [|[j y] l IH]; simpl; [reflexivity|].
  destruct (i <? j)%N; [reflexivity|].
  rewrite IH. apply perm_swap.
Qed.

Lemma index_props_perm {A : Type} (o : JsObject A) :
  Permutation (map snd (index_props o)) (filter (fun kv => is_index (fst kv)) o).
Proof.
  induction o as [|[k v] o IH]; simpl; [reflexivity|].
  unfold is_index at 1. simpl. destruct (array_index k) as [i|].
  - rewrite insert_by_index_perm. simpl. now apply perm_skip.
  - exact IH.
Qed.

Lemma partition_perm {A : Type} (f : A -> bool) (l : list A) :
  Permutation (filter f l ++ filter (fun x => negb (f x)) l)%list l.
Proof.
  induction l as [|x l IH]; simpl; [reflexivity|].
  destruct (f x); simpl.
  - now apply perm_skip.
  - rewrite <- Permutation_middle. now apply perm_skip.
Qed.

Lemma named_props_filter {A : Type} (o : JsObject A) :
  named_props o = filter (fun kv => negb (is_index (fst kv))) o.
Proof.
  unfold named_props. apply filter_ext. intros [k v]. unfold is_index. simpl.
  destruct (array_index k); reflexivity.
Qed.

Lemma Object_entries_perm {A : Type} (o : JsObject A) :
  Permutation (Object_entries o) o.
Proof.
  unfold Object_entries. rewrite index_props_perm, named_props_filter.
  apply partition_perm.
Qed.

Lemma Object_entries_length {A : Type} (o : JsObject A) :
  List.length (Object_entries o) = List.length o.
Proof. apply Permutation_length, Object_entries_perm. Qed.

Lemma Object_entries_In {A : Type} (o : JsObject A) (kv : string * A) :
  In kv (Object_entries o) <-> In kv o.
Proof.
  split; apply Permutation_in;
    [apply Object_entries_perm | apply Permutation_sym, Object_entries_perm].
Qed.



(* ================================================================== *)
(** * Row conversion: the synthesized name *)
(* ================================================================== *)




(* ================================================================== *)
(** * Identifiers *)
(* ================================================================== *)







Lemma read_back_padded (k : nat) (d : Decimal.uint) :
  read_back (repeat_char "0" k ++ NilEmpty.string_of_uint d) = Some (Nat.of_uint d).
Proof.
  unfold read_back. induction k as [|k IH]; simpl.
  - now rewrite NilEmpty.usu.
  - destruct (NilEmpty.uint_of_string (repeat_char "0" k ++ NilEmpty.string_of_uint d))
      as [u|]; [|discriminate].
    simpl in *. exact IH.
Qed.

Lemma auto_id_injective (i j : nat) : auto_id i = auto_id j -> i = j.
Proof.
  unfold auto_id, padStart, string_of_nat. intros E.
  injection E as E. apply (f_equal read_back) in E.
  rewrite !read_back_padded, !DecimalNat.Unsigned.of_to in E.
  injection E as E. lia.
Qed.





(** A supplied id is kept as it is, also when it is the one the next row is
    given. *)
Example supplied_id_meets_auto_id :
  map tc_id (convertRowsToTestCases bare_platform
               [ [("id", "TC002"); ("status", "active")]; [("status", "locked")] ])
  = ["TC002"; "TC002"].
Proof. reflexivity. Qed.

(** The synthesized name starts from the row itself, structural columns
    included. *)
Example structural_columns_in_name :
  tc_name (convertRowToTestCase bare_platform id_first_row 0) = "id: TC9, email: a@b.c".
Proof. reflexivity. Qed.

(* ================================================================== *)
(** * JSON documents *)
(* ================================================================== *)

Lemma get_defined (v : JsVal) (k : string) :
  defined v = true -> get v k = Ok (prop v k).
Proof. destruct v; simpl; intros H; try discriminate; reflexivity. Qed.

Lemma entries_of_defined (v : JsVal) :
  defined v = true -> exists entries, entries_of v = Ok entries.
Proof. destruct v; simpl; intros H; try discriminate; eexists; reflexivity. Qed.

Lemma convertRule_ok (P : Platform) (rule : JsVal) (index : nat) :
  convertible rule = true ->
  exists name,
    convertRule P rule index
    = Ok {| rc_id := js_or (prop rule "id") (VString (auto_id index));
            rc_name := name;
            rc_description := prop rule "description";
            rc_conditions := prop rule "conditions";
            rc_actions := js_or (prop rule "actions") (VArray []);
            rc_expected_results := js_or (prop rule "expected") (VArray []);
            rc_priority := js_or (prop rule "priority") (VString "medium");
            rc_tags := js_or (prop rule "tags") (VArray []) |}
    /\ (truthy (prop rule "name") = true -> name = prop rule "name").
Proof.
  unfold convertible. intros H. apply andb_true_iff in H as [Hd Hn].
  unfold convertRule. rewrite !(get_defined rule _ Hd). cbn [bind].
  destruct (truthy (prop rule "name")) eqn:En.
  - cbn [bind]. eexists. split; [reflexivity | reflexivity].
  - simpl in Hn. unfold generateTestName.
    destruct (entries_of_defined _ Hn) as [entries He]. rewrite He. cbn [bind].
    eexists. split; [reflexivity | discriminate].
Qed.

Lemma convertRules_ok (P : Platform) (rules : list JsVal) (index : nat) :
  forallb convertible rules = true ->
  exists tcs,
    convertRules P rules index = Ok tcs
    /\ List.length tcs = List.length rules
    /\ forall i rule,
         nth_error rules i = Some rule ->
         exists rc,
           nth_error tcs i = Some rc
           /\ rc_id rc = js_or (prop rule "id") (VString (auto_id (index + i)))
           /\ rc_actions rc = js_or (prop rule "actions") (VArray [])
           /\ rc_expected_results rc = js_or (prop rule "expected") (VArray [])
           /\ rc_priority rc = js_or (prop rule "priority") (VString "medium")
           /\ rc_tags rc = js_or (prop rule "tags") (VArray []).
Proof.
  revert index. induction rules as [|rule rules IH]; intros index H.
  - exists []. split; [reflexivity|]. split; [reflexivity|].
    intros [|i] r Hr; discriminate.
  - simpl in H. apply andb_true_iff in H as [H1 H2].
    destruct (convertRule_ok P rule index H1) as [name [Hc _]].
    destruct (IH (S index) H2) as [tcs (Ht & Hl & Hnth)].
    cbn [convertRules]. rewrite Hc. cbn [bind]. rewrite Ht. cbn [bind].
    eexists. split; [reflexivity|]. split; [simpl; now rewrite Hl|].
    intros [|i] r Hr.
    + injection Hr as <-. eexists. split; [reflexivity|].
      cbn. rewrite Nat.add_0_r. repeat split; reflexivity.
    + destruct (Hnth i r Hr) as [rc (Hrc & Hrest)].
      exists rc. split; [exact Hrc|].
      now rewrite Nat.add_succ_r.
Qed.

Ltac read_props Hd :=
  repeat first [ rewrite (get_defined _ _ Hd) | progress cbn [bind] ].

Lemma parseJSON_as_is (P : Platform) (content filePath : string) (data : JsVal) :
  JSON_parse P content = Ok data -> has_shape_a data = true ->
  parseJSON P content filePath = Ok (AsIs data).
Proof.
  unfold has_shape_a. intros Hp H. apply andb_true_iff in H as [Hf Ht].
  assert (Hd : defined data = true) by (destruct data; try discriminate; reflexivity).
  unfold parseJSON. rewrite Hp. read_props Hd. rewrite Hf. read_props Hd.
  now rewrite Ht.
Qed.

Lemma parseJSON_rules (P : Platform) (content filePath : string) (data : JsVal)
    (rules : list JsVal) :
  JSON_parse P content = Ok data ->
  has_shape_a data = false ->
  truthy (prop data "feature") = true ->
  prop data "rules" = VArray rules ->
  forall tcs, convertRules P rules 0 = Ok tcs ->
  parseJSON P content filePath
  = Ok (FromRules {| rt_feature := prop data "feature";
                     rt_description := prop data "description";
                     rt_test_cases := tcs;
                     rt_source := filePath;
                     rt_format := json |}).
Proof.
  unfold has_shape_a. intros Hp Ha Hf Hr tcs Hc.
  rewrite Hf in Ha. simpl in Ha.
  assert (Hd : defined data = true) by (destruct data; try discriminate; reflexivity).
  unfold parseJSON. rewrite Hp.
  repeat first [ rewrite Hf | rewrite Ha | rewrite (get_defined _ _ Hd)
               | progress cbn [bind] ].
  rewrite Hr. cbn [truthy]. rewrite Hc. read_props Hd. reflexivity.
Qed.

Lemma parseJSON_invalid (P : Platform) (content filePath : string) (data : JsVal) :
  JSON_parse P content = Ok data ->
  defined data = true ->
  has_shape_a data = false -> has_shape_b data = false ->
  parseJSON P content filePath = Raise (Throw PlainError invalid_json_message).
Proof.
  unfold has_shape_a, has_shape_b. intros Hp Hd Ha Hb.
  unfold parseJSON. rewrite Hp. read_props Hd.
  destruct (truthy (prop data "feature")) eqn:Hf.
  - simpl in Ha, Hb.
    repeat first [ rewrite Hf | rewrite Ha | rewrite Hb | rewrite (get_defined _ _ Hd)
                 | progress cbn [bind] ].
    reflexivity.
  - repeat first [ rewrite Hf | rewrite (get_defined _ _ Hd) | progress cbn [bind] ].
    reflexivity.
Qed.

(** C7, as amended. The two shapes are tested by truthiness. A document whose
    feature and test_cases are both truthy is returned as it is. Otherwise a
    document whose feature is truthy and whose rules are an array of
    convertible rules is mapped rule by rule: id and TC index, actions,
    expected results and tags defaulting to the empty array and priority to
    medium. Every other document that is not null, its feature falsy or its
    test_cases and rules both falsy, throws the error whose message names
    feature, test_cases and rules. *)
Theorem parseJSON_shapes (P : Platform) (content filePath : string) (data : JsVal) :
  JSON_parse P content = Ok data ->
  (has_shape_a data = true -> parseJSON P content filePath = Ok (AsIs data))
  /\ (forall rules,
        has_shape_a data = false ->
        truthy (prop data "feature") = true ->
        prop data "rules" = VArray rules ->
        forallb convertible rules = true ->
        exists tcs,
          parseJSON P content filePath
          = Ok (FromRules {| rt_feature := prop data "feature";
                             rt_description := prop data "description";
                             rt_test_cases := tcs;
                             rt_source := filePath;
                             rt_format := json |})
          /\ List.length tcs = List.length rules
          /\ forall i rule,
               nth_error rules i = Some rule ->
               exists rc,
                 nth_error tcs i = Some rc
                 /\ rc_id rc = js_or (prop rule "id") (VString (auto_id i))
                 /\ rc_actions rc = js_or (prop rule "actions") (VArray [])
                 /\ rc_expected_results rc = js_or (prop rule "expected") (VArray [])
                 /\ rc_priority rc = js_or (prop rule "priority") (VString "medium")
                 /\ rc_tags rc = js_or (prop rule "tags") (VArray []))
  /\ (defined data = true ->
      has_shape_a data = false -> has_shape_b data = false ->
      parseJSON P content filePath = Raise (Throw PlainError invalid_json_message))
  /\ includes "feature" invalid_json_message = true
  /\ includes "test_cases" invalid_json_message = true
  /\ includes "rules" invalid_json_message = true.
Proof.
  intros Hp. split; [now apply parseJSON_as_is|].
  split.
  - intros rules Ha Hf Hr Hall.
    destruct (convertRules_ok P rules 0 Hall) as [tcs (Hc & Hl & Hn)].
    exists tcs. split; [now apply (parseJSON_rules P content filePath data rules)|].
    split; [exact Hl|]. exact Hn.
  - split; [now apply parseJSON_invalid|].
    repeat split; reflexivity.
Qed.

Lemma parseJSON_shapes_witness :
  exists tcs,
    parseJSON (json_platform payment_rules) "" "rules.json"
    = Ok (FromRules {| rt_feature := VString "Payment Processing";
                       rt_description := VUndefined;
                       rt_test_cases := tcs;
                       rt_source := "rules.json";
                       rt_format := json |})
    /\ List.length tcs = 1
    /\ exists rc,
         nth_error tcs 0 = Some rc
         /\ rc_id rc = VString "PAY001"
         /\ rc_actions rc = VArray []
         /\ rc_expected_results rc = VArray [VString "Payment successful"]
         /\ rc_priority rc = VString "medium"
         /\ rc_tags rc = VArray [].
Proof.
  destruct (proj1 (proj2 (parseJSON_shapes (json_platform payment_rules) ""
                            "rules.json" payment_rules eq_refl))
              _ eq_refl eq_refl eq_refl eq_refl) as [tcs (H1 & H2 & H3)].
  exists tcs. split; [exact H1|]. split; [exact H2|].
  exact (H3 0 _ eq_refl).
Defined.

(** C7 as stated fails twice. A document that has both fields of the first
    shape, the feature being the empty string, is not returned as it is; and
    the document null, of neither shape, is answered by a TypeError whose
    message names neither shape. *)
Lemma json_shapes_by_truthiness :
  (prop empty_feature "feature" = VString ""
   /\ prop empty_feature "test_cases" = VArray []
   /\ parseJSON (json_platform empty_feature) "" "table.json"
      = Raise (Throw PlainError invalid_json_message))
  /\ parseJSON (json_platform VNull) "" "table.json"
     = Raise (Throw TypeError "Cannot read properties of null (reading 'feature')")
  /\ includes "rules" "Cannot read properties of null (reading 'feature')" = false.
Proof. repeat split; reflexivity. Qed.

(** A rule with neither name nor conditions stops the mapping. *)
Example rule_without_conditions :
  parseJSON
    (json_platform
       (VObject [ ("feature", VString "Pay");
                  ("rules", VArray [VObject [("id", VString "PAY001")]]) ]))
    "" "rules.json"
  = Raise (Throw TypeError "Cannot convert undefined or null to object").
Proof. reflexivity. Qed.

(* ================================================================== *)
(** * Grouping *)
(* ================================================================== *)

Lemma group_step_unmatched (all : list TestSteps) (groups : JsObject (list Joined))
    (tc : TestCase) :
  matched all tc = false -> group_step all groups tc = Ok groups.
Proof.
  unfold matched, group_step. destruct (find_steps all (tc_id tc)); [discriminate|reflexivity].
Qed.

Lemma group_loop_filter (all : list TestSteps) (testCases : list TestCase)
    (groups : JsObject (list Joined)) :
  group_loop all (filter (matched all) testCases) groups = group_loop all testCases groups.
Proof.
  revert groups. induction testCases as [|tc rest IH]; intros groups; [reflexivity|].
  cbn [filter]. destruct (matched all tc) eqn:E.
  - cbn [group_loop]. destruct (group_step all groups tc); cbn [bind]; [apply IH|reflexivity].
  - cbn [group_loop]. rewrite (group_step_unmatched all groups tc E). cbn [bind]. apply IH.
Qed.

Lemma In_overwrite {A : Type} (o : JsObject A) (k : string) (v : A) (kv : string * A) :
  In kv (overwrite o k v) -> kv = (k, v) \/ In kv o.
Proof.
  induction o as [|[k' v'] o IH]; simpl; [tauto|].
  destruct (String.eqb k' k) eqn:E.
  - apply String.eqb_eq in E. subst. simpl. intros [H|H]; [left; now symmetry | right; now right].
  - simpl. intros [H|H]; [right; now left|]. destruct (IH H); [now left | right; now right].
Qed.

Lemma own_In {A : Type} (o : JsObject A) (k : string) (v : A) :
  own o k = Some v -> In (k, v) o.
Proof.
  induction o as [|[k' v'] o IH]; simpl; [discriminate|].
  destruct (String.eqb k' k) eqn:E.
  - apply String.eqb_eq in E. subst. intros [= ->]. now left.
  - intros H. right. now apply IH.
Qed.

Lemma In_obj_set_new {A : Type} (o : JsObject A) (k : string) (v : A) (kv : string * A) :
  own o k = None -> In kv (obj_set o k v) -> kv = (k, v) \/ In kv o.
Proof.
  unfold obj_set, push. intros Hown.
  destruct (String.eqb k "__proto__"); [now right|].
  rewrite Hown. intros H. apply in_app_or in H as [H|[H|[]]]; [now right | left; now symmetry].
Qed.

Lemma group_step_joined (all : list TestSteps) (groups groups' : JsObject (list Joined))
    (tc : TestCase) :
  joined_by_id all groups -> group_step all groups tc = Ok groups' ->
  joined_by_id all groups'.
Proof.
  unfold group_step. intros Hj.
  destruct (find_steps all (tc_id tc)) as [st|] eqn:Ef.
  - destruct (own groups (group_name tc)) as [bucket|] eqn:Eo.
    + intros [= <-]. intros g tests tc' st' Hin Hin'.
      apply In_overwrite in Hin as [Hin|Hin].
      * injection Hin as -> ->. unfold push in Hin'.
        apply in_app_or in Hin' as [Hin'|[Hin'|[]]].
        -- eapply Hj; [apply (own_In _ _ _ Eo) | exact Hin'].
        -- now injection Hin' as <- <-.
      * eapply Hj; eauto.
    + destruct (inherited (group_name tc)); [discriminate|].
      intros [= <-]. intros g tests tc' st' Hin Hin'.
      apply (In_obj_set_new _ _ _ _ Eo) in Hin as [Hin|Hin].
      * injection Hin as -> ->. destruct Hin' as [Hin'|[]].
        now injection Hin' as <- <-.
      * eapply Hj; eauto.
  - now intros [= <-].
Qed.

Lemma group_loop_joined (all : list TestSteps) (testCases : list TestCase)
    (groups groups' : JsObject (list Joined)) :
  joined_by_id all groups -> group_loop all testCases groups = Ok groups' ->
  joined_by_id all groups'.
Proof.
  revert groups. induction testCases as [|tc rest IH]; intros groups Hj.
  - now intros [= <-].
  - cbn [group_loop]. destruct (group_step all groups tc) as [g1|e] eqn:E; cbn [bind].
    + apply IH. eapply group_step_joined; eauto.
    + discriminate.
Qed.

Lemma groupTestCases_joined (testCases : list TestCase) (all : list TestSteps)
    (groups : JsObject (list Joined)) :
  groupTestCases testCases all = Ok groups -> joined_by_id all groups.
Proof.
  apply group_loop_joined. intros g tests tc st [].
Qed.

(* ================================================================== *)
(** * The loop over the groups *)
(* ================================================================== *)

Lemma loop_trace (P : Platform) (request : TestCodeGenerationRequest)
    (entries : list (string * list Joined)) (st : LoopState P) :
  generatedFiles P (fold_left (generate_step P request) entries st)
  = (generatedFiles P st ++ files_of (attempts P request (world P st) entries))%list
  /\ errors_ P (fold_left (generate_step P request) entries st)
     = (errors_ P st ++ errors_of (attempts P request (world P st) entries))%list.
Proof.
  revert st. induction entries as [|[groupName tests] rest IH]; intros st.
  - simpl. now rewrite !app_nil_r.
  - cbn [fold_left attempts]. destruct (IH (generate_step P request st (groupName, tests)))
      as [IH1 IH2]. rewrite IH1, IH2. clear IH IH1 IH2.
    unfold generate_step.
    destruct (generateTestFile P (world P st) groupName tests (req_framework request)
                (language_or_default request) (style_or_default request)
                (output_path request)) as [w' [file|e]];
      cbn [world generatedFiles errors_ files_of errors_of flat_map fst snd push];
      unfold push; fold (files_of (attempts P request w' rest));
      fold (errors_of (attempts P request w' rest));
      rewrite <- ?app_assoc; split; reflexivity.
Qed.

Lemma attempts_names (P : Platform) (request : TestCodeGenerationRequest)
    (w : World P) (entries : list (string * list Joined)) :
  map fst (attempts P request w entries) = map fst entries.
Proof.
  revert w. induction entries as [|[groupName tests] rest IH]; intros w; [reflexivity|].
  cbn [attempts].
  destruct (generateTestFile P w groupName tests (req_framework request)
              (language_or_default request) (style_or_default request)
              (output_path request)) as [w' r].
  simpl. now rewrite IH.
Qed.

Lemma attempts_split (trace : list (string * Result GeneratedFile)) :
  List.length (files_of trace) + List.length (errors_of trace) = List.length trace.
Proof.
  induction trace as [|[g [f|e]] trace IH]; simpl; [reflexivity | |]; lia.
Qed.

Lemma attempts_from_group (P : Platform) (request : TestCodeGenerationRequest)
    (w : World P) (entries : list (string * list Joined)) :
  Forall (from_group P request entries) (files_of (attempts P request w entries)).
Proof.
  revert w. induction entries as [|[groupName tests] rest IH]; intros w; [constructor|].
  cbn [attempts]. unfold generateTestFile.
  destruct (writeFile P w _ _) as [w' [e|]]; cbn [files_of flat_map snd app].
  - fold (files_of (attempts P request w' rest)).
    eapply Forall_impl; [|apply IH].
    intros f (g & t & Hin & H). exists g, t. split; [now right | exact H].
  - fold (files_of (attempts P request w' rest)). constructor.
    + exists groupName, tests. split; [now left|]. repeat split; reflexivity.
    + eapply Forall_impl; [|apply IH].
      intros f (g & t & Hin & H). exists g, t. split; [now right | exact H].
Qed.


(** What [generate] answers once the directory exists and the groups are
    made. *)
Lemma generate_setup_ok (P : Platform) (w w1 : World P)
    (request : TestCodeGenerationRequest) (groups : JsObject (list Joined)) :
  mkdir P w (output_path request) = (w1, None) ->
  groupTestCases (req_test_cases request) (req_steps request) = Ok groups ->
  let trace := attempts P request w1 (Object_entries groups) in
  snd (generate P w request)
  = {| files_generated := files_of trace;
       total_tests := List.length (req_test_cases request);
       success := match errors_of trace with [] => true | _ => false end;
       errors := match errors_of trace with [] => None | es => Some es end |}.
Proof.
  intros Hm Hg trace. unfold generate. rewrite Hm, Hg. cbn [snd].
  destruct (loop_trace P request (Object_entries groups)
              {| world := w1; generatedFiles := []; errors_ := [] |}) as [H1 H2].
  cbn [world generatedFiles errors_ app] in H1, H2.
  fold trace in H1, H2. now rewrite H1, H2.
Qed.

(** C8. Every group is attempted, whatever the attempts before it came to:
    a write that fails leaves its message in the error list, a write that
    succeeds leaves its file, in the order of the groups; and the result
    reports success exactly when it carries no error. *)
Theorem generate_collects_errors (P : Platform) (w : World P)
    (request : TestCodeGenerationRequest) :
  (success (snd (generate P w request)) = true
   <-> errors (snd (generate P w request)) = None)
  /\ (forall es, errors (snd (generate P w request)) = Some es -> es <> [])
  /\ (forall w1 groups,
        mkdir P w (output_path request) = (w1, None) ->
        groupTestCases (req_test_cases request) (req_steps request) = Ok groups ->
        let trace := attempts P request w1 (Object_entries groups) in
        map fst trace = map fst (Object_entries groups)
        /\ List.length trace = List.length groups
        /\ files_generated (snd (generate P w request)) = files_of trace
        /\ errors (snd (generate P w request))
           = match errors_of trace with [] => None | es => Some es end
        /\ (success (snd (generate P w request)) = true <-> errors_of trace = [])
        /\ List.length (files_generated (snd (generate P w request)))
           + List.length (errors_of trace) = List.length groups).
Proof.
  split; [|split].
  - unfold generate.
    destruct (mkdir P w (output_path request)) as [w1 [e|]];
      [cbn; split; discriminate|].
    destruct (groupTestCases (req_test_cases request) (req_steps request)) as [g|e];
      [|cbn; split; discriminate].
    cbn [snd success errors].
    destruct (errors_ P _); split; congruence.
  - unfold generate. intros es.
    destruct (mkdir P w (output_path request)) as [w1 [e|]];
      [cbn; intros [= <-]; discriminate|].
    destruct (groupTestCases (req_test_cases request) (req_steps request)) as [g|e];
      [|cbn; intros [= <-]; discriminate].
    cbn [snd errors]. destruct (errors_ P _); [discriminate|].
    intros [= <-]. discriminate.
  - intros w1 groups Hm Hg trace.
    rewrite (generate_setup_ok P w w1 request groups Hm Hg). fold trace.
    cbn [files_generated errors success].
    assert (Hlen : List.length trace = List.length groups).
    { rewrite <- (length_map fst trace). unfold trace.
      now rewrite attempts_names, length_map, Object_entries_length. }
    split; [apply attempts_names|].
    split; [exact Hlen|].
    split; [reflexivity|]. split; [reflexivity|].
    split; [destruct (errors_of trace); split; congruence|].
    now rewrite attempts_split.
Qed.

Lemma generate_collects_errors_witness :
  map path (files_generated (snd (generate (refusing ["out/a.spec.ts"]) []
                                    (two_groups playwright))))
  = ["out/b.spec.ts"]
  /\ errors (snd (generate (refusing ["out/a.spec.ts"]) [] (two_groups playwright)))
     = Some ["Failed to generate a: EACCES: permission denied, open 'out/a.spec.ts'"].
Proof.
  destruct (proj2 (proj2 (generate_collects_errors (refusing ["out/a.spec.ts"]) []
                            (two_groups playwright)))
              [] _ eq_refl eq_refl) as (_ & _ & Hfiles & Herrors & _).
  rewrite Hfiles, Herrors. split; reflexivity.
Defined.

(* ================================================================== *)
(** * Test cases without steps *)
(* ================================================================== *)

Lemma generate_without_unmatched (P : Platform) (w : World P)
    (request : TestCodeGenerationRequest) :
  fst (generate P w (without_unmatched request)) = fst (generate P w request)
  /\ files_generated (snd (generate P w (without_unmatched request)))
     = files_generated (snd (generate P w request))
  /\ errors (snd (generate P w (without_unmatched request)))
     = errors (snd (generate P w request))
  /\ success (snd (generate P w (without_unmatched request)))
     = success (snd (generate P w request)).
Proof.
  unfold generate. cbn [output_path without_unmatched req_test_cases req_steps].
  destruct (mkdir P w (output_path request)) as [w1 [e|]];
    [now (split; [|split; [|split]])|].
  unfold groupTestCases. rewrite group_loop_filter.
  destruct (group_loop (req_steps request) (req_test_cases request) []) as [groups|e];
    now (split; [|split; [|split]]).
Qed.

Lemma generate_from_groups (P : Platform) (w : World P)
    (request : TestCodeGenerationRequest) (groups : JsObject (list Joined)) :
  groupTestCases (req_test_cases request) (req_steps request) = Ok groups ->
  Forall (from_group P request groups) (files_generated (snd (generate P w request))).
Proof.
  intros Hg.
  destruct (mkdir P w (output_path request)) as [w1 [e|]] eqn:Hm.
  - unfold generate. rewrite Hm. constructor.
  - rewrite (generate_setup_ok P w w1 request groups Hm Hg). cbn [files_generated].
    eapply Forall_impl; [|apply attempts_from_group].
    intros f (g & t & Hin & H). exists g, t. split; [|exact H].
    now apply Object_entries_In.
Qed.

(** C2, as amended. A test case whose id matches no steps contributes to no
    generated file: every file is the rendering of one group, every test
    case of a group was found steps by its id, and taking the test cases
    without steps out of the request changes neither the files nor the
    errors nor what is written. Once the output directory is made and the
    groups are built, total_tests is the number of test cases of the
    request, those without steps included; when the directory cannot be
    made there is no file and total_tests is 0. *)
Theorem unmatched_case_and_total (P : Platform) (w : World P)
    (request : TestCodeGenerationRequest) :
  (fst (generate P w (without_unmatched request)) = fst (generate P w request)
   /\ files_generated (snd (generate P w (without_unmatched request)))
      = files_generated (snd (generate P w request))
   /\ errors (snd (generate P w (without_unmatched request)))
      = errors (snd (generate P w request)))
  /\ (forall groups,
        groupTestCases (req_test_cases request) (req_steps request) = Ok groups ->
        Forall (from_group P request groups) (files_generated (snd (generate P w request)))
        /\ forall groupName tests tc st,
             In (groupName, tests) groups -> In (tc, st) tests ->
             find_steps (req_steps request) (tc_id tc) = Some st)
  /\ (forall w1 groups,
        mkdir P w (output_path request) = (w1, None) ->
        groupTestCases (req_test_cases request) (req_steps request) = Ok groups ->
        total_tests (snd (generate P w request)) = List.length (req_test_cases request))
  /\ (forall w1 e,
        mkdir P w (output_path request) = (w1, Some e) ->
        files_generated (snd (generate P w request)) = []
        /\ total_tests (snd (generate P w request)) = 0).
Proof.
  split; [|split; [|split]].
  - destruct (generate_without_unmatched P w request) as (H1 & H2 & H3 & _).
    now (split; [|split]).
  - intros groups Hg. split; [now apply generate_from_groups|].
    exact (groupTestCases_joined _ _ _ Hg).
  - intros w1 groups Hm Hg. now rewrite (generate_setup_ok P w w1 request groups Hm Hg).
  - intros w1 e Hm. unfold generate. rewrite Hm. split; reflexivity.
Qed.

Lemma unmatched_case_and_total_witness :
  find_steps (req_steps (two_groups playwright)) "TC003" = None
  /\ total_tests (snd (generate (refusing []) [] (two_groups playwright))) = 3
  /\ map test_count (files_generated (snd (generate (refusing []) [] (two_groups playwright))))
     = [1; 1].
Proof.
  split; [reflexivity|]. split; [|reflexivity].
  exact (proj1 (proj2 (proj2 (unmatched_case_and_total (refusing []) []
                                (two_groups playwright))))
           [] _ eq_refl eq_refl).
Defined.

(** C2 as stated fails: when the output directory cannot be made the result
    counts no test at all, whatever the request holds. *)
Lemma total_is_zero_without_directory :
  List.length (req_test_cases (two_groups playwright)) = 3
  /\ snd (generate (refusing ["out"]) [] (two_groups playwright))
     = {| files_generated := [];
          total_tests := 0;
          success := false;
          errors := Some ["EACCES: permission denied, mkdir 'out'"] |}.
Proof. split; reflexivity. Qed.

(** A first tag that names a property of [Object.prototype] stops the
    grouping, and the generation with it. *)
Example inherited_group_name :
  snd (generate (refusing []) []
         {| req_test_cases := [web_case "TC001" "First" "constructor"];
            req_steps := [visit_steps "TC001"];
            req_framework := playwright;
            output_path := "out";
            language := None;
            style := None |})
  = {| files_generated := [];
       total_tests := 0;
       success := false;
       errors := Some ["groups[groupName].push is not a function"] |}.
Proof. reflexivity. Qed.

(* ================================================================== *)
(** * The framework both *)
(* ================================================================== *)





(* ================================================================== *)
(** * Row conversion: the conditions *)
(* ================================================================== *)

Lemma own_overwrite_same {A : Type} (o : JsObject A) (k : string) (v x : A) :
  own o k = Some x -> own (overwrite o k v) k = Some v.
Proof.
  induction o as [|[k' v'] o IH]; simpl; [discriminate|].
  destruct (String.eqb k' k) eqn:E; simpl; rewrite E; [reflexivity | exact IH].
Qed.

Lemma own_overwrite_other {A : Type} (o : JsObject A) (k k' : string) (v : A) :
  String.eqb k k' = false -> own (overwrite o k v) k' = own o k'.
Proof.
  intros Hk. induction o as [|[k0 v0] o IH]; simpl; [reflexivity|].
  destruct (String.eqb k0 k) eqn:E; simpl.
  - apply String.eqb_eq in E. subst k0. now rewrite Hk.
  - destruct (String.eqb k0 k'); [reflexivity | exact IH].
Qed.

Lemma own_app {A : Type} (o o' : JsObject A) (k : string) :
  own (o ++ o')%list k = match own o k with Some v => Some v | None => own o' k end.
Proof.
  induction o as [|[k' v'] o IH]; simpl; [reflexivity|].
  destruct (String.eqb k' k); [reflexivity | exact IH].
Qed.

Lemma own_obj_set_same {A : Type} (o : JsObject A) (k : string) (v : A) :
  String.eqb k "__proto__" = false -> own (obj_set o k v) k = Some v.
Proof.
  intros Hp. unfold obj_set, push. rewrite Hp.
  destruct (own o k) as [x|] eqn:E.
  - now apply (own_overwrite_same o k v x).
  - rewrite own_app, E. simpl. now rewrite String.eqb_refl.
Qed.

Lemma own_obj_set_other {A : Type} (o : JsObject A) (k k' : string) (v : A) :
  String.eqb k k' = false -> own (obj_set o k v) k' = own o k'.
Proof.
  intros Hk. unfold obj_set, push.
  destruct (String.eqb k "__proto__"); [reflexivity|].
  destruct (own o k) as [x|] eqn:E.
  - now apply own_overwrite_other.
  - rewrite own_app. simpl. rewrite Hk. now destruct (own o k').
Qed.

Lemma own_has_key {A : Type} (o : JsObject A) (k : string) (v : A) :
  own o k = Some v -> has_key k (Object_keys o) = true.
Proof.
  intros H. apply own_In in H. apply Object_entries_In in H.
  unfold has_key, Object_keys. apply existsb_exists. exists k.
  split; [|apply String.eqb_refl].
  now apply (in_map fst) in H.
Qed.

Lemma conditions_loop (row : Row) (keys : list string) (acc : JsObject JsVal)
    (k : string) :
  own (fold_left (add_condition row) keys acc) k
  = match own row k with
    | Some cell =>
        if has_key k keys && kept_as_condition k cell
        then Some (parseValue cell)
        else own acc k
    | None => own acc k
    end.
Proof.
  revert acc. induction keys as [|key keys IH]; intros acc.
  - simpl. now destruct (own row k).
  - cbn [fold_left]. rewrite IH. clear IH.
    unfold has_key. cbn [existsb]. fold (has_key k keys).
    destruct (String.eqb k key) eqn:Ek.
    + apply String.eqb_eq in Ek. subst key.
      destruct (own row k) as [cell|] eqn:Er; [|unfold add_condition; now rewrite Er].
      cbn [orb]. unfold add_condition. rewrite Er.
      unfold kept_as_condition.
      destruct (negb (is_special (trim (toLowerCase k))) && nonempty cell) eqn:Ec;
        cbn [andb]; [|rewrite andb_false_r; reflexivity].
      destruct (String.eqb k "__proto__") eqn:Ep; cbn [negb andb].
      * rewrite andb_false_r. unfold obj_set. now rewrite Ep.
      * rewrite andb_true_r. rewrite (own_obj_set_same acc k _ Ep).
        now destruct (has_key k keys).
    + cbn [orb].
      assert (Hother : own (add_condition row acc key) k = own acc k).
      { unfold add_condition. destruct (own row key) as [c|]; [|reflexivity].
        destruct (negb (is_special (trim (toLowerCase key))) && nonempty c);
          [|reflexivity].
        apply own_obj_set_other. rewrite String.eqb_sym. exact Ek. }
      now rewrite Hother.
Qed.

(** X1. The conditions of a converted row hold exactly the cells that are
    not empty and whose column, lower-cased and trimmed, is not a structural
    one, each under its own header and coerced by [parseValue]. *)
Theorem conditions_lookup (P : Platform) (row : Row) (index : nat) (k : string) :
  own (tc_conditions (convertRowToTestCase P row index)) k
  = match own row k with
    | Some cell =>
        if kept_as_condition k cell then Some (parseValue cell) else None
    | None => None
    end.
Proof.
  unfold convertRowToTestCase. cbn [tc_conditions]. rewrite conditions_loop.
  destruct (own row k) as [cell|] eqn:E; [|reflexivity].
  rewrite (own_has_key row k cell E). reflexivity.
Qed.

(* ================================================================== *)
(** * Row conversion: the multi-value cells *)
(* ================================================================== *)

Lemma split_on_length (sep : ascii) (s : string) :
  List.length (split_on sep s) = S (count_char sep s).
Proof.
  induction s as [|c s IH]; [reflexivity|].
  cbn [split_on count_char]. destruct (Ascii.eqb c sep).
  - cbn [List.length]. now rewrite IH.
  - destruct (split_on sep s) as [|h t]; [discriminate IH|]. exact IH.
Qed.

Lemma filter_nonempty (l : list string) :
  Forall (fun x => x <> EmptyString) (filter nonempty l).
Proof.
  apply Forall_forall. intros x Hx. apply filter_In in Hx as [_ Hx].
  now apply nonempty_true_iff.
Qed.

(** X2. The actions and the expected results of a converted row never hold
    an empty entry. The tags are not filtered: a tags cell that is not empty
    gives one tag for each comma-separated fragment, the empty ones
    included, and any other row gives no tag. *)
Theorem multi_value_cells (P : Platform) (row : Row) (index : nat) :
  Forall (fun a => a <> EmptyString) (tc_actions (convertRowToTestCase P row index))
  /\ Forall (fun e => e <> EmptyString)
       (tc_expected_results (convertRowToTestCase P row index))
  /\ (forall t,
        own row "tags" = Some t -> nonempty t = true ->
        tc_tags (convertRowToTestCase P row index) = Some (map trim (split_on "," t))
        /\ exists tags,
             tc_tags (convertRowToTestCase P row index) = Some tags
             /\ List.length tags = S (count_char "," t))
  /\ (blank row "tags" = true ->
      tc_tags (convertRowToTestCase P row index) = Some []).
Proof.
  split; [apply filter_nonempty|]. split; [apply filter_nonempty|].
  split.
  - intros t Ht Hne.
    assert (E : tc_tags (convertRowToTestCase P row index)
                = Some (map trim (split_on "," t))).
    { unfold convertRowToTestCase. cbn [tc_tags]. now rewrite Ht, Hne. }
    split; [exact E|]. eexists. split; [exact E|].
    now rewrite length_map, split_on_length.
  - unfold blank, cell_or. intros Hb.
    unfold convertRowToTestCase. cbn [tc_tags].
    destruct (own row "tags") as [t|]; [|reflexivity].
    unfold str_or in Hb. destruct (nonempty t) eqn:E; [|reflexivity].
    rewrite E in Hb. discriminate.
Qed.

Lemma multi_value_cells_witness :
  tc_tags (convertRowToTestCase bare_platform [("tags", "smoke,, critical ")] 0)
  = Some ["smoke"; ""; "critical"].
Proof.
  exact (proj1 (proj1 (proj2 (proj2 (multi_value_cells bare_platform
                                       [("tags", "smoke,, critical ")] 0)))
                  "smoke,, critical " eq_refl eq_refl)).
Defined.

(* ================================================================== *)
(** * Markdown: the description and the cells of a table *)
(* ================================================================== *)

Lemma md_loop_description (P : Platform) (tokens : list Token) (st : MdState) :
  md_description (fold_left (md_step P) tokens st)
  = match md_description st with
    | Some (String _ _) => md_description st
    | _ =>
        match first_text_paragraph tokens with
        | Some text => Some text
        | None => if has_paragraph tokens then Some EmptyString else md_description st
        end
    end.
Proof.
  revert st. induction tokens as [|token rest IH]; intros st.
  - simpl. now destruct (md_description st) as [[|c d]|].
  - cbn [fold_left]. rewrite IH. clear IH.
    destruct token as [depth text|text|header rows|ty].
    + cbn [md_step first_text_paragraph has_paragraph].
      destruct ((depth =? 1)%nat && negb (nonempty (featureName st))); reflexivity.
    + cbn [md_step first_text_paragraph has_paragraph].
      destruct (md_description st) as [[|c d]|] eqn:E; cbn [md_description].
      * destruct text as [|c text]; [|reflexivity].
        destruct (first_text_paragraph rest); [reflexivity|].
        now destruct (has_paragraph rest).
      * now rewrite E.
      * destruct text as [|c text]; [|reflexivity].
        destruct (first_text_paragraph rest); [reflexivity|].
        now destruct (has_paragraph rest).
    + reflexivity.
    + reflexivity.
Qed.

(** X3. The description of a Markdown document is the text of its first
    paragraph whose text is not empty; a document whose paragraphs are all
    empty has the empty description, and one without a paragraph has none. *)
Theorem markdown_description (P : Platform) (content filePath : string) :
  description (parseMarkdown P content filePath)
  = match first_text_paragraph (marked_lexer P content) with
    | Some text => Some text
    | None => if has_paragraph (marked_lexer P content) then Some EmptyString else None
    end.
Proof.
  unfold parseMarkdown. cbn [description]. now rewrite md_loop_description.
Qed.

Lemma fill_row_lookup_from (headers : list string) (k : nat) (cells : list string)
    (acc : Row) (i : nat) (h : string) :
  NoDup headers -> ~ In "__proto__" headers ->
  nth_error headers i = Some h ->
  own (fill_row headers k cells acc) h = Some (cell_at cells (k + i)).
Proof.
  revert k acc i. induction headers as [|h0 rest IH]; intros k acc i Hnd Hp Hi.
  - destruct i; discriminate.
  - inversion Hnd as [|x l Hnotin Hnd']; subst.
    destruct i as [|i].
    + injection Hi as <-. cbn [fill_row].
      assert (Hkeep : forall hs j a,
                 ~ In h0 hs -> own (fill_row hs j cells a) h0 = own a h0).
      { induction hs as [|x hs IHhs]; intros j a Hx; [reflexivity|].
        cbn [fill_row]. rewrite IHhs by (intros H; apply Hx; now right).
        apply own_obj_set_other.
        destruct (String.eqb x h0) eqn:E; [|reflexivity].
        apply String.eqb_eq in E. subst. exfalso. apply Hx. now left. }
      rewrite Hkeep by exact Hnotin.
      rewrite Nat.add_0_r. fold (cell_at cells k).
      apply own_obj_set_same.
      destruct (String.eqb h0 "__proto__") eqn:E; [|reflexivity].
      apply String.eqb_eq in E. subst. exfalso. apply Hp. now left.
    + cbn [fill_row]. rewrite (IH (S k) _ i Hnd').
      * f_equal. f_equal. lia.
      * intros H. apply Hp. now right.
      * exact Hi.
Qed.

(** X4. A Markdown data row is zipped against the header: under distinct
    header keys, each key reads the cell at its own position, and the empty
    string where the row is shorter than the header. *)
Theorem markdown_row_lookup (header cells : list string) (i : nat) (h : string) :
  NoDup (table_keys header) -> ~ In "__proto__" (table_keys header) ->
  nth_error (table_keys header) i = Some h ->
  own (fill_row (table_keys header) 0 cells []) h = Some (cell_at cells i)
  /\ (List.length cells <= i ->
      own (fill_row (table_keys header) 0 cells []) h = Some EmptyString).
Proof.
  intros Hnd Hp Hi.
  pose proof (fill_row_lookup_from (table_keys header) 0 cells [] i h Hnd Hp Hi) as H.
  cbn [Nat.add] in H. split; [exact H|].
  intros Hlen. rewrite H. unfold cell_at.
  apply nth_error_None in Hlen. now rewrite Hlen.
Qed.

Lemma markdown_row_lookup_witness :
  own (fill_row (table_keys ["ID"; " Email "; "Expected"]) 0 ["TC7"; "a@b.c"] [])
    "expected" = Some EmptyString.
Proof.
  apply (proj2 (markdown_row_lookup ["ID"; " Email "; "Expected"] ["TC7"; "a@b.c"]
                  2 "expected"
                  ltac:(repeat constructor; simpl; intuition discriminate)
                  ltac:(simpl; intuition discriminate)
                  eq_refl)).
  simpl. lia.
Defined.

(* ================================================================== *)
(** * Rows: the keys their cells are read under *)
(* ================================================================== *)

(** A CSV record is keyed by its headers as the file writes them, a Markdown
    row by its headers lower-cased and trimmed. [convertRowToTestCase] reads
    the id, the name, the expected result and the priority under keys in
    lower case, so that a Markdown column is found whatever the case of its
    header, and a CSV column only when its header is written that way. *)























(* ================================================================== *)
(** * parse: what fails, and in which order *)
(* ================================================================== *)

(** X5. [parse] reads the file before it looks at the format, so that a read
    error is what the caller gets whatever the extension; without a format,
    an extension other than .csv, .json, .md and .markdown in any case fails
    with a message that ends with the extension in lower case; with a
    format given the extension is not consulted; an error of the CSV or the
    JSON reader is passed on, and a Markdown file that was read always gives
    a table. *)
Theorem parse_failures (P : Platform) (tablePath : string) :
  (forall format e, readFile P tablePath = Raise e -> parse P tablePath format = Raise e)
  /\ (forall fileContent,
        readFile P tablePath = Ok fileContent ->
        known_extension (toLowerCase (path_extname P tablePath)) = false ->
        parse P tablePath None
        = Raise (Throw PlainError ("Cannot detect format from extension: "
                                     ++ toLowerCase (path_extname P tablePath))))
  /\ (forall fileContent e,
        readFile P tablePath = Ok fileContent ->
        Papa_parse P fileContent = Raise e ->
        parse P tablePath (Some csv) = Raise e)
  /\ (forall fileContent e,
        readFile P tablePath = Ok fileContent ->
        JSON_parse P fileContent = Raise e ->
        parse P tablePath (Some json) = Raise e)
  /\ (forall fileContent,
        readFile P tablePath = Ok fileContent ->
        exists t, parse P tablePath (Some markdown) = Ok (Assembled t)).
Proof.
  split; [|split; [|split; [|split]]].
  - intros format e Hr. unfold parse. now rewrite Hr.
  - intros fileContent Hr Hk. unfold parse, detectFormat. rewrite Hr. cbn [bind].
    unfold known_extension in Hk.
    apply orb_false_iff in Hk as [Hk H4]. apply orb_false_iff in Hk as [Hk H3].
    apply orb_false_iff in Hk as [H1 H2].
    now rewrite H1, H2, H3, H4.
  - intros fileContent e Hr Hp. unfold parse, parseCSV. rewrite Hr. cbn [bind].
    now rewrite Hp.
  - intros fileContent e Hr Hp. unfold parse, parseJSON. rewrite Hr. cbn [bind].
    now rewrite Hp.
  - intros fileContent Hr. eexists.
    now apply (parse_markdown P tablePath (Some markdown) fileContent).
Qed.

Lemma parse_failures_witness :
  parse (csv_platform three_rows) "cases/table.TXT" None
  = Raise (Throw PlainError "Cannot detect format from extension: .txt")
  /\ exists t, parse (csv_platform three_rows) "cases/table.TXT" (Some markdown)
               = Ok (Assembled t).
Proof.
  destruct (parse_failures (csv_platform three_rows) "cases/table.TXT")
    as (_ & Hext & _ & _ & Hmd).
  split; [exact (Hext "" eq_refl eq_refl) | exact (Hmd "" eq_refl)].
Defined.

(* ================================================================== *)
(** * The feature name derived from the file name *)
(* ================================================================== *)

Lemma replace_char_gone (c : ascii) (s : string) :
  Ascii.eqb c " " = false -> occurs c (replace_char c " " s) = false.
Proof.
  intros Hc. induction s as [|a s IH]; [reflexivity|].
  cbn [replace_char]. destruct (Ascii.eqb a c) eqn:E.
  - cbn [append occurs]. rewrite IH, Ascii.eqb_sym. now rewrite Hc.
  - cbn [occurs]. now rewrite E, IH.
Qed.

Lemma replace_char_keeps_absent (c d : ascii) (s : string) :
  Ascii.eqb d " " = false -> occurs d s = false ->
  occurs d (replace_char c " " s) = false.
Proof.
  intros Hd. induction s as [|a s IH]; [reflexivity|].
  cbn [occurs replace_char]. intros H. apply orb_false_iff in H as [Ha Hs].
  destruct (Ascii.eqb a c).
  - cbn [append occurs]. rewrite (IH Hs), Ascii.eqb_sym. now rewrite Hd.
  - cbn [occurs]. now rewrite Ha, (IH Hs).
Qed.

Lemma replace_char_length (c : ascii) (s : string) :
  String.length (replace_char c " " s) = String.length s.
Proof.
  induction s as [|a s IH]; [reflexivity|].
  cbn [replace_char]. destruct (Ascii.eqb a c); simpl; now rewrite IH.
Qed.

Lemma upper_char_separator (c d : ascii) :
  is_upper d = false -> Ascii.eqb c d = false -> Ascii.eqb (upper_char c) d = false.
Proof.
  intros Hd Hc. unfold upper_char. destruct (is_lower c) eqn:El; [|exact Hc].
  destruct (Ascii.eqb (ascii_of_nat (code c - 32)) d) eqn:E; [|reflexivity].
  apply Ascii.eqb_eq in E. subst d. exfalso.
  revert El Hd. clear.
  destruct c as [[] [] [] [] [] [] [] []]; vm_compute; congruence.
Qed.

Lemma capitalize_words_keeps_absent (d : ascii) (b : bool) (s : string) :
  is_upper d = false -> occurs d s = false ->
  occurs d (capitalize_words b s) = false.
Proof.
  intros Hd. revert b. induction s as [|a s IH]; intros b; [reflexivity|].
  cbn [occurs capitalize_words]. intros H. apply orb_false_iff in H as [Ha Hs].
  rewrite (IH _ Hs), orb_false_r.
  destruct (is_word a && negb b); [now apply upper_char_separator | exact Ha].
Qed.

Lemma capitalize_words_length (b : bool) (s : string) :
  String.length (capitalize_words b s) = String.length s.
Proof.
  revert b. induction s as [|a s IH]; intros b; [reflexivity|].
  simpl. now rewrite IH.
Qed.

(** X6. The feature name derived from a file name holds neither a hyphen nor
    an underscore, and has the length of the file name once its extension
    and a trailing -decision-table are taken off. *)
Theorem extractFeatureName_separators (P : Platform) (filePath : string) :
  occurs "-" (extractFeatureName P filePath) = false
  /\ occurs "_" (extractFeatureName P filePath) = false
  /\ String.length (extractFeatureName P filePath)
     = String.length
         (strip_suffix "-decision-table"
            (path_basename P filePath (path_extname P filePath))).
Proof.
  unfold extractFeatureName. split; [|split].
  - apply capitalize_words_keeps_absent; [reflexivity|].
    now apply replace_char_gone.
  - apply capitalize_words_keeps_absent; [reflexivity|].
    apply replace_char_keeps_absent; [reflexivity|].
    now apply replace_char_gone.
  - now rewrite capitalize_words_length, !replace_char_length.
Qed.

(* ================================================================== *)
(** * Condition values and automatic ids: round trips *)
(* ================================================================== *)

(** X7. Coercion loses nothing of a cell that is not numeric: the text of
    the coerced value is the cell, for the four constant words as for any
    other string. *)
Theorem parseValue_text (number_to_string : JsNumber -> string) (s : string) :
  numeric s = false -> ToString number_to_string (parseValue s) = s.
Proof.
  intros Hn. unfold parseValue. unfold numeric in Hn. rewrite Hn.
  destruct (String.eqb s "true") eqn:E1; [apply String.eqb_eq in E1; now subst|].
  destruct (String.eqb s "false") eqn:E2; [apply String.eqb_eq in E2; now subst|].
  destruct (String.eqb s "null") eqn:E3; [apply String.eqb_eq in E3; now subst|].
  destruct (String.eqb s "undefined") eqn:E4; [apply String.eqb_eq in E4; now subst|].
  reflexivity.
Qed.

Lemma parseValue_text_witness :
  ToString plain_number_to_string (parseValue "undefined") = "undefined"
  /\ ToString plain_number_to_string (parseValue "12px") = "12px".
Proof.
  split; apply parseValue_text; reflexivity.
Defined.

Lemma repeat_char_length (c : ascii) (n : nat) : String.length (repeat_char c n) = n.
Proof. induction n as [|n IH]; simpl; [reflexivity | now rewrite IH]. Qed.

Lemma string_length_app (a b : string) :
  String.length (a ++ b) = String.length a + String.length b.
Proof. induction a as [|c a IH]; simpl; [reflexivity | now rewrite IH]. Qed.

(** X8. An automatic id is TC followed by at least three digits that read
    back as the 1-based index of the row, so that two rows never get the
    same automatic id, at whatever index. *)
Theorem auto_id_reads_back :
  (forall index,
     auto_id index = "TC" ++ id_digits index
     /\ read_back (id_digits index) = Some (index + 1)
     /\ 3 <= String.length (id_digits index))
  /\ (forall i j, auto_id i = auto_id j -> i = j).
Proof.
  split.
  - intros index. split; [reflexivity|]. unfold id_digits, padStart, string_of_nat.
    split.
    + now rewrite read_back_padded, DecimalNat.Unsigned.of_to.
    + rewrite string_length_app, repeat_char_length. lia.
  - exact auto_id_injective.
Qed.

(* ================================================================== *)
(** * sanitizeFileName *)
(* ================================================================== *)

Lemma includes_cons (p : string) (a : ascii) (s : string) :
  includes p (String a s) = starts_with p (String a s) || includes p s.
Proof. reflexivity. Qed.

Lemma starts_with_hyphen (s : string) :
  starts_with "-" s = match s with String a _ => Ascii.eqb a "-" | EmptyString => false end.
Proof.
  destruct s as [|a s]; [reflexivity|]. cbn [starts_with].
  rewrite andb_true_r. apply Ascii.eqb_sym.
Qed.

Lemma double_hyphen_cons (a : ascii) (s : string) :
  includes "--" (String a s)
  = (Ascii.eqb a "-" && starts_with "-" s) || includes "--" s.
Proof.
  rewrite includes_cons. cbn [starts_with].
  now rewrite (Ascii.eqb_sym "-" a).
Qed.

Lemma lower_alnum_not_hyphen (c : ascii) :
  is_lower_alnum c = true -> Ascii.eqb c "-" = false.
Proof.
  intros H. destruct (Ascii.eqb c "-") eqn:E; [|reflexivity].
  apply Ascii.eqb_eq in E. subst. discriminate H.
Qed.

Lemma collapse_runs_shape (b : bool) (s : string) :
  all_slug (collapse_runs b s) = true
  /\ includes "--" (collapse_runs b s) = false
  /\ (b = true -> starts_with "-" (collapse_runs b s) = false).
Proof.
  revert b. induction s as [|c s IH]; intros b.
  - simpl. now destruct b.
  - cbn [collapse_runs]. destruct (is_lower_alnum c) eqn:Ec.
    + destruct (IH false) as (H1 & H2 & _).
      cbn [all_slug]. unfold slug_char. rewrite Ec, H1.
      rewrite double_hyphen_cons, H2, !starts_with_hyphen.
      rewrite (lower_alnum_not_hyphen c Ec). now (split; [|split]).
    + destruct (IH true) as (H1 & H2 & H3). destruct b.
      * now (split; [|split]).
      * cbn [all_slug]. rewrite H1. rewrite double_hyphen_cons, H2, (H3 eq_refl).
        split; [reflexivity|]. split; [reflexivity | discriminate].
Qed.

Lemma drop_leading_hyphen_shape (s : string) :
  all_slug s = true -> includes "--" s = false ->
  all_slug (drop_leading_hyphen s) = true
  /\ includes "--" (drop_leading_hyphen s) = false
  /\ starts_with "-" (drop_leading_hyphen s) = false.
Proof.
  intros Ha Hd. destruct s as [|a s]; [now (split; [|split])|].
  rewrite double_hyphen_cons in Hd. apply orb_false_iff in Hd as [Hd1 Hd2].
  cbn [all_slug] in Ha. apply andb_true_iff in Ha as [Ha1 Ha2].
  destruct (Ascii.eqb a "-") eqn:E.
  - apply Ascii.eqb_eq in E. subst a. cbn [drop_leading_hyphen].
    simpl in Hd1. now (split; [|split]).
  - assert (Hs : drop_leading_hyphen (String a s) = String a s).
    { destruct a as [[] [] [] [] [] [] [] []]; try reflexivity. discriminate E. }
    rewrite Hs. split; [cbn [all_slug]; now rewrite Ha1, Ha2|].
    split; [rewrite double_hyphen_cons, E, Hd2; reflexivity|].
    now rewrite starts_with_hyphen.
Qed.

Lemma drop_last_hyphen_snoc (s : string) (c : ascii) :
  drop_last_hyphen (s ++ String c EmptyString)
  = if Ascii.eqb c "-" then s else s ++ String c EmptyString.
Proof.
  induction s as [|a s IH]; [reflexivity|].
  cbn [append drop_last_hyphen]. rewrite IH.
  destruct (s ++ String c EmptyString) eqn:E.
  - destruct s; discriminate E.
  - now destruct (Ascii.eqb c "-").
Qed.

Lemma string_snoc (s : string) :
  s = EmptyString \/ exists p c, s = p ++ String c EmptyString.
Proof.
  induction s as [|a s IH]; [now left|]. right.
  destruct IH as [-> | (p & c & ->)].
  - now exists EmptyString, a.
  - now exists (String a p), c.
Qed.

Lemma strip_trailing_hyphen (s : string) :
  string_rev (drop_leading_hyphen (string_rev s)) = drop_last_hyphen s.
Proof.
  destruct (string_snoc s) as [-> | (p & c & ->)]; [reflexivity|].
  rewrite drop_last_hyphen_snoc, string_rev_app. cbn [string_rev append].
  destruct (Ascii.eqb c "-") eqn:E.
  - apply Ascii.eqb_eq in E. subst c. cbn [drop_leading_hyphen].
    apply string_rev_involutive.
  - assert (Hs : drop_leading_hyphen (String c (string_rev p)) = String c (string_rev p)).
    { destruct c as [[] [] [] [] [] [] [] []]; try reflexivity. discriminate E. }
    rewrite Hs. cbn [string_rev]. now rewrite string_rev_involutive.
Qed.

Lemma drop_last_hyphen_empty (s : string) :
  drop_last_hyphen s = EmptyString -> s = EmptyString \/ s = "-".
Proof.
  destruct s as [|a [|b s]]; [now left | |].
  - cbn [drop_last_hyphen]. destruct (Ascii.eqb a "-") eqn:E; [|discriminate].
    apply Ascii.eqb_eq in E. subst. now right.
  - discriminate.
Qed.

Lemma drop_last_hyphen_slug (s : string) :
  all_slug s = true -> all_slug (drop_last_hyphen s) = true.
Proof.
  induction s as [|a s IH]; [reflexivity|].
  cbn [all_slug]. intros H. apply andb_true_iff in H as [Ha Hs].
  destruct s as [|b s].
  - cbn [drop_last_hyphen]. destruct (Ascii.eqb a "-"); [reflexivity|].
    cbn [all_slug]. now rewrite Ha.
  - change (drop_last_hyphen (String a (String b s)))
      with (String a (drop_last_hyphen (String b s))).
    cbn [all_slug]. now rewrite Ha, (IH Hs).
Qed.

Lemma drop_last_hyphen_head (s : string) :
  starts_with "-" (drop_last_hyphen s) = true -> starts_with "-" s = true.
Proof.
  destruct s as [|a [|b s]]; [discriminate | |].
  - cbn [drop_last_hyphen]. destruct (Ascii.eqb a "-") eqn:E; [discriminate|].
    now rewrite !starts_with_hyphen.
  - change (drop_last_hyphen (String a (String b s)))
      with (String a (drop_last_hyphen (String b s))).
    now rewrite !starts_with_hyphen.
Qed.

Lemma drop_last_hyphen_double (s : string) :
  includes "--" s = false -> includes "--" (drop_last_hyphen s) = false.
Proof.
  induction s as [|a s IH]; [reflexivity|].
  rewrite double_hyphen_cons. intros H. apply orb_false_iff in H as [H1 H2].
  destruct s as [|b s].
  - cbn [drop_last_hyphen]. destruct (Ascii.eqb a "-"); [reflexivity|].
    rewrite double_hyphen_cons. cbn [starts_with includes].
    now rewrite andb_false_r.
  - change (drop_last_hyphen (String a (String b s)))
      with (String a (drop_last_hyphen (String b s))).
    rewrite double_hyphen_cons, (IH H2), orb_false_r.
    destruct (Ascii.eqb a "-"); [|reflexivity]. cbn [andb] in *.
    destruct (starts_with "-" (drop_last_hyphen (String b s))) eqn:E; [|reflexivity].
    apply drop_last_hyphen_head in E. congruence.
Qed.

Lemma drop_last_hyphen_end (s : string) :
  includes "--" s = false -> ends_with_hyphen (drop_last_hyphen s) = false.
Proof.
  induction s as [|a s IH]; [reflexivity|].
  rewrite double_hyphen_cons. intros H. apply orb_false_iff in H as [H1 H2].
  destruct s as [|b s].
  - cbn [drop_last_hyphen]. destruct (Ascii.eqb a "-") eqn:E; [reflexivity|].
    cbn [ends_with_hyphen]. exact E.
  - change (drop_last_hyphen (String a (String b s)))
      with (String a (drop_last_hyphen (String b s))).
    destruct (drop_last_hyphen (String b s)) as [|x t] eqn:EX.
    + apply drop_last_hyphen_empty in EX as [EX|EX]; [discriminate|].
      injection EX as -> ->. cbn [ends_with_hyphen].
      rewrite starts_with_hyphen in H1. cbn in H1. now rewrite andb_true_r in H1.
    + change (ends_with_hyphen (String a (String x t)))
        with (ends_with_hyphen (String x t)).
      now apply IH.
Qed.

Lemma ends_with_hyphen_snoc (p : string) : ends_with_hyphen (p ++ "-") = true.
Proof.
  induction p as [|a p IH]; [reflexivity|].
  cbn [append]. destruct (p ++ "-") eqn:E; [destruct p; discriminate E|].
  exact IH.
Qed.

Lemma drop_last_hyphen_no_head (s : string) :
  starts_with "-" s = false -> starts_with "-" (drop_last_hyphen s) = false.
Proof.
  intros H. destruct (starts_with "-" (drop_last_hyphen s)) eqn:E; [|reflexivity].
  apply drop_last_hyphen_head in E. congruence.
Qed.

Lemma sanitizeFileName_facts (name : string) :
  all_slug (sanitizeFileName name) = true
  /\ starts_with "-" (sanitizeFileName name) = false
  /\ ends_with_hyphen (sanitizeFileName name) = false
  /\ includes "--" (sanitizeFileName name) = false.
Proof.
  unfold sanitizeFileName, strip_hyphens. rewrite strip_trailing_hyphen.
  destruct (collapse_runs_shape false (toLowerCase name)) as (H1 & H2 & _).
  destruct (drop_leading_hyphen_shape _ H1 H2) as (G1 & G2 & G3).
  split; [now apply drop_last_hyphen_slug|].
  split; [now apply drop_last_hyphen_no_head|].
  split; [now apply drop_last_hyphen_end | now apply drop_last_hyphen_double].
Qed.


(** X9. A sanitized file name holds only the characters a to z, 0 to 9 and
    the hyphen, neither starts nor ends with a hyphen, and has no two
    hyphens in a row. *)
Theorem sanitizeFileName_shape (name : string) :
  all_slug (sanitizeFileName name) = true
  /\ starts_with "-" (sanitizeFileName name) = false
  /\ (forall p, sanitizeFileName name <> p ++ "-")
  /\ includes "--" (sanitizeFileName name) = false.
Proof.
  destruct (sanitizeFileName_facts name) as (H1 & H2 & H3 & H4).
  split; [exact H1|]. split; [exact H2|]. split; [|exact H4].
  intros p E. rewrite E, ends_with_hyphen_snoc in H3. discriminate.
Qed.

Lemma slug_char_not_upper (c : ascii) : slug_char c = true -> is_upper c = false.
Proof.
  destruct c as [[] [] [] [] [] [] [] []]; vm_compute; congruence.
Qed.

Lemma all_slug_no_upper (s : string) : all_slug s = true -> has_upper s = false.
Proof.
  induction s as [|c s IH]; [reflexivity|].
  cbn [all_slug]. intros H. apply andb_true_iff in H as [Hc Hs].
  change (has_upper (String c s)) with (is_upper c || has_upper s).
  now rewrite (slug_char_not_upper c Hc), (IH Hs).
Qed.

Lemma collapse_runs_fixed (b : bool) (s : string) :
  all_slug s = true -> includes "--" s = false ->
  (b = true -> starts_with "-" s = false) ->
  collapse_runs b s = s.
Proof.
  revert b. induction s as [|c s IH]; intros b Ha Hd Hb; [reflexivity|].
  cbn [all_slug] in Ha. apply andb_true_iff in Ha as [Hc Hs].
  rewrite double_hyphen_cons in Hd. apply orb_false_iff in Hd as [Hd1 Hd2].
  cbn [collapse_runs]. destruct (is_lower_alnum c) eqn:Ec.
  - f_equal. apply IH; [exact Hs | exact Hd2 | discriminate].
  - unfold slug_char in Hc. rewrite Ec in Hc. cbn [orb] in Hc.
    rewrite Hc in Hd1. cbn [andb] in Hd1.
    destruct b.
    + specialize (Hb eq_refl). rewrite starts_with_hyphen in Hb. congruence.
    + apply Ascii.eqb_eq in Hc. subst c. f_equal.
      apply IH; [exact Hs | exact Hd2 | intros _; exact Hd1].
Qed.

Lemma drop_leading_hyphen_fixed (s : string) :
  starts_with "-" s = false -> drop_leading_hyphen s = s.
Proof.
  rewrite starts_with_hyphen. destruct s as [|a s]; [reflexivity|].
  intros E. destruct a as [[] [] [] [] [] [] [] []]; try reflexivity. discriminate E.
Qed.

Lemma drop_last_hyphen_fixed (s : string) :
  ends_with_hyphen s = false -> drop_last_hyphen s = s.
Proof.
  induction s as [|a s IH]; [reflexivity|].
  destruct s as [|b s].
  - cbn [ends_with_hyphen drop_last_hyphen]. now intros ->.
  - change (ends_with_hyphen (String a (String b s)))
      with (ends_with_hyphen (String b s)).
    change (drop_last_hyphen (String a (String b s)))
      with (String a (drop_last_hyphen (String b s))).
    intros H. now rewrite (IH H).
Qed.

(** X10. Sanitizing is idempotent: a sanitized file name is sanitized to
    itself. *)
Theorem sanitizeFileName_idempotent (name : string) :
  sanitizeFileName (sanitizeFileName name) = sanitizeFileName name.
Proof.
  destruct (sanitizeFileName_facts name) as (H1 & H2 & H3 & H4).
  set (r := sanitizeFileName name) in *.
  unfold sanitizeFileName at 1, strip_hyphens. rewrite strip_trailing_hyphen.
  rewrite (toLowerCase_fixed r (all_slug_no_upper r H1)).
  rewrite (collapse_runs_fixed false r H1 H4) by discriminate.
  rewrite (drop_leading_hyphen_fixed r H2).
  now apply drop_last_hyphen_fixed.
Qed.

(* ================================================================== *)
(** * Grouping: what each group holds *)
(* ================================================================== *)

Lemma extend_bucket_nil (held : option (list Joined)) : extend_bucket held [] = held.
Proof. destruct held as [b|]; simpl; [now rewrite app_nil_r | reflexivity]. Qed.

Lemma extend_bucket_app (held : option (list Joined)) (l1 l2 : list Joined) :
  extend_bucket (extend_bucket held l1) l2 = extend_bucket held (l1 ++ l2)%list.
Proof.
  destruct held as [b|]; simpl.
  - now rewrite app_assoc.
  - destruct l1 as [|x l1]; simpl; [reflexivity|]. reflexivity.
Qed.

Lemma inherited_proto (k : string) :
  inherited k = false -> String.eqb k "__proto__" = false.
Proof.
  intros H. destruct (String.eqb k "__proto__") eqn:E; [|reflexivity].
  apply String.eqb_eq in E. subst. discriminate H.
Qed.

Lemma map_fst_overwrite {A : Type} (o : JsObject A) (k : string) (v : A) :
  map fst (overwrite o k v) = map fst o.
Proof.
  induction o as [|[k' v'] o IH]; simpl; [reflexivity|].
  destruct (String.eqb k' k); simpl; [reflexivity | now rewrite IH].
Qed.

Lemma own_has_key_fst {A : Type} (o : JsObject A) (k : string) :
  has_key k (map fst o) = match own o k with Some _ => true | None => false end.
Proof.
  induction o as [|[k' v'] o IH]; simpl; [reflexivity|].
  rewrite (String.eqb_sym k k'). destruct (String.eqb k' k); [reflexivity | exact IH].
Qed.

(** One turn of the loop of [groupTestCases] that does not throw. *)
Lemma group_step_spec (all : list TestSteps) (groups groups' : JsObject (list Joined))
    (tc : TestCase) :
  own_keys_plain groups ->
  group_step all groups tc = Ok groups' ->
  own_keys_plain groups'
  /\ (forall g, own groups' g = extend_bucket (own groups g) (bucket_of all [tc] g))
  /\ map fst groups'
     = first_seen_after (map fst groups) (group_names all [tc]).
Proof.
  intros Hplain. unfold group_step, bucket_of, group_names, matched.
  cbn [flat_map filter]. 
  destruct (find_steps all (tc_id tc)) as [st|] eqn:Ef.
  - cbn [map first_seen_after fold_left]. rewrite own_has_key_fst.
    destruct (own groups (group_name tc)) as [bucket|] eqn:Eo.
    + intros [= <-]. split; [|split].
      * intros k v Hk.
        destruct (String.eqb (group_name tc) k) eqn:Ek.
        -- apply String.eqb_eq in Ek. subst k. now apply (Hplain _ bucket).
        -- rewrite own_overwrite_other in Hk by exact Ek. now apply (Hplain k v).
      * intros g. rewrite app_nil_r.
        destruct (String.eqb (group_name tc) g) eqn:Ek.
        -- apply String.eqb_eq in Ek. subst g.
           rewrite (own_overwrite_same groups _ _ bucket Eo), Eo. reflexivity.
        -- rewrite own_overwrite_other by exact Ek.
           now rewrite extend_bucket_nil.
      * apply map_fst_overwrite.
    + destruct (inherited (group_name tc)) eqn:Ei; [discriminate|].
      intros [= <-]. pose proof (inherited_proto _ Ei) as Hp.
      split; [|split].
      * intros k v Hk.
        destruct (String.eqb (group_name tc) k) eqn:Ek.
        -- apply String.eqb_eq in Ek. now subst k.
        -- rewrite own_obj_set_other in Hk by exact Ek. now apply (Hplain k v).
      * intros g. rewrite app_nil_r.
        destruct (String.eqb (group_name tc) g) eqn:Ek.
        -- apply String.eqb_eq in Ek. subst g.
           rewrite (own_obj_set_same groups _ _ Hp), Eo. reflexivity.
        -- rewrite own_obj_set_other by exact Ek.
           now rewrite extend_bucket_nil.
      * unfold obj_set. rewrite Hp, Eo. unfold push. now rewrite map_app.
  - intros [= <-]. split; [exact Hplain|]. split; [|reflexivity].
    intros g. now rewrite extend_bucket_nil.
Qed.

Lemma bucket_of_cons (all : list TestSteps) (tc : TestCase) (rest : list TestCase)
    (g : string) :
  bucket_of all (tc :: rest) g = (bucket_of all [tc] g ++ bucket_of all rest g)%list.
Proof. unfold bucket_of. cbn [flat_map]. now rewrite app_nil_r. Qed.

Lemma group_names_cons (all : list TestSteps) (tc : TestCase) (rest : list TestCase) :
  group_names all (tc :: rest) = (group_names all [tc] ++ group_names all rest)%list.
Proof.
  unfold group_names. cbn [filter]. destruct (matched all tc); reflexivity.
Qed.

Lemma first_seen_after_app (seen a b : list string) :
  first_seen_after seen (a ++ b) = first_seen_after (first_seen_after seen a) b.
Proof. unfold first_seen_after. apply fold_left_app. Qed.

Lemma group_loop_spec (all : list TestSteps) (testCases : list TestCase)
    (groups groups' : JsObject (list Joined)) :
  own_keys_plain groups ->
  group_loop all testCases groups = Ok groups' ->
  (forall g, own groups' g = extend_bucket (own groups g) (bucket_of all testCases g))
  /\ map fst groups' = first_seen_after (map fst groups) (group_names all testCases).
Proof.
  revert groups. induction testCases as [|tc rest IH]; intros groups Hplain.
  - intros [= <-]. split; [|reflexivity]. intros g. now rewrite extend_bucket_nil.
  - cbn [group_loop]. destruct (group_step all groups tc) as [g1|e] eqn:E; cbn [bind];
      [|discriminate].
    intros Hloop.
    destruct (group_step_spec all groups g1 tc Hplain E) as (Hp1 & Ho1 & Hk1).
    destruct (IH g1 Hp1 Hloop) as (Ho & Hk).
    split.
    + intros g. now rewrite Ho, Ho1, extend_bucket_app, <- bucket_of_cons.
    + rewrite Hk, Hk1, (group_names_cons all tc rest).
      now rewrite first_seen_after_app.
Qed.

(** X11. When grouping succeeds, a group exists exactly for the names that
    some test case with steps carries, it holds those test cases with the
    steps found for them in the order of the request, and the groups stand
    in the order in which their names were first met. *)
Theorem groupTestCases_buckets (testCases : list TestCase) (all : list TestSteps)
    (groups : JsObject (list Joined)) :
  groupTestCases testCases all = Ok groups ->
  (forall g,
     own groups g = match bucket_of all testCases g with
                    | [] => None
                    | bucket => Some bucket
                    end)
  /\ map fst groups = first_seen_after [] (group_names all testCases).
Proof.
  intros H.
  destruct (group_loop_spec all testCases [] groups) as (Ho & Hk);
    [intros k v; discriminate | exact H |].
  split; [|exact Hk].
  intros g. rewrite Ho. cbn [own extend_bucket].
  now destruct (bucket_of all testCases g).
Qed.

Lemma groupTestCases_buckets_witness :
  exists groups,
    groupTestCases (req_test_cases (two_groups playwright))
      (req_steps (two_groups playwright)) = Ok groups
    /\ own groups "a" = Some [ (web_case "TC001" "First" "a", visit_steps "TC001") ]
    /\ own groups "general" = None
    /\ map fst groups = ["a"; "b"].
Proof.
  eexists. split; [reflexivity|].
  destruct (groupTestCases_buckets (req_test_cases (two_groups playwright))
              (req_steps (two_groups playwright)) _ eq_refl) as [Hown Hkeys].
  split; [exact (Hown "a")|]. split; [exact (Hown "general") | exact Hkeys].
Defined.

Lemma group_loop_total (all : list TestSteps) (testCases : list TestCase)
    (groups : JsObject (list Joined)) :
  own_keys_plain groups ->
  (existsb (unplaceable all) testCases = false ->
   exists groups', group_loop all testCases groups = Ok groups')
  /\ (existsb (unplaceable all) testCases = true ->
      group_loop all testCases groups
      = Raise (Throw TypeError "groups[groupName].push is not a function")).
Proof.
  revert groups. induction testCases as [|tc rest IH]; intros groups Hplain.
  - split; [intros _; now eexists | discriminate].
  - cbn [existsb group_loop].
    destruct (unplaceable all tc) eqn:Eu; cbn [orb].
    + split; [discriminate|]. intros _.
      unfold unplaceable, matched in Eu. apply andb_true_iff in Eu as [Em Ei].
      unfold group_step.
      destruct (find_steps all (tc_id tc)) as [st|]; [|discriminate].
      destruct (own groups (group_name tc)) as [bucket|] eqn:Eo.
      * rewrite (Hplain _ _ Eo) in Ei. discriminate.
      * now rewrite Ei.
    + assert (Hstep : exists g1, group_step all groups tc = Ok g1).
      { unfold unplaceable, matched in Eu. unfold group_step.
        destruct (find_steps all (tc_id tc)) as [st|]; [|now eexists].
        cbn [andb] in Eu. rewrite Eu.
        destruct (own groups (group_name tc)); now eexists. }
      destruct Hstep as [g1 Hg1]. rewrite Hg1. cbn [bind].
      destruct (group_step_spec all groups g1 tc Hplain Hg1) as (Hp1 & _).
      exact (IH g1 Hp1).
Qed.

(** X12. Grouping throws exactly when some test case that has steps carries,
    as its group name, a property of [Object.prototype] (constructor,
    toString, __proto__ and the like); what it throws is the TypeError of
    the call of push. *)
Theorem groupTestCases_failure (testCases : list TestCase) (all : list TestSteps) :
  (existsb (unplaceable all) testCases = true
   <-> exists e, groupTestCases testCases all = Raise e)
  /\ (forall e, groupTestCases testCases all = Raise e ->
        e = Throw TypeError "groups[groupName].push is not a function").
Proof.
  destruct (group_loop_total all testCases []) as [Hok Hbad];
    [intros k v; discriminate|].
  unfold groupTestCases.
  destruct (existsb (unplaceable all) testCases) eqn:E.
  - rewrite (Hbad eq_refl). split.
    + split; [intros _; now eexists | reflexivity].
    + now intros e [= <-].
  - destruct (Hok eq_refl) as [g Hg]. rewrite Hg. split.
    + split; [discriminate | intros [e He]; discriminate].
    + discriminate.
Qed.

(* ================================================================== *)
(** * Generation: counts, order and what is written *)
(* ================================================================== *)

Lemma files_of_success (P : Platform) (request : TestCodeGenerationRequest)
    (w : World P) (entries : list (string * list Joined)) :
  errors_of (attempts P request w entries) = [] ->
  files_of (attempts P request w entries) = map (file_for P request) entries.
Proof.
  revert w. induction entries as [|[groupName tests] rest IH]; intros w; [reflexivity|].
  cbn [attempts]. unfold generateTestFile.
  destruct (writeFile P w _ _) as [w' [e|]];
    cbn [files_of errors_of flat_map snd fst app map].
  - discriminate.
  - fold (files_of (attempts P request w' rest)).
    fold (errors_of (attempts P request w' rest)).
    intros H. rewrite (IH w' H). reflexivity.
Qed.

Lemma generate_success (P : Platform) (w : World P)
    (request : TestCodeGenerationRequest) :
  success (snd (generate P w request)) = true ->
  exists groups,
    groupTestCases (req_test_cases request) (req_steps request) = Ok groups
    /\ files_generated (snd (generate P w request))
       = map (file_for P request) (Object_entries groups).
Proof.
  destruct (mkdir P w (output_path request)) as [w1 [e|]] eqn:Hm.
  { unfold generate. rewrite Hm. discriminate. }
  destruct (groupTestCases (req_test_cases request) (req_steps request))
    as [groups|e] eqn:Hg.
  2:{ unfold generate. rewrite Hm, Hg. discriminate. }
  rewrite (generate_setup_ok P w w1 request groups Hm Hg). cbn [success files_generated].
  intros Hs. exists groups. split; [reflexivity|].
  apply files_of_success. destruct (errors_of _); [reflexivity | discriminate].
Qed.

Lemma list_sum_perm (l l' : list nat) : Permutation l l' -> list_sum l = list_sum l'.
Proof. induction 1; simpl; lia. Qed.

Lemma list_sum_cons (x : nat) (l : list nat) : list_sum (x :: l) = x + list_sum l.
Proof. reflexivity. Qed.

Lemma bucket_sizes_overwrite (groups : JsObject (list Joined)) (k : string)
    (bucket more : list Joined) :
  own groups k = Some bucket ->
  bucket_sizes (overwrite groups k (bucket ++ more)%list)
  = bucket_sizes groups + List.length more.
Proof.
  unfold bucket_sizes. induction groups as [|[k' v'] groups IH]; [discriminate|].
  cbn [own overwrite]. destruct (String.eqb k' k).
  - intros [= ->]. cbn [map snd]. rewrite !list_sum_cons, length_app. lia.
  - intros H. cbn [map snd]. rewrite !list_sum_cons, (IH H). lia.
Qed.

Lemma group_step_sizes (all : list TestSteps) (groups groups' : JsObject (list Joined))
    (tc : TestCase) :
  group_step all groups tc = Ok groups' ->
  bucket_sizes groups'
  = bucket_sizes groups + (if matched all tc then 1 else 0).
Proof.
  unfold group_step, matched.
  destruct (find_steps all (tc_id tc)) as [st|]; [|intros [= <-]; lia].
  destruct (own groups (group_name tc)) as [bucket|] eqn:Eo.
  - intros [= <-]. unfold push. now rewrite (bucket_sizes_overwrite _ _ _ _ Eo).
  - destruct (inherited (group_name tc)) eqn:Ei; [discriminate|].
    intros [= <-]. unfold obj_set. rewrite (inherited_proto _ Ei), Eo.
    unfold push, bucket_sizes. rewrite map_app, list_sum_app. simpl. lia.
Qed.

Lemma group_loop_sizes (all : list TestSteps) (testCases : list TestCase)
    (groups groups' : JsObject (list Joined)) :
  group_loop all testCases groups = Ok groups' ->
  bucket_sizes groups'
  = bucket_sizes groups + List.length (filter (matched all) testCases).
Proof.
  revert groups. induction testCases as [|tc rest IH]; intros groups.
  - intros [= <-]. simpl. lia.
  - cbn [group_loop]. destruct (group_step all groups tc) as [g1|e] eqn:E; cbn [bind];
      [|discriminate].
    intros H. rewrite (IH g1 H), (group_step_sizes all groups g1 tc E).
    cbn [filter]. destruct (matched all tc); simpl; lia.
Qed.

(** X13. When a generation succeeds, the test counts of its files add up to
    the number of test cases of the request that have steps: each of them is
    rendered in exactly one file. *)
Theorem test_counts_add_up (P : Platform) (w : World P)
    (request : TestCodeGenerationRequest) :
  success (snd (generate P w request)) = true ->
  list_sum (map test_count (files_generated (snd (generate P w request))))
  = List.length (filter (matched (req_steps request)) (req_test_cases request)).
Proof.
  intros Hs. destruct (generate_success P w request Hs) as [groups [Hg Hf]].
  rewrite Hf, map_map. cbn [file_for test_count].
  rewrite (list_sum_perm _ (map (fun entry => List.length (snd entry)) groups)).
  - pose proof (group_loop_sizes _ _ [] groups Hg) as H. exact H.
  - apply Permutation_map, Object_entries_perm.
Qed.

Lemma test_counts_add_up_witness :
  list_sum (map test_count
              (files_generated (snd (generate (refusing []) [] (two_groups playwright)))))
  = 2.
Proof.
  exact (test_counts_add_up (refusing []) [] (two_groups playwright) eq_refl).
Defined.

(** X14. A request none of whose test cases has steps is a success without
    files: once the directory is made nothing is written, no error is
    reported and total_tests still counts every test case. *)
Theorem nothing_matched (P : Platform) (w w1 : World P)
    (request : TestCodeGenerationRequest) :
  mkdir P w (output_path request) = (w1, None) ->
  forallb (fun tc => negb (matched (req_steps request) tc)) (req_test_cases request)
  = true ->
  generate P w request
  = (w1, {| files_generated := [];
            total_tests := List.length (req_test_cases request);
            success := true;
            errors := None |}).
Proof.
  intros Hm Hall.
  assert (Hf : filter (matched (req_steps request)) (req_test_cases request) = []).
  { induction (req_test_cases request) as [|tc rest IH]; [reflexivity|].
    cbn [forallb] in Hall. apply andb_true_iff in Hall as [H1 H2].
    cbn [filter]. destruct (matched (req_steps request) tc); [discriminate|].
    now apply IH. }
  unfold generate, groupTestCases. rewrite Hm, <- group_loop_filter, Hf.
  reflexivity.
Qed.

Lemma nothing_matched_witness :
  snd (generate (refusing []) [] no_steps_request)
  = {| files_generated := []; total_tests := 1; success := true; errors := None |}.
Proof.
  now rewrite (nothing_matched (refusing []) [] [] no_steps_request eq_refl eq_refl).
Defined.

Lemma Object_entries_named {A : Type} (o : JsObject A) :
  (forall k, In k (map fst o) -> array_index k = None) -> Object_entries o = o.
Proof.
  intros H. unfold Object_entries.
  assert (Hi : index_props o = []).
  { induction o as [|[k v] o IH]; [reflexivity|]. cbn [index_props].
    rewrite (H k) by now left. apply IH. intros k' Hk'. apply H. now right. }
  rewrite Hi. cbn [map app]. unfold named_props.
  induction o as [|[k v] o IH]; [reflexivity|]. cbn [filter fst].
  rewrite (H k) by now left. f_equal. apply IH; [|].
  - intros k' Hk'. apply H. now right.
  - revert Hi. cbn [index_props]. now rewrite (H k) by now left.
Qed.

Lemma first_seen_after_In (seen names : list string) (k : string) :
  In k (first_seen_after seen names) -> In k seen \/ In k names.
Proof.
  revert seen. induction names as [|n names IH]; intros seen; [now left|].
  cbn [first_seen_after fold_left]. fold (first_seen_after
    (if has_key n seen then seen else push seen n) names).
  intros H. apply IH in H as [H|H]; [|right; now right].
  destruct (has_key n seen); [now left|].
  unfold push in H. apply in_app_or in H as [H|[H|[]]]; [now left | right; now left].
Qed.

(** X15. When a generation succeeds and no group name is an array index,
    the files follow the order in which the group names were first met, one
    file for each name, at the path made of the output directory and the
    sanitized name. *)
Theorem files_in_first_seen_order (P : Platform) (w : World P)
    (request : TestCodeGenerationRequest) :
  success (snd (generate P w request)) = true ->
  (forall n, In n (group_names (req_steps request) (req_test_cases request)) ->
             array_index n = None) ->
  map path (files_generated (snd (generate P w request)))
  = map (fun n => path_join P (output_path request)
                    (file_name n (language_or_default request)))
        (first_seen_after [] (group_names (req_steps request) (req_test_cases request))).
Proof.
  intros Hs Hnames. destruct (generate_success P w request Hs) as [groups [Hg Hf]].
  destruct (groupTestCases_buckets _ _ _ Hg) as [_ Hk].
  rewrite Hf, Object_entries_named.
  - rewrite <- Hk, !map_map. reflexivity.
  - intros k Hin. rewrite Hk in Hin.
    apply first_seen_after_In in Hin as [[]|Hin]. now apply Hnames.
Qed.

Lemma files_in_first_seen_order_witness :
  map path (files_generated (snd (generate (refusing []) [] (two_groups playwright))))
  = ["out/a.spec.ts"; "out/b.spec.ts"].
Proof.
  rewrite (files_in_first_seen_order (refusing []) [] (two_groups playwright) eq_refl).
  - reflexivity.
  - intros n [<-|[<-|[]]]; reflexivity.
Defined.

(** Array-index group names go first, in numeric order, whenever they were
    met. *)
Example array_index_names_go_first :
  map fst (Object_entries [("smoke", 1); ("10", 2); ("2", 3); ("02", 4)])
  = ["2"; "10"; "smoke"; "02"].
Proof. reflexivity. Qed.

(* ================================================================== *)
(** * Rendering of the steps *)
(* ================================================================== *)



(** X17. The API rendering of a step ends with the assertion of a status,
    the expected one or 200 when the step has none or has zero; then, for a
    step that names a variable to save the response under, the capture of
    the parsed body and its entry in savedResponses; then, for a step with
    an expected body, the check of the body. *)
Theorem api_step_tail (P : Platform) (step : ApiView) :
  exists head,
    generateApiStep P step
    = head ++ status_line P step ++ save_lines step ++ body_check P step.
Proof.
  unfold generateApiStep, status_line, save_lines, body_check.
  fold (asserted_status P step).
  set (opts := (_ ++ nl ++ "    }") : string).
  exists ("// " ++ v_description step ++ nl
            ++ "    const response = await request.fetch('"
            ++ shown (v_endpoint step) ++ "', " ++ opts ++ ");" ++ nl ++ "    ").
  destruct (v_save_response step) as [[|c n]|];
    destruct (truthy (v_expected_body step));
    rewrite ?append_assoc, ?append_nil_r; reflexivity.
Qed.

(** The step of Scenario E: status 201, response saved as trip. *)
Example api_step_of_create_trip :
  status_line bare_platform (as_ApiStep (api_step create_trip))
  = "expect(response.status()).toBe(201);"
  /\ save_lines (as_ApiStep (api_step create_trip))
     = nl ++ "    const trip = await response.json();"
         ++ nl ++ "    savedResponses['trip'] = trip;".
Proof. split; reflexivity. Qed.

(* ================================================================== *)
(** * ApiAgent: the resource of an objective *)
(* ================================================================== *)

Lemma lower_of_upper (c : ascii) : lower_char (upper_char c) = lower_char c.
Proof. destruct c as [[] [] [] [] [] [] [] []]; reflexivity. Qed.

Lemma upper_of_lower (c : ascii) : upper_char (lower_char c) = upper_char c.
Proof. destruct c as [[] [] [] [] [] [] [] []]; reflexivity. Qed.

Lemma is_word_lower (c : ascii) : is_word (lower_char c) = is_word c.
Proof. destruct c as [[] [] [] [] [] [] [] []]; reflexivity. Qed.

Lemma lower_char_idem (c : ascii) : lower_char (lower_char c) = lower_char c.
Proof. destruct c as [[] [] [] [] [] [] [] []]; reflexivity. Qed.

Lemma toLowerCase_idem (s : string) : toLowerCase (toLowerCase s) = toLowerCase s.
Proof.
  induction s as [|c s IH]; [reflexivity|].
  unfold toLowerCase in *. cbn [map_string]. now rewrite lower_char_idem, IH.
Qed.

Lemma literal_text (w s taken rest : string) :
  ApiAgent.literal w s = Some (taken, rest) -> toLowerCase taken = toLowerCase w.
Proof.
  revert s taken rest.
  induction w as [|a w IH]; intros s taken rest H.
  - destruct s; cbn in H; now inversion H.
  - destruct s as [|b s]; [discriminate|]. cbn [ApiAgent.literal] in H.
    destruct (Ascii.eqb (upper_char a) (upper_char b)) eqn:Hab; [|discriminate].
    destruct (ApiAgent.literal w s) as [[t r]|] eqn:Hl; [|discriminate].
    inversion H; subst. apply Ascii.eqb_eq in Hab.
    unfold toLowerCase in *. cbn [map_string]. f_equal.
    + now rewrite <- (lower_of_upper b), <- Hab, lower_of_upper.
    + exact (IH _ _ _ Hl).
Qed.

Lemma alternatives_text (ws : list string) (s taken : string) :
  ApiAgent.alternatives ws s = Some taken ->
  exists w, In w ws /\ toLowerCase taken = toLowerCase w.
Proof.
  induction ws as [|w ws IH]; [discriminate|]. cbn [ApiAgent.alternatives].
  destruct (ApiAgent.literal w s) as [[t r]|] eqn:Hl.
  - destruct (ApiAgent.plural_and_boundary t r).
    + intros H. inversion H; subst. exists w. split; [now left|].
      exact (literal_text _ _ _ _ Hl).
    + intros H. destruct (IH H) as [w' [Hin Hw]]. exists w'. split; [now right|exact Hw].
  - intros H. destruct (IH H) as [w' [Hin Hw]]. exists w'. split; [now right|exact Hw].
Qed.

Lemma first_match_text (s : string) (before : option ascii) (taken : string) :
  ApiAgent.first_match before s = Some taken ->
  In (toLowerCase taken) ApiAgent.resource_words.
Proof.
  assert (Hwords : forall t, ApiAgent.alternatives ApiAgent.resource_words t = Some taken ->
                             In (toLowerCase taken) ApiAgent.resource_words).
  { intros t H. destruct (alternatives_text _ _ _ H) as [w [Hin Hw]]. rewrite Hw.
    cbn in Hin.
    repeat (destruct Hin as [<-|Hin]; [cbn; tauto|]). destruct Hin. }
  revert before.
  induction s as [|c s IH]; intros before; cbn [ApiAgent.first_match].
  - destruct (ApiAgent.word_boundary before "").
    + destruct (ApiAgent.alternatives ApiAgent.resource_words "") eqn:Ha; [|discriminate].
      intros H. inversion H; subst. exact (Hwords _ Ha).
    + discriminate.
  - destruct (ApiAgent.word_boundary before (String c s)).
    + destruct (ApiAgent.alternatives ApiAgent.resource_words (String c s)) eqn:Ha.
      * intros H. inversion H; subst. exact (Hwords _ Ha).
      * apply IH.
    + apply IH.
Qed.

Lemma literal_lower (w s : string) :
  ApiAgent.literal w (toLowerCase s)
  = match ApiAgent.literal w s with
    | Some (taken, rest) => Some (toLowerCase taken, toLowerCase rest)
    | None => None
    end.
Proof.
  revert s. induction w as [|a w IH]; intros s.
  - destruct s; reflexivity.
  - destruct s as [|b s]; [reflexivity|].
    unfold toLowerCase in *. cbn [map_string ApiAgent.literal].
    rewrite upper_of_lower.
    destruct (Ascii.eqb (upper_char a) (upper_char b)); [|reflexivity].
    rewrite IH. now destruct (ApiAgent.literal w s) as [[t r]|].
Qed.

Lemma last_char_lower (s : string) :
  ApiAgent.last_char (toLowerCase s) = option_map lower_char (ApiAgent.last_char s).
Proof.
  induction s as [|c s IH]; [reflexivity|].
  unfold toLowerCase in *. cbn [map_string ApiAgent.last_char].
  destruct s as [|d s]; [reflexivity|]. exact IH.
Qed.

Lemma word_boundary_lower (before : option ascii) (s : string) :
  ApiAgent.word_boundary (option_map lower_char before) (toLowerCase s)
  = ApiAgent.word_boundary before s.
Proof.
  unfold ApiAgent.word_boundary. f_equal.
  - destruct before; [apply is_word_lower|reflexivity].
  - destruct s; [reflexivity|]. apply is_word_lower.
Qed.

Lemma plural_and_boundary_lower (taken rest : string) :
  ApiAgent.plural_and_boundary (toLowerCase taken) (toLowerCase rest)
  = ApiAgent.plural_and_boundary taken rest.
Proof.
  unfold ApiAgent.plural_and_boundary. rewrite last_char_lower.
  destruct rest as [|c r].
  - exact (word_boundary_lower _ "").
  - change (toLowerCase (String c r)) with (String (lower_char c) (toLowerCase r)).
    cbv beta iota. rewrite upper_of_lower.
    change (Some (lower_char c)) with (option_map lower_char (Some c)).
    rewrite (word_boundary_lower (Some c) r).
    change (String (lower_char c) (toLowerCase r)) with (toLowerCase (String c r)).
    now rewrite (word_boundary_lower (ApiAgent.last_char taken) (String c r)).
Qed.

Lemma alternatives_lower (ws : list string) (s : string) :
  ApiAgent.alternatives ws (toLowerCase s)
  = option_map toLowerCase (ApiAgent.alternatives ws s).
Proof.
  induction ws as [|w ws IH]; [reflexivity|]. cbn [ApiAgent.alternatives].
  rewrite literal_lower. destruct (ApiAgent.literal w s) as [[t r]|]; [|exact IH].
  rewrite plural_and_boundary_lower.
  destruct (ApiAgent.plural_and_boundary t r); [reflexivity|exact IH].
Qed.

Lemma first_match_lower (s : string) (before : option ascii) :
  ApiAgent.first_match (option_map lower_char before) (toLowerCase s)
  = option_map toLowerCase (ApiAgent.first_match before s).
Proof.
  revert before. induction s as [|c s IH]; intros before.
  - pose proof (word_boundary_lower before "") as Hb.
    change (toLowerCase "") with "" in *.
    cbn [ApiAgent.first_match]. rewrite Hb.
    now destruct (ApiAgent.word_boundary before "").
  - pose proof (word_boundary_lower before (String c s)) as Hb.
    pose proof (alternatives_lower ApiAgent.resource_words (String c s)) as Ha.
    pose proof (IH (Some c)) as Hs.
    change (toLowerCase (String c s))
      with (String (lower_char c) (toLowerCase s)) in *.
    change (option_map lower_char (Some c)) with (Some (lower_char c)) in Hs.
    cbn [ApiAgent.first_match]. rewrite Hb, Hs.
    destruct (ApiAgent.word_boundary before (String c s)); [|reflexivity].
    rewrite Ha.
    now destruct (ApiAgent.alternatives ApiAgent.resource_words (String c s)).
Qed.

(** X18. The resource an objective is read for is one of six fixed plurals,
    each a listed word with an s appended (so activity gives activitys), or
    the word resources; and it depends on the objective only up to the case
    of its ASCII letters. *)
Theorem extractResourceName_range (objective : string) :
  In (ApiAgent.extractResourceName objective)
     [ "trips"; "users"; "activitys"; "budgets"; "comments"; "collaborations";
       "resources" ]
  /\ ApiAgent.extractResourceName (toLowerCase objective)
     = ApiAgent.extractResourceName objective.
Proof.
  unfold ApiAgent.extractResourceName. split.
  - destruct (ApiAgent.first_match None objective) as [taken|] eqn:Hm.
    + apply first_match_text in Hm. cbn in Hm.
      repeat (destruct Hm as [<-|Hm]; [cbn; tauto|]). destruct Hm.
    + cbn. tauto.
  - pose proof (first_match_lower objective None) as Hl.
    change (option_map lower_char None) with (@None ascii) in Hl. rewrite Hl.
    destruct (ApiAgent.first_match None objective) as [taken|]; [|reflexivity].
    cbn [option_map]. now rewrite toLowerCase_idem.
Qed.

Example plural_of_activity :
  ApiAgent.extractResourceName "Update Activity" = "activitys"
  /\ ApiAgent.extractResourceName "List all activities" = "resources"
  /\ ApiAgent.extractResourceName "users_trip Comments" = "comments".
Proof. repeat split. Qed.
(* ================================================================== *)
(** * ApiAgent: the example steps *)
(* ================================================================== *)

Lemma starts_with_split (p s : string) :
  starts_with p s = true -> exists r, s = p ++ r.
Proof.
  revert s. induction p as [|a p IH]; intros s H.
  - now exists s.
  - destruct s as [|b s]; [discriminate|]. cbn [starts_with] in H.
    apply andb_true_iff in H. destruct H as [Hab Hp].
    apply Ascii.eqb_eq in Hab. subst b.
    destruct (IH _ Hp) as [r ->]. now exists r.
Qed.

Lemma get_in_budget (s : string) :
  includes "budget" s = true -> includes "get" s = true.
Proof.
  induction s as [|c s IH]; [discriminate|].
  intros H. rewrite includes_cons in H. apply orb_true_iff in H.
  destruct H as [H|H].
  - destruct (starts_with_split _ _ H) as [r Hr]. rewrite Hr. cbn. rewrite ?orb_true_r. reflexivity.
  - rewrite includes_cons, (IH H). apply orb_true_r.
Qed.

(** X19. The example steps of the API agent are the login step, present
    exactly when authentication is asked for, followed by at most one step.
    That step is there exactly when the lower-cased objective contains one
    of create, get, fetch, update, delete, and the first of these that it
    contains, get and fetch counting as one, decides it: POST to
    /api/<resource> expecting 201, GET of /api/<resource> expecting 200, PUT
    to /api/<resource>/{{id}} expecting 200, DELETE of
    /api/<resource>/{{id}} expecting 204, the resource being the one read
    from the objective; POST and PUT send a copy of the conditions, GET and
    DELETE no body; and the step carries an Authorization header exactly
    when the authentication is of type bearer. *)
Theorem api_example_steps_shape (testCase : TestCase) (objective : string)
    (auth : option Auth) :
  exists tail,
    ApiAgent.generateExampleSteps testCase objective auth
    = ((if ApiAgent.auth_required auth then [ApiAgent.login] else []) ++ tail)%list
    /\ List.length tail <= 1
    /\ (tail = [] <->
        existsb (fun word => includes word (toLowerCase objective))
          ["create"; "get"; "fetch"; "update"; "delete"] = false)
    /\ Forall
         (fun step =>
            method step
            = (if includes "create" (toLowerCase objective) then "POST"
               else if includes "get" (toLowerCase objective)
                       || includes "fetch" (toLowerCase objective) then "GET"
               else if includes "update" (toLowerCase objective) then "PUT"
               else "DELETE")
            /\ In (method step, endpoint step, expected_status step, body step)
                 [ ("POST", "/api/" ++ ApiAgent.extractResourceName objective,
                    Some (Finite false 201 0), ApiAgent.conditions_copy testCase);
                   ("GET", "/api/" ++ ApiAgent.extractResourceName objective,
                    Some (Finite false 200 0), VUndefined);
                   ("PUT",
                    "/api/" ++ ApiAgent.extractResourceName objective ++ "/{{id}}",
                    Some (Finite false 200 0), ApiAgent.conditions_copy testCase);
                   ("DELETE",
                    "/api/" ++ ApiAgent.extractResourceName objective ++ "/{{id}}",
                    Some (Finite false 204 0), VUndefined) ]
            /\ match headers step with
               | Some h =>
                   own h "Authorization"
                   = match auth with
                     | Some {| auth_type := bearer |} =>
                         Some "Bearer {{authResponse.token}}"
                     | _ => None
                     end
               | None => False
               end)
         tail.
Proof.
  unfold ApiAgent.generateExampleSteps, push.
  set (steps := if ApiAgent.auth_required auth then [ApiAgent.login] else []).
  assert (Hauth : forall extra : JsObject string,
             own extra "Authorization" = None ->
             own (extra ++ ApiAgent.authorization auth)%list "Authorization"
             = match auth with
               | Some {| auth_type := bearer |} => Some "Bearer {{authResponse.token}}"
               | _ => None
               end).
  { intros extra He.
    assert (Hown : forall (a b : JsObject string) k,
               own a k = None -> own (a ++ b)%list k = own b k).
    { induction a as [|[k' v] a IHa]; intros b k Hk; [reflexivity|].
      cbn [own app] in *. destruct (String.eqb k' k); [discriminate|]. now apply IHa. }
    rewrite (Hown _ _ _ He).
    destruct auth as [[[] c]|]; reflexivity. }
  cbn [existsb].
  destruct (includes "create" (toLowerCase objective)) eqn:Hc;
    [|destruct (includes "get" (toLowerCase objective)) eqn:Hg;
      [|destruct (includes "fetch" (toLowerCase objective)) eqn:Hf;
        [|destruct (includes "update" (toLowerCase objective)) eqn:Hu;
          [|destruct (includes "delete" (toLowerCase objective)) eqn:Hd]]]];
    cbn [orb].
  6: { exists []. rewrite app_nil_r. cbn [List.length].
       split; [reflexivity|]. split; [lia|]. split; [tauto|constructor]. }
  all: eexists; split; [reflexivity|]; cbn [List.length];
    (split; [lia|]); (split; [split; discriminate|]);
    constructor; [|constructor];
    cbn [method endpoint expected_status body headers In];
    (split; [reflexivity|]); split; [tauto|].
  - exact (Hauth [("Content-Type", "application/json")] eq_refl).
  - exact (Hauth [] eq_refl).
  - exact (Hauth [] eq_refl).
  - exact (Hauth [("Content-Type", "application/json")] eq_refl).
  - exact (Hauth [] eq_refl).
Qed.

(** X20. The words are looked for in a fixed order and anywhere in the
    objective: one that mentions a budget contains get, so unless it also
    contains create its example is a GET of the collection, also when it
    speaks of updating or deleting. *)
Theorem budget_objective_is_read (testCase : TestCase) (objective : string)
    (auth : option Auth) :
  includes "budget" (toLowerCase objective) = true ->
  includes "create" (toLowerCase objective) = false ->
  exists step,
    ApiAgent.generateExampleSteps testCase objective auth
    = push (if ApiAgent.auth_required auth then [ApiAgent.login] else []) step
    /\ method step = "GET"
    /\ endpoint step = "/api/" ++ ApiAgent.extractResourceName objective
    /\ body step = VUndefined.
Proof.
  intros Hb Hc. unfold ApiAgent.generateExampleSteps.
  rewrite Hc, (get_in_budget _ Hb). cbn [orb].
  eexists. split; [reflexivity|]. cbn [method endpoint body]. tauto.
Qed.

Lemma budget_objective_is_read_witness :
  exists step,
    ApiAgent.generateExampleSteps no_conditions "Delete budget" None
    = push [] step
    /\ method step = "GET"
    /\ endpoint step = "/api/budgets"
    /\ body step = VUndefined.
Proof.
  exact (budget_objective_is_read no_conditions "Delete budget" None eq_refl eq_refl).
Defined.

(* ================================================================== *)
(** * ApiAgent: validation of the steps *)
(* ================================================================== *)

Section ValidationFacts.

Variable P : Platform.
Variable S : Server.

Lemma keep_field_sent (k : string) (st : Session) (data : JsVal) :
  sent (fst (ApiAgent.keep_field k st data)) = sent st.
Proof.
  unfold ApiAgent.keep_field. destruct (get data k) as [v|e]; [|reflexivity].
  cbn [fst]. now destruct (truthy v).
Qed.

Lemma validate_step_sent (baseUrl : string) (st : Session) (step : ApiStep) :
  let st' := fst (ApiAgent.validate_step P S baseUrl st step) in
  sent st' = sent st
  \/ exists r, sent st' = push (sent st) r /\ addressed r = address baseUrl step.
Proof.
  unfold ApiAgent.validate_step.
  destruct (ApiAgent.replaceVariables P S (ApiAgent.headers_or_empty step) _)
    as [h|e]; [|now left].
  destruct (ApiAgent.replaceVariables P S (body step) _) as [b|e]; [|now left].
  right. exists (ApiAgent.request_of P baseUrl step h b). split; [|reflexivity].
  destruct (fetch S (sent st) _) as [response|e]; [|reflexivity].
  destruct (save_response step) as [[|c name]|]; try reflexivity.
  destruct (response_json response) as [data|e]; [|reflexivity].
  destruct (ApiAgent.keep_field "token" _ data) as [st2 [u|e]] eqn:Ht.
  - rewrite keep_field_sent.
    change st2 with (fst (st2, @Ok unit u)). rewrite <- Ht.
    now rewrite keep_field_sent.
  - cbn [fst]. change st2 with (fst (st2, @Raise unit e)). rewrite <- Ht.
    now rewrite keep_field_sent.
Qed.

Lemma subsequence_refl {A : Type} (l : list A) : subsequence l l.
Proof. induction l; now constructor. Qed.

Lemma validate_each_ok (baseUrl : string) (steps : list ApiStep) (st : Session) :
  snd (ApiAgent.validate_each P S baseUrl steps st) = Ok tt.
Proof.
  revert st. induction steps as [|step rest IH]; intros st; [reflexivity|].
  cbn [ApiAgent.validate_each].
  destruct (ApiAgent.validate_step P S baseUrl st step) as [st' [u|e]]; apply IH.
Qed.

Lemma validate_each_sent (baseUrl : string) (steps : list ApiStep) (st : Session) :
  exists more,
    sent (fst (ApiAgent.validate_each P S baseUrl steps st)) = (sent st ++ more)%list
    /\ subsequence (map addressed more) (map (address baseUrl) steps).
Proof.
  revert st. induction steps as [|step rest IH]; intros st.
  - exists []. cbn. rewrite app_nil_r. split; [reflexivity|constructor].
  - cbn [ApiAgent.validate_each].
    pose proof (validate_step_sent baseUrl st step) as Hs. cbv zeta in Hs.
    assert (Hnext : exists more,
               sent (fst (ApiAgent.validate_each P S baseUrl rest
                            (fst (ApiAgent.validate_step P S baseUrl st step))))
               = (sent st ++ more)%list
               /\ subsequence (map addressed more)
                    (map (address baseUrl) (step :: rest))).
    { destruct (IH (fst (ApiAgent.validate_step P S baseUrl st step)))
        as [more [Hm Hsub]].
      destruct Hs as [Hs|[r [Hs Hr]]].
      - exists more. rewrite Hm, Hs. split; [reflexivity|]. now constructor.
      - exists (r :: more). rewrite Hm, Hs. unfold push.
        rewrite <- app_assoc. split; [reflexivity|].
        cbn [map]. rewrite Hr. now constructor. }
    now destruct (ApiAgent.validate_step P S baseUrl st step) as [st' [u|e]].
Qed.

End ValidationFacts.

(** X21. The API agent never reports a failure: whatever the server answers
    and whatever goes wrong while a step is tried, execute returns success
    with the steps it was given and no error message. *)
Theorem api_execute_reports_success (P : Platform) (S : Server)
    (request : ApiExplorationRequest) :
  snd (ApiAgent.execute P S request)
  = {| er_test_case_id := tc_id (ae_test_case request);
       er_steps := ae_steps request;
       er_success := true;
       er_error := None;
       er_screenshots := None |}.
Proof.
  unfold ApiAgent.execute, ApiAgent.validateSteps.
  pose proof (validate_each_ok P S (base_url request) (ae_steps request)
                {| sent := []; savedResponses := ApiAgent.with_credentials (ae_auth request) |})
    as Hok.
  destruct (ApiAgent.validate_each P S _ _ _) as [st [u|e]]; [reflexivity|].
  discriminate.
Qed.

(** X22. The requests of a validation follow the steps: each step leads to
    at most one request, the requests keep the order of the steps, and each
    goes with the method of its step to base_url followed by the endpoint as
    it is written, no variable being replaced there. *)
Theorem requests_follow_steps (P : Platform) (S : Server)
    (request : ApiExplorationRequest) :
  subsequence
    (map addressed (sent (fst (ApiAgent.execute P S request))))
    (map (address (base_url request)) (ae_steps request)).
Proof.
  unfold ApiAgent.execute, ApiAgent.validateSteps.
  destruct (validate_each_sent P S (base_url request) (ae_steps request)
              {| sent := []; savedResponses := ApiAgent.with_credentials (ae_auth request) |})
    as [more [Hm Hsub]].
  cbn [sent app] in Hm.
  destruct (ApiAgent.validate_each P S _ _ _) as [st [u|e]]; cbn [fst] in *;
    now rewrite Hm.
Qed.
(* ================================================================== *)
(** * WebAgent *)
(* ================================================================== *)

(** X23. The example steps of the web agent begin with the navigation to
    the url, whatever the objective; they end with an assertion on the first
    expected result exactly when there is one; there are at most six of
    them; and every step after the first names a selector. *)
Theorem web_example_steps_shape (testCase : TestCase) (objective url : string) :
  exists middle,
    WebAgent.generateExampleSteps testCase objective url
    = (WebAgent.navigation url
       :: middle
       ++ match tc_expected_results testCase with
          | first :: _ => [WebAgent.assertion first]
          | [] => []
          end)%list
    /\ List.length middle <= 4
    /\ Forall (fun s => given (selector s) <> None /\ action s <> "assert"
                        /\ action s <> "navigate") middle.
Proof.
  unfold WebAgent.generateExampleSteps, push.
  destruct (includes "login" (toLowerCase objective));
    [exists WebAgent.login_steps
    |destruct (includes "create" (toLowerCase objective));
     [exists WebAgent.create_steps|exists []]];
    (split; [now destruct (tc_expected_results testCase)|]);
    (split; [cbn; lia|]);
    repeat constructor; cbn; discriminate.
Qed.

Section RunFacts.

Variable P : Platform.
Variable B : Playwright.

Lemma executeSteps_from_passes (dir : option string) (steps : list AgentStep) :
  forall i d,
    (forall j e step, In step steps -> snd (WebAgent.step_and_shot P B e j step dir) = None) ->
    snd (WebAgent.executeSteps_from P B i d steps dir) = None.
Proof.
  induction steps as [|step rest IH]; intros i d Hall; [reflexivity|].
  cbn [WebAgent.executeSteps_from].
  pose proof (Hall i d step (or_introl eq_refl)) as Hs.
  destruct (WebAgent.step_and_shot P B d i step dir) as [d1 [e|]]; [discriminate|].
  apply IH. intros j e s Hin. apply Hall. now right.
Qed.

Lemma executeSteps_from_app (dir : option string) (before : list AgentStep) :
  forall i d d1 rest,
    WebAgent.executeSteps_from P B i d before dir = (d1, None) ->
    WebAgent.executeSteps_from P B i d (before ++ rest)%list dir
    = WebAgent.executeSteps_from P B (i + List.length before) d1 rest dir.
Proof.
  induction before as [|step more IH]; intros i d d1 rest H.
  - cbn in H. inversion H; subst. cbn. now rewrite Nat.add_0_r.
  - cbn [WebAgent.executeSteps_from app List.length] in *.
    destruct (WebAgent.step_and_shot P B d i step dir) as [d2 [e|]].
    + unfold WebAgent.step_failed in H.
      destruct (given dir), (screenshot_on_failure step) as [[]|];
        try discriminate;
        destruct (WebAgent.shoot P B d2 _ _ true) as [d3 [e3|]]; discriminate.
    + rewrite (IH _ _ _ rest H). f_equal. lia.
Qed.

End RunFacts.

(** X24. On a page that puts no obstacle in the way, the example steps run
    to the end: for a url that is not empty, none of them lacks what the
    agent asks of its action. *)
Theorem example_steps_run (P : Platform) (B : Playwright) (testCase : TestCase)
    (objective url : string) (dir : option string) (d : Desk B) :
  url <> "" ->
  obliging B (tc_expected_results testCase) ->
  snd (WebAgent.executeSteps P B d
         (map plain (WebAgent.generateExampleSteps testCase objective url)) dir)
  = None.
Proof.
  intros Hurl (Hgoto & Hclick & Hfill & Hwait & Hvis & Htext & Hdir & Hshot).
  assert (Hphoto : forall e dirname name fullPage,
             snd (WebAgent.shoot P B e dirname name fullPage) = None).
  { intros e dirname name fullPage. unfold WebAgent.shoot.
    pose proof (Hdir e dirname) as H1.
    destruct (make_dir B e dirname) as [e1 [x|]]; [discriminate|]. apply Hshot. }
  assert (Hafter : forall j (r : Desk B * option Exn),
             snd r = None ->
             snd (match r with
                  | (d1, Some x) => (d1, Some x)
                  | (d1, None) =>
                      match given dir with
                      | Some dirname =>
                          WebAgent.shoot P B d1 dirname
                            ("step-" ++ string_of_nat (j + 1) ++ ".png") false
                      | None => (d1, None)
                      end
                  end) = None).
  { intros j [d1 [x|]] Hr; [discriminate|].
    destruct (given dir); [apply Hphoto|reflexivity]. }
  unfold WebAgent.executeSteps. apply executeSteps_from_passes.
  intros j e step Hin. apply in_map_iff in Hin. destruct Hin as [s [<- Hin]].
  unfold WebAgent.step_and_shot. apply (Hafter j).
  unfold WebAgent.generateExampleSteps, push in Hin.
  assert (Hnav : snd (WebAgent.executeStep P B e (plain (WebAgent.navigation url))) = None).
  { unfold WebAgent.executeStep. cbn.
    destruct url as [|c u]; [now elim Hurl|]. apply Hgoto. }
  assert (Hlogin : forall s, In s WebAgent.login_steps ->
                             snd (WebAgent.executeStep P B e (plain s)) = None).
  { intros s0 H0. cbn in H0.
    destruct H0 as [<-|[<-|[<-|[<-|[]]]]]; unfold WebAgent.executeStep; cbn;
      [apply Hfill|apply Hfill|apply Hclick|apply Hwait]. }
  assert (Hcreate : forall s, In s WebAgent.create_steps ->
                              snd (WebAgent.executeStep P B e (plain s)) = None).
  { intros s0 H0. cbn in H0.
    destruct H0 as [<-|[<-|[]]]; unfold WebAgent.executeStep; cbn;
      [apply Hclick|apply Hwait]. }
  assert (Hassert : forall first more,
             tc_expected_results testCase = first :: more ->
             snd (WebAgent.executeStep P B e (plain (WebAgent.assertion first))) = None).
  { intros first more Hr. unfold WebAgent.executeStep. cbn.
    pose proof (Hvis e "body") as Hv.
    destruct (isVisible B e "body") as [d1 r]. cbn [snd] in Hv. subst r.
    destruct (Htext d1 "body") as [text [Ht Hin']].
    destruct (textContent B d1 "body") as [d2 r]. cbn [snd] in Ht. subst r.
    rewrite Hr in Hin'. cbn [firstn] in Hin'. inversion Hin' as [|? ? Hinc _]; subst.
    now rewrite Hinc. }
  destruct (tc_expected_results testCase) as [|first more] eqn:Hr.
  - destruct (includes "login" (toLowerCase objective)).
    + apply in_app_or in Hin. destruct Hin as [[<-|[]]|Hin]; [exact Hnav|now apply Hlogin].
    + destruct (includes "create" (toLowerCase objective)).
      * apply in_app_or in Hin.
        destruct Hin as [[<-|[]]|Hin]; [exact Hnav|now apply Hcreate].
      * destruct Hin as [<-|[]]. exact Hnav.
  - apply in_app_or in Hin. destruct Hin as [Hin|[<-|[]]];
      [|exact (Hassert first more eq_refl)].
    destruct (includes "login" (toLowerCase objective)).
    + apply in_app_or in Hin. destruct Hin as [[<-|[]]|Hin]; [exact Hnav|now apply Hlogin].
    + destruct (includes "create" (toLowerCase objective)).
      * apply in_app_or in Hin.
        destruct Hin as [[<-|[]]|Hin]; [exact Hnav|now apply Hcreate].
      * destruct Hin as [<-|[]]. exact Hnav.
Qed.

Lemma example_steps_run_witness :
  snd (WebAgent.executeSteps bare_platform (quiet_page "Welcome back" []) []
         (map plain (WebAgent.generateExampleSteps login_case "Login as a user"
                       "http://localhost:3000/login"))
         (Some "shots"))
  = None.
Proof.
  apply example_steps_run; [discriminate|].
  repeat (split; [intros; reflexivity|]).
  split.
  - intros d sel. exists "Welcome back". split; [reflexivity|].
    constructor; [reflexivity|constructor].
  - split; intros; reflexivity.
Defined.

(** X25. The run ends at the first step that fails: the steps after it are
    not tried, and the error names the step by its position counted from
    one, with its description, or unknown when that is empty, and the text
    of the error. When a screenshot directory is given and the step does not
    set screenshot_on_failure to false, a screenshot of the failure is taken
    first, and if that fails its error is thrown in place of the step's. *)
Theorem first_failure_ends_the_run (P : Platform) (B : Playwright)
    (d d1 d2 : Desk B) (before after : list AgentStep) (step : AgentStep)
    (dir : option string) (error : Exn) :
  WebAgent.executeSteps P B d before dir = (d1, None) ->
  WebAgent.step_and_shot P B d1 (List.length before) step dir = (d2, Some error) ->
  let run := WebAgent.executeSteps P B d (before ++ step :: after)%list dir in
  let position := List.length before in
  ((given dir = None \/ screenshot_on_failure step = Some false) ->
   run = (d2, Some (step_error B position step error)))
  /\ (forall dirname,
        given dir = Some dirname ->
        screenshot_on_failure step <> Some false ->
        match WebAgent.shoot P B d2 dirname
                ("step-" ++ string_of_nat (position + 1) ++ "-error.png") true with
        | (d3, Some failure) => run = (d3, Some failure)
        | (d3, None) => run = (d3, Some (step_error B position step error))
        end).
Proof.
  intros Hbefore Hstep run position. subst run position.
  unfold WebAgent.executeSteps in *.
  rewrite (executeSteps_from_app P B dir before 0 d d1 (step :: after) Hbefore).
  cbn [WebAgent.executeSteps_from Nat.add]. rewrite Hstep.
  unfold WebAgent.step_failed, step_error, WebAgent.thrown. split.
  - intros [Hd|Hs].
    + now rewrite Hd.
    + rewrite Hs. now destruct (given dir).
  - intros dirname Hd Hs. rewrite Hd.
    destruct (screenshot_on_failure step) as [[]|]; try (now elim Hs);
      now destruct (WebAgent.shoot P B d2 dirname _ true) as [d3 [failure|]].
Qed.

Lemma first_failure_ends_the_run_witness :
  WebAgent.executeSteps bare_platform (quiet_page "Welcome" []) []
    ([plain (WebAgent.navigation "http://localhost:3000")]
     ++ click_nothing :: [plain (WebAgent.assertion "Welcome")])%list
    None
  = (["goto http://localhost:3000"],
     Some (Throw PlainError
             ("Step 2 failed: Click save" ++ nl
              ++ "Error: Click action requires selector"))).
Proof.
  exact (proj1 (first_failure_ends_the_run bare_platform (quiet_page "Welcome" [])
                  [] ["goto http://localhost:3000"] ["goto http://localhost:3000"]
                  [plain (WebAgent.navigation "http://localhost:3000")]
                  [plain (WebAgent.assertion "Welcome")]
                  click_nothing None
                  (Throw PlainError "Click action requires selector")
                  eq_refl eq_refl)
           (or_introl eq_refl)).
Defined.

(** X26. The web agent does not keep a browser. When execute returns a
    result, with success or with failure, no browser is held any more; the
    result reports success exactly when it carries no error message, and
    returns the steps and the id of the request. Execute throws in one case
    only: something failed in its try block while a browser was held, and
    closing that browser in the catch block failed too; it then throws the
    error of that close and still holds the browser. So it never throws with
    a browser that closes. Cleanup releases the browser in the same way and
    leaves the desk alone when none is held. *)
Theorem execute_releases_browser (P : Platform) (B : Playwright) (held : bool)
    (d : Desk B) (request : WebExplorationRequest) :
  match WebAgent.execute P B held d request with
  | (_, held', Ok result) =>
      held' = false
      /\ (er_success result = true <-> er_error result = None)
      /\ er_steps result = we_steps request
      /\ er_test_case_id result = tc_id (we_test_case request)
  | (d', held', Raise e) =>
      held' = true
      /\ exists d1 screenshots error,
           WebAgent.session P B held d request = (d1, true, screenshots, Some error)
           /\ browser_close B d1 = (d', Some e)
  end
  /\ (forall d1 screenshots error d2 e,
        WebAgent.session P B held d request = (d1, true, screenshots, Some error) ->
        browser_close B d1 = (d2, Some e) ->
        WebAgent.execute P B held d request = (d2, true, Raise e))
  /\ ((forall d1, snd (browser_close B d1) = None) ->
      exists result, snd (WebAgent.execute P B held d request) = Ok result)
  /\ match WebAgent.cleanup B held d with
     | (_, held', None) => held' = false
     | (_, held', Some _) => held' = true
     end
  /\ WebAgent.cleanup B false d = (d, false, None).
Proof.
  assert (Hsession : forall d1 screenshots,
             WebAgent.session P B held d request <> (d1, true, screenshots, None)).
  { intros d1 screenshots. unfold WebAgent.session.
    destruct (launch B d _) as [e1 [x|]]; [discriminate|].
    destruct (newContext B e1) as [e2 [x|]]; [discriminate|].
    destruct (newPage B e2) as [e3 [x|]]; [discriminate|].
    destruct (WebAgent.executeSteps P B e3 _ _) as [e4 [x|]]; [discriminate|].
    destruct (WebAgent.collect P B e4 _) as [e5 [shots|x]]; [|discriminate].
    destruct (context_close B e5) as [e6 [x|]]; [discriminate|].
    destruct (browser_close B e6) as [e7 [x|]]; discriminate. }
  split; [|split; [|split; [|split; [|reflexivity]]]].
  - unfold WebAgent.execute.
    destruct (WebAgent.session P B held d request) as [[[d1 held1] screenshots] [error|]]
      eqn:Hs.
    + destruct held1.
      * destruct (browser_close B d1) as [d2 [e|]] eqn:Hclose.
        -- split; [reflexivity|]. now exists d1, screenshots, error.
        -- cbn. repeat split; discriminate.
      * cbn. repeat split; discriminate.
    + destruct held1; [now elim (Hsession d1 screenshots)|].
      cbn. repeat split; reflexivity.
  - intros d1 screenshots error d2 e Hs Hclose.
    unfold WebAgent.execute. now rewrite Hs, Hclose.
  - intros Hcloses. unfold WebAgent.execute.
    destruct (WebAgent.session P B held d request) as [[[d1 held1] screenshots] [error|]].
    + destruct held1; [|cbn; eexists; reflexivity].
      pose proof (Hcloses d1) as Hc.
      destruct (browser_close B d1) as [d2 [e|]]; [discriminate|].
      cbn; eexists; reflexivity.
    + destruct held1; cbn; eexists; reflexivity.
  - unfold WebAgent.cleanup. destruct held; [|reflexivity].
    now destruct (browser_close B d) as [d1 [e|]].
Qed.

Lemma execute_releases_browser_witness :
  (exists result,
     snd (WebAgent.execute bare_platform (quiet_page "Welcome" []) true []
            failing_request)
     = Ok result)
  /\ WebAgent.execute bare_platform jammed_page false [] failing_request
     = (["launch"; "newContext"; "newPage"], true,
        Raise (Throw PlainError "Target closed")).
Proof.
  split.
  - apply (proj1 (proj2 (proj2 (execute_releases_browser bare_platform
                                  (quiet_page "Welcome" []) true [] failing_request)))).
    intros d1. reflexivity.
  - exact (proj1 (proj2 (execute_releases_browser bare_platform jammed_page false []
                           failing_request))
             ["launch"; "newContext"; "newPage"] []
             (Throw PlainError
                ("Step 1 failed: Click save" ++ nl
                 ++ "Error: Click action requires selector"))
             ["launch"; "newContext"; "newPage"]
             (Throw PlainError "Target closed")
             eq_refl eq_refl).
Defined.
